(** * Shardeum MCP server: the RPC client and the tool handlers

    A shallow embedding of [tools.js] (the RPC client [makeRpcCall] and the
    seventeen tools registered by [registerTools]), of [prompts.js] (the
    seventeen prompts registered by [registerPrompts]) and of the
    configuration of [index.js] and of the [start.js] of the Dockerfile,
    together with the parts of the JavaScript run time the handlers rely on:
    [parseInt], the conversion of numbers and other values to strings,
    [Number.prototype.toFixed], [JSON.stringify], [JSON.parse] and property
    access.

    Conventions.
    - A JavaScript string is a [string]; every [ascii] stands for one code
      unit, so the model covers the strings whose code units are below 256.
    - The conversion of a value to a string, in a template literal and in
      [parseInt], throws on an object with an own [toString]; the handlers
      run it in the order of the source.
    - A JavaScript number is an IEEE 754 binary64 value, a [spec_float] of
      the Standard Library with precision 53 and maximal exponent 1024.
    - An object is an association list in property order. *)

From Stdlib Require Import ZArith List String Ascii Bool Lia.
From Stdlib Require Import Floats.SpecFloat.
Import ListNotations.

Local Open Scope string_scope.
Local Open Scope Z_scope.

(** ** Characters and decimal numerals *)

Module Chars.

Definition code (c : ascii) : Z := Z.of_N (N_of_ascii c).

Definition is_digit (c : ascii) : bool := (48 <=? code c) && (code c <=? 57).

Definition digit_val (c : ascii) : Z := code c - 48.

Definition digit_char (d : Z) : ascii := ascii_of_N (Z.to_N (48 + d)).

(** [0-9a-fA-F] and its value in radix 16. *)
Definition hex_val (c : ascii) : option Z :=
  let n := code c in
  if (48 <=? n) && (n <=? 57) then Some (n - 48)
  else if (97 <=? n) && (n <=? 102) then Some (n - 87)
  else if (65 <=? n) && (n <=? 70) then Some (n - 55)
  else None.

Definition is_hex (c : ascii) : bool :=
  match hex_val c with Some _ => true | None => false end.

(** The white space and line terminator code units below 256: TAB, LF, VT,
    FF, CR, SP and NBSP. *)
Definition is_space (c : ascii) : bool :=
  let n := code c in
  ((9 <=? n) && (n <=? 13)) || (n =? 32) || (n =? 160).

(** The digits of [n] from the left; [fuel] bounds the number of digits
    after the first one. *)
Fixpoint decimal_aux (fuel : nat) (n : Z) : string :=
  match fuel with
  | O => String (digit_char (n mod 10)) ""
  | S fuel' =>
      if n <? 10 then String (digit_char n) ""
      else decimal_aux fuel' (n / 10) ++ String (digit_char (n mod 10)) ""
  end.

(** The decimal numeral of a natural number, without leading zeros. *)
Definition decimal (n : Z) : string := decimal_aux (Z.to_nat (Z.log2 n)) n.

(** The value of a string of decimal digits, read from the left. *)
Fixpoint digits_val (acc : Z) (s : string) : Z :=
  match s with
  | EmptyString => acc
  | String c s' => digits_val (10 * acc + digit_val c) s'
  end.

(** The value of a string of hexadecimal digits, read from the left. *)
Fixpoint hex_digits_val (acc : Z) (s : string) : Z :=
  match s with
  | EmptyString => acc
  | String c s' =>
      match hex_val c with
      | Some d => hex_digits_val (16 * acc + d) s'
      | None => acc
      end
  end.

Fixpoint zeros (n : nat) : string :=
  match n with
  | O => ""
  | S n' => String "0" (zeros n')
  end.

Definition len (s : string) : Z := Z.of_nat (String.length s).

Fixpoint all_chars (p : ascii -> bool) (s : string) : bool :=
  match s with
  | EmptyString => true
  | String c s' => p c && all_chars p s'
  end.

(** [s.substring(n)] *)
Definition string_drop (n : nat) (s : string) : string :=
  substring n (String.length s - n) s.

End Chars.

(** ** Numbers: binary64 *)

Module Num.
Import Chars.

Definition number : Type := spec_float.

Definition NaN : number := S754_nan.
Definition Infinity : number := S754_infinity false.

Definition number_eqb (x y : number) : bool :=
  match x, y with
  | S754_nan, S754_nan => true
  | S754_zero a, S754_zero b => Bool.eqb a b
  | S754_infinity a, S754_infinity b => Bool.eqb a b
  | S754_finite a m e, S754_finite b m' e' =>
      Bool.eqb a b && Pos.eqb m m' && Z.eqb e e'
  | _, _ => false
  end.

(** [(p / q) / 2^e] as a fraction of integers. *)
Definition shift_pair (p q e : Z) : Z * Z :=
  if 0 <=? e then (p, q * 2 ^ e) else (p * 2 ^ (- e), q).

(** [floor (log2 (p / q))] for positive [p] and [q]. *)
Definition ilog2_ratio (p q : Z) : Z :=
  let E0 := Z.log2 p - Z.log2 q in
  let '(a, b) := shift_pair p q E0 in
  if b <=? a then E0 else E0 - 1.

(** [2^E <= p / q] *)
Definition le_pow2 (E p q : Z) : Prop :=
  let '(a, b) := shift_pair p q E in b <= a.

(** Rounding to nearest, ties to even, of the positive rational [p / q] to
    binary64 with sign [s]: the mantissa has at most 53 bits and the
    exponent of its last bit is at least -1074; a result of 2^1024 or more
    is an infinity. *)
Definition round_ratio (s : bool) (p q : Z) : number :=
  let E := ilog2_ratio p q in
  let e := Z.max (E - 52) (-1074) in
  let '(a, b) := shift_pair p q e in
  let m := a / b in
  let r := a mod b in
  let m1 := match 2 * r ?= b with
            | Lt => m
            | Gt => m + 1
            | Eq => if Z.even m then m else m + 1
            end in
  let '(m2, e2) := if m1 =? 2 ^ 53 then (2 ^ 52, e + 1) else (m1, e) in
  match m2 with
  | Zpos mp => if e2 <=? 971 then S754_finite s mp e2 else S754_infinity s
  | _ => S754_zero s
  end.

(** [x] with the sign [s]. *)
Definition with_sign (s : bool) (x : number) : number :=
  match x with
  | S754_zero _ => S754_zero s
  | S754_infinity _ => S754_infinity s
  | S754_nan => S754_nan
  | S754_finite _ m e => S754_finite s m e
  end.

(** The number nearest to [m * 10^j], for a natural number [m]. *)
Definition round10 (s : bool) (m j : Z) : number :=
  if m =? 0 then S754_zero s
  else if 0 <=? j then round_ratio s (m * 10 ^ j) 1
  else round_ratio s m (10 ^ (- j)).

(** The number nearest to the integer [z]; [neg] is the sign of a zero. *)
Definition of_Z (neg : bool) (z : Z) : number :=
  match z with
  | Z0 => S754_zero neg
  | Zpos _ => round_ratio false z 1
  | Zneg _ => round_ratio true (- z) 1
  end.

(** The mantissa of the binary64 value of a positive integer below 2^53,
    with its leading bit at position 52. *)
Definition small_mantissa (n : Z) : positive := Z.to_pos (n * 2 ^ (52 - Z.log2 n)).

(** The exact value [m * 2^e] written as [D / 10^f]. *)
Definition exact_decimal (m : positive) (e : Z) : Z * Z :=
  if 0 <=? e then (Zpos m * 2 ^ e, 0) else (Zpos m * 5 ^ (- e), - e).

(** [x / y] of two numbers. *)
Definition div (x y : number) : number :=
  match x, y with
  | S754_nan, _ | _, S754_nan => S754_nan
  | S754_infinity _, S754_infinity _ => S754_nan
  | S754_infinity sx, S754_finite sy _ _ => S754_infinity (xorb sx sy)
  | S754_finite sx _ _, S754_infinity sy => S754_zero (xorb sx sy)
  | S754_infinity sx, S754_zero sy => S754_infinity (xorb sx sy)
  | S754_zero sx, S754_infinity sy => S754_zero (xorb sx sy)
  | S754_finite sx _ _, S754_zero sy => S754_infinity (xorb sx sy)
  | S754_zero sx, S754_finite sy _ _ => S754_zero (xorb sx sy)
  | S754_zero _, S754_zero _ => S754_nan
  | S754_finite sx mx ex, S754_finite sy my ey =>
      let '(px, qx) := shift_pair (Zpos mx) 1 (- ex) in
      let '(py, qy) := shift_pair (Zpos my) 1 (- ey) in
      round_ratio (xorb sx sy) (px * qy) (qx * py)
  end.

(** One step of removing a trailing zero of the digits [s] of [s * 10^j]. *)
Definition norm10 (s j : Z) : Z * Z :=
  if s mod 10 =? 0 then (s / 10, j + 1) else (s, j).

(** Number::toString, the digits: the least number [k] of digits for which
    some [s] of [k] digits has [s * 10^(n-k)] round to [x], and among the
    two candidates next to [x] the closer one, the even one on a tie. [D] is
    the numerator of the exact value [D / 10^f] and has [L] digits. *)
Fixpoint shortest (fuel : nat) (k : Z) (D L f : Z) (x : number) : Z * Z :=
  match fuel with
  | O => (D, - f)
  | S fuel' =>
      let u := 10 ^ (L - k) in
      let lo := D / u in
      let j := L - k - f in
      let '(hi, jh) := norm10 (lo + 1) j in
      let ok_lo := number_eqb (round10 false lo j) x in
      let ok_hi := number_eqb (round10 false hi jh) x in
      let dl := D - lo * u in
      let dh := (lo + 1) * u - D in
      if ok_lo && ok_hi then
        if dl <? dh then (lo, j)
        else if dh <? dl then (hi, jh)
        else if Z.even lo then (lo, j) else (hi, jh)
      else if ok_lo then (lo, j)
      else if ok_hi then (hi, jh)
      else shortest fuel' (k + 1) D L f x
  end.

(** Number::toString, the layout of the digits [s] of [s * 10^j]. *)
Definition render (s j : Z) : string :=
  let ds := decimal s in
  let k := len ds in
  let n := k + j in
  if (k <=? n) && (n <=? 21) then ds ++ zeros (Z.to_nat (n - k))
  else if (0 <? n) && (n <=? 21) then
    substring 0 (Z.to_nat n) ds ++ "." ++ substring (Z.to_nat n) (Z.to_nat (k - n)) ds
  else if (-6 <? n) && (n <=? 0) then "0." ++ zeros (Z.to_nat (- n)) ++ ds
  else
    let ex := n - 1 in
    let es := (if ex <? 0 then "-" else "+") ++ decimal (Z.abs ex) in
    if k =? 1 then ds ++ "e" ++ es
    else substring 0 1 ds ++ "." ++ substring 1 (Z.to_nat (k - 1)) ds ++ "e" ++ es.

(** Number::toString(x) in radix 10. *)
Definition to_string (x : number) : string :=
  match x with
  | S754_nan => "NaN"
  | S754_zero _ => "0"
  | S754_infinity s => if s then "-Infinity" else "Infinity"
  | S754_finite s m e =>
      let '(D, f) := exact_decimal m e in
      let L := len (decimal D) in
      let '(d, j) := shortest (Z.to_nat L) 1 D L f (S754_finite false m e) in
      (if s then "-" else "") ++ render d j
  end.

(** The integer nearest to [m * 2^e * 10^4], the larger one on a tie. *)
Definition scaled4 (m : positive) (e : Z) : Z :=
  let '(a, b) := shift_pair (Zpos m * 10 ^ 4) 1 (- e) in
  (2 * a + b) / (2 * b).

(** [1e21 <= m * 2^e] *)
Definition ge_1e21 (m : positive) (e : Z) : bool :=
  let '(a, b) := shift_pair (Zpos m) 1 (- e) in
  10 ^ 21 * b <=? a.

(** Number.prototype.toFixed(4) *)
Definition toFixed4 (x : number) : string :=
  match x with
  | S754_nan => "NaN"
  | S754_infinity s => if s then "-Infinity" else "Infinity"
  | S754_zero _ => "0.0000"
  | S754_finite s m e =>
      if ge_1e21 m e then to_string x
      else
        let ds := decimal (scaled4 m e) in
        let ds := zeros (5 - String.length ds) ++ ds in
        let k := String.length ds in
        (if s then "-" else "") ++ substring 0 (k - 4) ds ++ "." ++ substring (k - 4) 4 ds
  end.

End Num.

(** ** Values, conversions and property access *)

Module JS.
Import Chars.

(** The values that [JSON.parse] produces, and [undefined]. *)
#[warnings="-register-all"] Inductive value : Type :=
| VUndef
| VNull
| VBool (b : bool)
| VNum (n : Num.number)
| VStr (s : string)
| VArr (l : list value)
| VObj (l : list (string * value)).

(** An [Error] object: the handlers read its [message] only. *)
Record error : Type := Error { name : string; message : string }.

Definition nl : string := String (ascii_of_nat 10) "".

Definition num (z : Z) : value := VNum (Num.of_Z false z).

(** Whether an object has the own property [k]. *)
Fixpoint has_own (k : string) (l : list (string * value)) : bool :=
  match l with
  | [] => false
  | (k', _) :: l' => String.eqb k k' || has_own k l'
  end.

(** The TypeError of the conversion of an object to a primitive value when
    neither its [toString] nor its [valueOf] gives one (the text is V8's). *)
Definition convert_error : error :=
  Error "TypeError" "Cannot convert object to primitive value".

(** ToString, as applied by a template literal and by [parseInt]; [inr] is
    the error it throws. An object that has no own [toString] is
    "[object Object]", by [Object.prototype.toString]; an own [toString] is
    a value of this type, so it is not callable, and then no method gives a
    primitive value ([Object.prototype.valueOf], or an own [valueOf], gives
    none either): a TypeError. An array is joined with commas, [null] and
    [undefined] elements giving the empty string, and the conversion of an
    element may throw. *)
Fixpoint to_string (v : value) : string + error :=
  match v with
  | VUndef => inl "undefined"
  | VNull => inl "null"
  | VBool b => inl (if b then "true" else "false")
  | VNum n => inl (Num.to_string n)
  | VStr s => inl s
  | VArr l =>
      (fix join (l : list value) : string + error :=
         match l with
         | [] => inl ""
         | x :: l' =>
             match match x with
                   | VUndef | VNull => inl ""
                   | _ => to_string x
                   end with
             | inr e => inr e
             | inl sx =>
                 match l' with
                 | [] => inl sx
                 | _ :: _ =>
                     match join l' with
                     | inr e => inr e
                     | inl rest => inl (sx ++ "," ++ rest)
                     end
                 end
             end
         end) l
  | VObj l => if has_own "toString" l then inr convert_error else inl "[object Object]"
  end.

(** ToBoolean *)
Definition to_boolean (v : value) : bool :=
  match v with
  | VUndef | VNull => false
  | VBool b => b
  | VNum (S754_zero _) | VNum S754_nan => false
  | VNum _ => true
  | VStr s => negb (String.eqb s "")
  | VArr _ | VObj _ => true
  end.

Fixpoint lookup (k : string) (l : list (string * value)) : value :=
  match l with
  | [] => VUndef
  | (k', v) :: l' => if String.eqb k k' then v else lookup k l'
  end.

(** The message of the TypeError of a property read on [null] or
    [undefined] (the text is V8's). *)
Definition read_error (v : value) (k : string) : error :=
  Error "TypeError"
    ("Cannot read properties of " ++ match v with VNull => "null" | _ => "undefined" end
     ++ " (reading '" ++ k ++ "')").

(** [v.k] for a property name [k] that is neither an index, nor [length],
    nor a property of a prototype: the own property of an object,
    [undefined] on any other value, a TypeError on [null] and
    [undefined]. *)
Definition get (v : value) (k : string) : value + error :=
  match v with
  | VUndef | VNull => inr (read_error v k)
  | VObj l => inl (lookup k l)
  | _ => inl VUndef
  end.

(** The value of the digit [c] in radix [r], the letters in either case. *)
Definition radix_val (r : Z) (c : ascii) : option Z :=
  let n := code c in
  let d := if (48 <=? n) && (n <=? 57) then n - 48
           else if (97 <=? n) && (n <=? 122) then n - 87
           else if (65 <=? n) && (n <=? 90) then n - 55
           else 36 in
  if d <? r then Some d else None.

Fixpoint trim_start (s : string) : string :=
  match s with
  | String c s' => if is_space c then trim_start s' else s
  | EmptyString => s
  end.

(** The value of the longest prefix of digits of radix [r] of [s], and
    whether that prefix is not empty. *)
Fixpoint radix_prefix (r : Z) (acc : Z) (seen : bool) (s : string) : Z * bool :=
  match s with
  | String c s' =>
      match radix_val r c with
      | Some d => radix_prefix r (r * acc + d) true s'
      | None => (acc, seen)
      end
  | EmptyString => (acc, seen)
  end.

(** [parseInt] on the string of its input, for a radix from 2 to 36. *)
Definition parse_int_string (inputString : string) (radix : Z) : Num.number :=
  let s := trim_start inputString in
  let '(neg, s) := match s with
                   | String "-" s' => (true, s')
                   | String "+" s' => (false, s')
                   | _ => (false, s)
                   end in
  let s := if radix =? 16 then
             match s with
             | String "0" (String "x" s') => s'
             | String "0" (String "X" s') => s'
             | _ => s
             end
           else s in
  let '(mathInt, seen) := radix_prefix radix 0 false s in
  if seen then Num.of_Z neg (if neg then - mathInt else mathInt) else Num.NaN.

(** [parseInt(input, radix)] for a radix from 2 to 36: it converts its
    input to a string first, and throws what the conversion throws. *)
Definition parseInt (input : value) (radix : Z) : Num.number + error :=
  match to_string input with
  | inr e => inr e
  | inl inputString => inl (parse_int_string inputString radix)
  end.

(** The strings in which [parseInt] in radix 16 finds no digit: after the
    white space in front, a sign and 0x or 0X, there is nothing or a
    character that is no hexadecimal digit. *)
Definition no_hex_digit (s : string) : bool :=
  let unsigned := match trim_start s with
                  | String "-" s' => s'
                  | String "+" s' => s'
                  | s' => s'
                  end in
  match match unsigned with
        | String "0" (String "x" s') => s'
        | String "0" (String "X" s') => s'
        | s' => s'
        end with
  | EmptyString => true
  | String c _ => negb (is_hex c)
  end.

(** A result that is not a hex string that can be parsed: it has a string
    ([null] has, "null"), and the string has no hexadecimal digit where
    [parseInt] looks for one. *)
Definition unparseable (v : value) : bool :=
  match to_string v with
  | inl s => no_hex_digit s
  | inr _ => false
  end.

(** The values that are no objects: the conversion of such a value to a
    string does not throw. The arguments that a schema of the tools lets
    through are of this kind. *)
Definition primitive (v : value) : bool :=
  match v with
  | VArr _ | VObj _ => false
  | _ => true
  end.

(** An argument object all of whose properties are primitive. *)
Definition primitive_values (args : list (string * value)) : bool :=
  forallb (fun kv => match kv with (_, x) => primitive x end) args.

End JS.

(** ** Effects: the requests sent, the lines written to stderr, exceptions *)

Module Eff.
Import JS.

Inductive event : Type :=
| Post (url : string) (body : value)
| ConsoleError (args : list string).

Definition trace : Type := list event.

Inductive outcome (A : Type) : Type :=
| Return (a : A)
| Throw (e : error).
Arguments Return {A} a.
Arguments Throw {A} e.

(** A computation extends the trace and returns or throws. *)
Definition M (A : Type) : Type := trace -> outcome A * trace.

Definition ret {A} (a : A) : M A := fun tr => (Return a, tr).

Definition throw {A} (e : error) : M A := fun tr => (Throw e, tr).

Definition bind {A B} (m : M A) (k : A -> M B) : M B :=
  fun tr => match m tr with
            | (Return a, tr') => k a tr'
            | (Throw e, tr') => (Throw e, tr')
            end.

(** [try { m } catch (error) { h error }] *)
Definition try_catch {A} (m : M A) (h : error -> M A) : M A :=
  fun tr => match m tr with
            | (Return a, tr') => (Return a, tr')
            | (Throw e, tr') => h e tr'
            end.

Definition emit (ev : event) : M unit := fun tr => (Return tt, (tr ++ [ev])%list).

Definition console_error (args : list string) : M unit := emit (ConsoleError args).

Definition lift {A} (r : A + error) : M A :=
  match r with
  | inl a => ret a
  | inr e => throw e
  end.

(** [v.k] *)
Definition prop (v : value) (k : string) : M value := lift (get v k).

(** [${v}] in a template literal *)
Definition str (v : value) : M string := lift (to_string v).

(** [parseInt(v, radix)] *)
Definition parse_int (v : value) (radix : Z) : M Num.number := lift (parseInt v radix).

(** What an HTTP POST comes to: the promise of [axios.post] rejects (no
    connection, a time-out, a status outside 2xx) or resolves to a response
    whose [data] is the parsed body. *)
Inductive http_result : Type :=
| Rejected (e : error)
| Resolved (data : value).

(** The endpoint: what a POST of [body] to [url] comes to. *)
Definition network : Type := string -> value -> http_result.

(** [(await axios.post(url, body)).data] *)
Definition axios_post (net : network) (url : string) (body : value) : M value :=
  fun tr => match net url body with
            | Rejected e => (Throw e, (tr ++ [Post url body])%list)
            | Resolved data => (Return data, (tr ++ [Post url body])%list)
            end.

Definition posts (tr : trace) : list (string * value) :=
  flat_map (fun ev => match ev with Post u b => [(u, b)] | _ => [] end) tr.

End Eff.

Declare Scope js_scope.
Delimit Scope js_scope with js.
Notation "x <- m ;; k" := (Eff.bind m (fun x => k))
  (at level 61, m at next level, right associativity) : js_scope.
Notation "m ;;; k" := (Eff.bind m (fun _ => k))
  (at level 61, right associativity) : js_scope.

(** ** JSON.stringify with an indentation of two spaces *)

Module JSON.
Import Chars JS.

Definition hex_digit (d : Z) : ascii :=
  if d <? 10 then ascii_of_N (Z.to_N (48 + d)) else ascii_of_N (Z.to_N (87 + d)).

Definition backslash : string := String (ascii_of_nat 92) "".

Definition dquote : string := String (ascii_of_nat 34) "".

(** QuoteJSONString, one code unit. *)
Definition quote_char (c : ascii) : string :=
  let n := code c in
  if n =? 8 then backslash ++ "b"
  else if n =? 9 then backslash ++ "t"
  else if n =? 10 then backslash ++ "n"
  else if n =? 12 then backslash ++ "f"
  else if n =? 13 then backslash ++ "r"
  else if n =? 34 then backslash ++ dquote
  else if n =? 92 then backslash ++ backslash
  else if n <? 32 then
    backslash ++ "u00" ++ String (hex_digit (n / 16)) (String (hex_digit (n mod 16)) "")
  else String c "".

Fixpoint quote_chars (s : string) : string :=
  match s with
  | EmptyString => ""
  | String c s' => quote_char c ++ quote_chars s'
  end.

Definition quote (s : string) : string := dquote ++ quote_chars s ++ dquote.

Definition gap : string := "  ".

(** [open + "\n" + indent + members.join(",\n" + indent) + "\n" + stepback
    + close], and [open + close] when there is no member. *)
Definition bracket (opening closing stepback : string) (members : list string) : string :=
  match members with
  | [] => opening ++ closing
  | _ :: _ =>
      let indent := stepback ++ gap in
      opening ++ nl ++ indent ++ String.concat ("," ++ nl ++ indent) members
        ++ nl ++ stepback ++ closing
  end.

(** SerializeJSONProperty at the indentation [indent]; [None] is
    [undefined]. An [undefined] element of an array is written [null], a
    property whose value is [undefined] is left out, and a number that is
    not finite is written [null]. *)
Fixpoint serialize (indent : string) (v : value) {struct v} : option string :=
  match v with
  | VUndef => None
  | VNull => Some "null"
  | VBool b => Some (if b then "true" else "false")
  | VNum n =>
      Some match n with
           | S754_nan | S754_infinity _ => "null"
           | _ => Num.to_string n
           end
  | VStr s => Some (quote s)
  | VArr l =>
      Some (bracket "[" "]" indent
              ((fix elements (l : list value) : list string :=
                  match l with
                  | [] => []
                  | x :: l' =>
                      match serialize (indent ++ gap) x with
                      | Some t => t
                      | None => "null"
                      end :: elements l'
                  end) l))
  | VObj l =>
      Some (bracket "{" "}" indent
              ((fix members (l : list (string * value)) : list string :=
                  match l with
                  | [] => []
                  | (k, x) :: l' =>
                      match serialize (indent ++ gap) x with
                      | Some t => (quote k ++ ": " ++ t) :: members l'
                      | None => members l'
                      end
                  end) l))
  end.

(** [JSON.stringify(v, null, 2)] *)
Definition stringify (v : value) : option string := serialize "" v.

(** *** JSON.parse *)

Definition is_ws (c : ascii) : bool :=
  let n := code c in
  (n =? 32) || (n =? 9) || (n =? 10) || (n =? 13).

Fixpoint skip_ws (s : string) : string :=
  match s with
  | String c s' => if is_ws c then skip_ws s' else s
  | EmptyString => s
  end.

(** The longest prefix of decimal digits, and the rest. *)
Fixpoint span_digits (s : string) : string * string :=
  match s with
  | String c s' =>
      if is_digit c then let '(d, r) := span_digits s' in (String c d, r)
      else ("", s)
  | EmptyString => ("", "")
  end.

Definition hex4 (a b c d : ascii) : option Z :=
  match hex_val a, hex_val b, hex_val c, hex_val d with
  | Some x, Some y, Some z, Some w => Some (((x * 16 + y) * 16 + z) * 16 + w)
  | _, _, _, _ => None
  end.

Definition cons_char (c : ascii) (r : option (string * string)) : option (string * string) :=
  match r with
  | Some (t, rest) => Some (String c t, rest)
  | None => None
  end.

(** The characters of a string literal after its opening quote, and what
    follows the closing quote. An escape [\uXXXX] of a code unit above 255
    is outside the model and fails. *)
Fixpoint parse_chars (s : string) : option (string * string) :=
  match s with
  | EmptyString => None
  | String c s' =>
      let n := code c in
      if n =? 34 then Some ("", s')
      else if n =? 92 then
        match s' with
        | String e s'' =>
            let m := code e in
            if (m =? 34) || (m =? 92) || (m =? 47) then cons_char e (parse_chars s'')
            else if m =? 98 then cons_char (ascii_of_nat 8) (parse_chars s'')
            else if m =? 102 then cons_char (ascii_of_nat 12) (parse_chars s'')
            else if m =? 110 then cons_char (ascii_of_nat 10) (parse_chars s'')
            else if m =? 114 then cons_char (ascii_of_nat 13) (parse_chars s'')
            else if m =? 116 then cons_char (ascii_of_nat 9) (parse_chars s'')
            else if m =? 117 then
              match s'' with
              | String h1 (String h2 (String h3 (String h4 r))) =>
                  match hex4 h1 h2 h3 h4 with
                  | Some u =>
                      if u <? 256 then cons_char (ascii_of_N (Z.to_N u)) (parse_chars r)
                      else None
                  | None => None
                  end
              | _ => None
              end
            else None
        | EmptyString => None
        end
      else if n <? 32 then None
      else cons_char c (parse_chars s')
  end.

(** The exponent part of a number, if any: its value and the rest. *)
Definition parse_exponent (s : string) : option (Z * string) :=
  match s with
  | String c s' =>
      if (code c =? 101) || (code c =? 69) then
        let '(neg, s'') := match s' with
                           | String c' t =>
                               if code c' =? 45 then (true, t)
                               else if code c' =? 43 then (false, t)
                               else (false, s')
                           | EmptyString => (false, s')
                           end in
        let '(d, r) := span_digits s'' in
        if String.eqb d "" then None
        else Some (if neg then - digits_val 0 d else digits_val 0 d, r)
      else Some (0, s)
  | EmptyString => Some (0, s)
  end.

(** The fraction part of a number, if any: its digits and the rest. *)
Definition parse_fraction (s : string) : option (string * string) :=
  match s with
  | String c s' =>
      if code c =? 46 then
        let '(d, r) := span_digits s' in
        if String.eqb d "" then None else Some (d, r)
      else Some ("", s)
  | EmptyString => Some ("", s)
  end.

(** An integer part of two digits or more that starts with 0. *)
Definition leading_zero (ip : string) : bool :=
  match ip with
  | String c (String _ _) => code c =? 48
  | _ => false
  end.

(** A number without its sign: an integer part without a leading zero
    (unless it is 0 alone), an optional fraction (a point and at least one
    digit) and an optional exponent (e or E, an optional sign and at least
    one digit); its value is rounded to the nearest binary64 value. *)
Definition parse_unsigned (neg : bool) (s : string) : option (Num.number * string) :=
  let '(ip, s2) := span_digits s in
  if String.eqb ip "" || leading_zero ip then None
  else
    match parse_fraction s2 with
    | None => None
    | Some (fp, s3) =>
        match parse_exponent s3 with
        | None => None
        | Some (x, s4) =>
            Some (Num.round10 neg (digits_val 0 (ip ++ fp)) (x - len fp), s4)
        end
    end.

(** A number: an optional minus sign and a number without sign. *)
Definition parse_number (s : string) : option (Num.number * string) :=
  match s with
  | String c t => if code c =? 45 then parse_unsigned true t else parse_unsigned false s
  | EmptyString => None
  end.

(** An array index: the canonical numeral of an integer below 2^32 - 1. *)
Definition array_index (k : string) : option Z :=
  let i := digits_val 0 k in
  if all_chars is_digit k && String.eqb k (decimal i) && (i <=? 4294967294)
  then Some i else None.

Fixpoint has_key (k : string) (l : list (string * value)) : bool :=
  match l with
  | [] => false
  | (k', _) :: l' => String.eqb k k' || has_key k l'
  end.

Fixpoint replace (k : string) (v : value) (l : list (string * value))
  : list (string * value) :=
  match l with
  | [] => []
  | (k', v') :: l' => if String.eqb k k' then (k', v) :: l' else (k', v') :: replace k v l'
  end.

Fixpoint insert_index (i : Z) (k : string) (v : value) (l : list (string * value))
  : list (string * value) :=
  match l with
  | [] => [(k, v)]
  | (k', v') :: l' =>
      match array_index k' with
      | Some i' => if i <? i' then (k, v) :: l else (k', v') :: insert_index i k v l'
      | None => (k, v) :: l
      end
  end.

(** CreateDataProperty on an object in property order: the array indices
    come first, in ascending order, then the other names in the order of
    their creation; a name that exists keeps its place. *)
Definition define_property (l : list (string * value)) (kv : string * value)
  : list (string * value) :=
  let '(k, v) := kv in
  if has_key k l then replace k v l
  else match array_index k with
       | Some i => insert_index i k v l
       | None => (l ++ [(k, v)])%list
       end.

Fixpoint parse_value (fuel : nat) (s : string) {struct fuel} : option (value * string) :=
  match fuel with
  | O => None
  | S fuel' =>
      match skip_ws s with
      | String "n" (String "u" (String "l" (String "l" r))) => Some (VNull, r)
      | String "t" (String "r" (String "u" (String "e" r))) => Some (VBool true, r)
      | String "f" (String "a" (String "l" (String "s" (String "e" r)))) =>
          Some (VBool false, r)
      | String "[" r =>
          match skip_ws r with
          | String "]" r' => Some (VArr [], r')
          | r0 =>
              match parse_elements fuel' r0 with
              | Some (l, r') => Some (VArr l, r')
              | None => None
              end
          end
      | String "{" r =>
          match skip_ws r with
          | String "}" r' => Some (VObj [], r')
          | r0 =>
              match parse_members fuel' r0 with
              | Some (l, r') => Some (VObj (fold_left define_property l []), r')
              | None => None
              end
          end
      | String c r as s0 =>
          if code c =? 34 then
            match parse_chars r with
            | Some (t, r') => Some (VStr t, r')
            | None => None
            end
          else
            match parse_number s0 with
            | Some (x, r') => Some (VNum x, r')
            | None => None
            end
      | EmptyString => None
      end
  end

with parse_elements (fuel : nat) (s : string) {struct fuel}
  : option (list value * string) :=
  match fuel with
  | O => None
  | S fuel' =>
      match parse_value fuel' s with
      | Some (v, r) =>
          match skip_ws r with
          | String "," r' =>
              match parse_elements fuel' r' with
              | Some (l, r'') => Some (v :: l, r'')
              | None => None
              end
          | String "]" r' => Some ([v], r')
          | _ => None
          end
      | None => None
      end
  end

with parse_members (fuel : nat) (s : string) {struct fuel}
  : option (list (string * value) * string) :=
  match fuel with
  | O => None
  | S fuel' =>
      match skip_ws s with
      | String q r =>
          if code q =? 34 then
            match parse_chars r with
            | Some (k, r1) =>
                match skip_ws r1 with
                | String ":" r2 =>
                    match parse_value fuel' r2 with
                    | Some (v, r3) =>
                        match skip_ws r3 with
                        | String "," r4 =>
                            match parse_members fuel' r4 with
                            | Some (l, r5) => Some ((k, v) :: l, r5)
                            | None => None
                            end
                        | String "}" r4 => Some ([(k, v)], r4)
                        | _ => None
                        end
                    | None => None
                    end
                | _ => None
                end
            | None => None
            end
          else None
      | EmptyString => None
      end
  end.

(** The keys of an object in property order: no key occurs twice, an
    array index is followed by larger array indices and by other names,
    another name by no array index. *)
Fixpoint keys_ordered (ks : list string) : bool :=
  match ks with
  | [] => true
  | k :: ks' =>
      negb (existsb (String.eqb k) ks')
      && forallb (fun k' => match array_index k, array_index k' with
                            | Some i, Some i' => i <? i'
                            | None, Some _ => false
                            | _, None => true
                            end) ks'
      && keys_ordered ks'
  end.

(** The values that come back from their JSON text: no [undefined], every
    number a finite binary64 value other than -0, every object in property
    order. *)
Fixpoint plain (v : value) : bool :=
  match v with
  | VUndef => false
  | VNull | VBool _ | VStr _ => true
  | VNum (S754_zero s) => negb s
  | VNum (S754_finite _ m e) => bounded 53 1024 m e
  | VNum _ => false
  | VArr l => forallb plain l
  | VObj l =>
      keys_ordered (map fst l)
      && forallb (fun kv => match kv with (_, x) => plain x end) l
  end.

(** The values that [JSON.parse] makes: no [undefined], every number a
    value of binary64 other than NaN, every object in property order. *)
Fixpoint parsed (v : value) : bool :=
  match v with
  | VUndef => false
  | VNull | VBool _ | VStr _ => true
  | VNum S754_nan => false
  | VNum n => valid_binary 53 1024 n
  | VArr l => forallb parsed l
  | VObj l =>
      keys_ordered (map fst l)
      && forallb (fun kv => match kv with (_, x) => parsed x end) l
  end.

(** The values without [undefined] in which every number is finite and is
    not -0. *)
Fixpoint ordinary (v : value) : bool :=
  match v with
  | VUndef => false
  | VNull | VBool _ | VStr _ => true
  | VNum (S754_zero s) => negb s
  | VNum (S754_finite _ _ _) => true
  | VNum _ => false
  | VArr l => forallb ordinary l
  | VObj l => forallb (fun kv => match kv with (_, x) => ordinary x end) l
  end.

(** What [JSON.stringify] keeps of a value: a number that is not finite
    becomes [null], and -0 becomes 0. *)
Fixpoint written (v : value) : value :=
  match v with
  | VNum (S754_zero _) => VNum (S754_zero false)
  | VNum (S754_finite _ _ _) => v
  | VNum _ => VNull
  | VArr l => VArr (map written l)
  | VObj l => VObj (map (fun kv => match kv with (k, x) => (k, written x) end) l)
  | _ => v
  end.

(** The texts of the elements of an array and of the members of an object,
    at the indentation [indent]. *)
Definition elements (indent : string) (l : list value) : list string :=
  map (fun x => match serialize indent x with Some t => t | None => "null" end) l.

Fixpoint members (indent : string) (l : list (string * value)) : list string :=
  match l with
  | [] => []
  | (k, x) :: l' =>
      match serialize indent x with
      | Some t => (quote k ++ ": " ++ t) :: members indent l'
      | None => members indent l'
      end
  end.

Definition spaces (s : string) : bool := all_chars (fun c => code c =? 32) s.

Definition no_space_head (s : string) : bool :=
  match s with
  | EmptyString => true
  | String c _ => negb (is_ws c)
  end.

(** A value starts with a character that is no white space and closes
    nothing. *)
Definition value_start (s : string) : bool :=
  match s with
  | EmptyString => false
  | String c _ => negb (is_ws c) && negb (code c =? 93) && negb (code c =? 125)
  end.

(** [",\n" + indent] *)
Definition separator (indent : string) : string := "," ++ nl ++ indent.

(** What may follow the text of a value: nothing, a comma or a line feed. *)
Definition stops (rest : string) : bool :=
  match rest with
  | EmptyString => true
  | String c _ => (code c =? 44) || (code c =? 10)
  end.

(** What may follow a number: nothing, or a character that is neither a
    digit nor a point nor an exponent mark. *)
Definition ends_number (rest : string) : bool :=
  match rest with
  | EmptyString => true
  | String c _ =>
      negb (is_digit c) && negb (code c =? 46) && negb (code c =? 101)
      && negb (code c =? 69)
  end.

(** [JSON.parse(text)]; [None] is a SyntaxError. *)
Definition parse (text : string) : option value :=
  match parse_value (S (String.length text)) text with
  | Some (v, r) => match skip_ws r with
                   | EmptyString => Some v
                   | _ => None
                   end
  | None => None
  end.


(** The text of [v] at any indentation, followed by [rest], is read back as
    [v] and [rest], with fuel for its length. *)
Definition reads_back (v : value) : Prop :=
  forall indent rest fuel t,
    spaces indent = true -> stops rest = true ->
    serialize indent v = Some t ->
    (String.length t <= fuel)%nat ->
    parse_value fuel (t ++ rest) = Some (v, rest) /\ value_start t = true.

End JSON.

(** ** The RPC client *)

Module Rpc.
Import JS Eff.
Local Open Scope js_scope.

Definition DEFAULT_RPC_URL : string := "https://api-testnet.shardeum.org/".

(** The envelope [{ jsonrpc: "2.0", id: 1, method, params }]. *)
Definition envelope (method : string) (params : list value) : value :=
  VObj [("jsonrpc", VStr "2.0"); ("id", num 1); ("method", VStr method);
        ("params", VArr params)].

Section Client.
Variable net : network.

(** [makeRpcCall(method, params, rpcUrl)] *)
Definition makeRpcCall (method : string) (params : list value) (rpcUrl : string)
  : M value :=
  try_catch
    (data <- axios_post net rpcUrl (envelope method params) ;;
     err <- prop data "error" ;;
     if to_boolean err then
       msg <- prop err "message" ;;
       m <- str msg ;;
       throw (Error "Error" ("RPC Error: " ++ m))
     else prop data "result")
    (fun error =>
       console_error ["Error making RPC call to " ++ method ++ ":"; message error] ;;;
       throw error).
End Client.

(** What a call comes to, as a function of what the POST comes to. *)
Definition rpc_result (r : http_result) : value + error :=
  match r with
  | Rejected e => inr e
  | Resolved data =>
      match get data "error" with
      | inr e => inr e
      | inl err =>
          if to_boolean err then
            match get err "message" with
            | inr e => inr e
            | inl msg =>
                match to_string msg with
                | inr e => inr e
                | inl m => inr (Error "Error" ("RPC Error: " ++ m))
                end
            end
          else get data "result"
      end
  end.

(** An endpoint that answers every request with the body [data]. *)
Definition mock (data : value) : network := fun _ _ => Resolved data.

(** The bodies [{ jsonrpc, id, result }] and [{ jsonrpc, id, error }]. *)
Definition result_body (result : value) : value :=
  VObj [("jsonrpc", VStr "2.0"); ("id", num 1); ("result", result)].

Definition error_body (code : Z) (msg : string) : value :=
  VObj [("jsonrpc", VStr "2.0"); ("id", num 1);
        ("error", VObj [("code", num code); ("message", VStr msg)])].

(** The text of the body [{ jsonrpc, id, result }] for the text [result]
    of a result. *)
Definition result_text (result : string) : string :=
  "{" ++ JSON.quote "jsonrpc" ++ ":" ++ JSON.quote "2.0" ++ ","
      ++ JSON.quote "id" ++ ":1," ++ JSON.quote "result" ++ ":" ++ result ++ "}".

End Rpc.

(** ** Parameter schemas (zod) *)

Module Zod.
Import Chars JS.

(** The regular expressions of the schemas: [/^0x[a-fA-F0-9]{n}$/] and
    [/^0x[a-fA-F0-9]+$/]. *)
Inductive regex : Type :=
| HexExactly (n : nat)
| HexSome.

Definition test (r : regex) (s : string) : bool :=
  match s with
  | String "0" (String "x" body) =>
      all_chars is_hex body &&
      match r with
      | HexExactly n => Nat.eqb (String.length body) n
      | HexSome => negb (Nat.eqb (String.length body) 0)
      end
  | _ => false
  end.

(** An address that is not 0x and forty hexadecimal digits: a wrong length,
    no 0x in front, or a character after it that is no hexadecimal digit. *)
Definition malformed (s : string) : Prop :=
  String.length s <> 42%nat \/ prefix "0x" s = false \/
  all_chars is_hex (string_drop 2 s) = false.

(** [z.string()], [z.string().regex(r)], [z.boolean()], [z.number()],
    [t.optional()] and [t.default(d)]; [describe] only documents. *)
Inductive schema : Type :=
| ZString
| ZRegex (r : regex)
| ZBoolean
| ZNumber
| ZOptional (t : schema)
| ZDefault (t : schema) (d : value).

(** The outcome of parsing one value; a missing property is [VUndef]. *)
Fixpoint parse (t : schema) (v : value) : option value :=
  match t with
  | ZString => match v with VStr _ => Some v | _ => None end
  | ZRegex r => match v with
                | VStr s => if test r s then Some v else None
                | _ => None
                end
  | ZBoolean => match v with VBool _ => Some v | _ => None end
  | ZNumber => match v with
               | VNum S754_nan => None
               | VNum _ => Some v
               | _ => None
               end
  | ZOptional t' => match v with VUndef => Some VUndef | _ => parse t' v end
  | ZDefault t' d => match v with VUndef => parse t' d | _ => parse t' v end
  end.

(** A raw shape: the fields of an object schema, in order. *)
Definition shape : Type := list (string * schema).

(** Parsing an argument mapping against a shape: the first field that
    fails is reported; unknown properties are dropped, and a field whose
    parsed value is [undefined] is left out. *)
Fixpoint parse_object (sh : shape) (input : list (string * value))
  : list (string * value) + string :=
  match sh with
  | [] => inl []
  | (k, t) :: sh' =>
      match parse t (lookup k input) with
      | None => inr k
      | Some v =>
          match parse_object sh' input with
          | inr k' => inr k'
          | inl rest => inl match v with
                            | VUndef => rest
                            | _ => (k, v) :: rest
                            end
          end
      end
  end.

End Zod.

(** ** The tools *)

Module Tools.
Import JS Eff Rpc Zod.
Local Open Scope js_scope.

(** One item of the [content] of a result; [text] is [None] when the
    handler stores [undefined] there. *)
Record content_item : Type := { type : string; text : option string }.

(** The result of a handler; a result without [isError] has it [false]. *)
Record tool_result : Type := { content : list content_item; isError : bool }.

Definition success (t : option string) : tool_result :=
  {| content := [ {| type := "text"; text := t |} ]; isError := false |}.

Definition failure (t : string) : tool_result :=
  {| content := [ {| type := "text"; text := Some t |} ]; isError := true |}.

(** What [server.tool(name, description, paramsSchema, callback)]
    registers. *)
Record ToolDescriptor : Type := {
  tool_name : string;
  description : string;
  paramsSchema : shape;
  callback : value -> M tool_result
}.

Definition address_re : schema := ZRegex (HexExactly 40).
Definition hash_re : schema := ZRegex (HexExactly 64).
Definition quantity_re : schema := ZRegex HexSome.

Definition wei_per_eth : Num.number := Num.of_Z false (10 ^ 18).

Section Handlers.
Variable net : network.
Variable rpcUrl : string.

Definition eth_getBalance (args : value) : M tool_result :=
  try_catch
    (address <- prop args "address" ;;
     a <- str address ;;
     blockParameter <- prop args "blockParameter" ;;
     b <- str blockParameter ;;
     console_error ["Getting balance for address: " ++ a ++ " at block: " ++ b] ;;;
     balance <- makeRpcCall net "eth_getBalance" [address; blockParameter] rpcUrl ;;
     balanceWei <- parse_int balance 16 ;;
     let balanceEth := Num.div balanceWei wei_per_eth in
     a <- str address ;;
     b <- str blockParameter ;;
     ret (success (Some ("Balance for " ++ a ++ " at block " ++ b ++ ":" ++ nl
                         ++ "- Wei: " ++ Num.to_string balanceWei ++ nl
                         ++ "- ETH: " ++ Num.toFixed4 balanceEth))))
    (fun error => ret (failure ("Error: Failed to get balance. " ++ message error))).

Definition eth_blockNumber (_ : value) : M tool_result :=
  try_catch
    (console_error ["Getting current block number"] ;;;
     blockNumber <- makeRpcCall net "eth_blockNumber" [] rpcUrl ;;
     blockNumberDecimal <- parse_int blockNumber 16 ;;
     r <- str blockNumber ;;
     ret (success (Some ("Current Block Number: " ++ Num.to_string blockNumberDecimal
                         ++ " (" ++ r ++ ")"))))
    (fun error => ret (failure ("Error: Failed to get block number. " ++ message error))).

Definition eth_getTransactionCount (args : value) : M tool_result :=
  try_catch
    (address <- prop args "address" ;;
     a <- str address ;;
     console_error ["Getting transaction count for address: " ++ a] ;;;
     blockParameter <- prop args "blockParameter" ;;
     txCount <- makeRpcCall net "eth_getTransactionCount" [address; blockParameter] rpcUrl ;;
     txCountDecimal <- parse_int txCount 16 ;;
     a <- str address ;;
     b <- str blockParameter ;;
     r <- str txCount ;;
     ret (success (Some ("Transaction Count for " ++ a ++ " at " ++ b ++ " block: "
                         ++ Num.to_string txCountDecimal ++ " (" ++ r ++ ")"))))
    (fun error =>
       ret (failure ("Error: Failed to get transaction count. " ++ message error))).

Definition eth_getBlockTransactionCountByHash (args : value) : M tool_result :=
  try_catch
    (blockHash <- prop args "blockHash" ;;
     h <- str blockHash ;;
     console_error ["Getting transaction count for block hash: " ++ h] ;;;
     txCount <- makeRpcCall net "eth_getBlockTransactionCountByHash" [blockHash] rpcUrl ;;
     txCountDecimal <- parse_int txCount 16 ;;
     h <- str blockHash ;;
     r <- str txCount ;;
     ret (success (Some ("Transaction Count for Block Hash " ++ h ++ ": "
                         ++ Num.to_string txCountDecimal ++ " (" ++ r ++ ")"))))
    (fun error =>
       ret (failure ("Error: Failed to get block transaction count. " ++ message error))).

Definition eth_getBlockTransactionCountByNumber (args : value) : M tool_result :=
  try_catch
    (blockNumber <- prop args "blockNumber" ;;
     n <- str blockNumber ;;
     console_error ["Getting transaction count for block number: " ++ n] ;;;
     txCount <- makeRpcCall net "eth_getBlockTransactionCountByNumber" [blockNumber] rpcUrl ;;
     txCountDecimal <- parse_int txCount 16 ;;
     n <- str blockNumber ;;
     r <- str txCount ;;
     ret (success (Some ("Transaction Count for Block Number " ++ n ++ ": "
                         ++ Num.to_string txCountDecimal ++ " (" ++ r ++ ")"))))
    (fun error =>
       ret (failure ("Error: Failed to get block transaction count. " ++ message error))).

(** [if (args.k) params.k = args.k] *)
Definition copy_if_set (args : value) (k : string) (params : list (string * value))
  : M (list (string * value)) :=
  v <- prop args k ;;
  ret (if to_boolean v then (params ++ [(k, v)])%list else params).

Definition eth_estimateGas (args : value) : M tool_result :=
  try_catch
    (console_error ["Estimating gas for transaction"] ;;;
     params <- copy_if_set args "from" [] ;;
     params <- copy_if_set args "to" params ;;
     params <- copy_if_set args "value" params ;;
     params <- copy_if_set args "data" params ;;
     gasEstimate <- makeRpcCall net "eth_estimateGas" [VObj params] rpcUrl ;;
     gasEstimateDecimal <- parse_int gasEstimate 16 ;;
     r <- str gasEstimate ;;
     ret (success (Some ("Estimated Gas Required: " ++ Num.to_string gasEstimateDecimal
                         ++ " (" ++ r ++ ")"))))
    (fun error => ret (failure ("Error: Failed to estimate gas. " ++ message error))).

Definition eth_getBlockByHash (args : value) : M tool_result :=
  try_catch
    (blockHash <- prop args "blockHash" ;;
     h <- str blockHash ;;
     console_error ["Getting block details for hash: " ++ h] ;;;
     fullTransactions <- prop args "fullTransactions" ;;
     blockData <- makeRpcCall net "eth_getBlockByHash" [blockHash; fullTransactions] rpcUrl ;;
     ret (success (JSON.stringify blockData)))
    (fun error => ret (failure ("Error: Failed to get block by hash. " ++ message error))).

Definition eth_getBlockByNumber (args : value) : M tool_result :=
  try_catch
    (blockNumber <- prop args "blockNumber" ;;
     n <- str blockNumber ;;
     console_error ["Getting block details for number: " ++ n] ;;;
     fullTransactions <- prop args "fullTransactions" ;;
     blockData <- makeRpcCall net "eth_getBlockByNumber" [blockNumber; fullTransactions]
                    rpcUrl ;;
     ret (success (JSON.stringify blockData)))
    (fun error => ret (failure ("Error: Failed to get block by number. " ++ message error))).

Definition eth_getBlockReceipts (args : value) : M tool_result :=
  try_catch
    (blockNumberOrHash <- prop args "blockNumberOrHash" ;;
     b <- str blockNumberOrHash ;;
     console_error ["Getting block receipts for: " ++ b] ;;;
     receipts <- makeRpcCall net "eth_getBlockReceipts" [blockNumberOrHash] rpcUrl ;;
     ret (success (JSON.stringify receipts)))
    (fun error => ret (failure ("Error: Failed to get block receipts. " ++ message error))).

Definition eth_getTransactionByHash (args : value) : M tool_result :=
  try_catch
    (txHash <- prop args "txHash" ;;
     h <- str txHash ;;
     console_error ["Getting transaction details for hash: " ++ h] ;;;
     txData <- makeRpcCall net "eth_getTransactionByHash" [txHash] rpcUrl ;;
     ret (success (JSON.stringify txData)))
    (fun error =>
       ret (failure ("Error: Failed to get transaction by hash. " ++ message error))).

Definition eth_getTransactionByBlockHashAndIndex (args : value) : M tool_result :=
  try_catch
    (console_error ["Getting transaction details for block hash and index"] ;;;
     blockHash <- prop args "blockHash" ;;
     transactionIndex <- prop args "transactionIndex" ;;
     txData <- makeRpcCall net "eth_getTransactionByBlockHashAndIndex"
                 [blockHash; transactionIndex] rpcUrl ;;
     ret (success (JSON.stringify txData)))
    (fun error =>
       ret (failure ("Error: Failed to get transaction by block hash and index. "
                     ++ message error))).

Definition eth_getTransactionByBlockNumberAndIndex (args : value) : M tool_result :=
  try_catch
    (console_error ["Getting transaction details for block number and index"] ;;;
     blockNumber <- prop args "blockNumber" ;;
     transactionIndex <- prop args "transactionIndex" ;;
     txData <- makeRpcCall net "eth_getTransactionByBlockNumberAndIndex"
                 [blockNumber; transactionIndex] rpcUrl ;;
     ret (success (JSON.stringify txData)))
    (fun error =>
       ret (failure ("Error: Failed to get transaction by block number and index. "
                     ++ message error))).

Definition eth_getTransactionReceipt (args : value) : M tool_result :=
  try_catch
    (txHash <- prop args "txHash" ;;
     h <- str txHash ;;
     console_error ["Getting transaction receipt for hash: " ++ h] ;;;
     receiptData <- makeRpcCall net "eth_getTransactionReceipt" [txHash] rpcUrl ;;
     ret (success (JSON.stringify receiptData)))
    (fun error =>
       ret (failure ("Error: Failed to get transaction receipt. " ++ message error))).

Definition eth_chainId (_ : value) : M tool_result :=
  try_catch
    (console_error ["Getting chain ID"] ;;;
     chainId <- makeRpcCall net "eth_chainId" [] rpcUrl ;;
     chainIdDecimal <- parse_int chainId 16 ;;
     r <- str chainId ;;
     ret (success (Some ("Chain ID: " ++ Num.to_string chainIdDecimal
                         ++ " (" ++ r ++ ")"))))
    (fun error => ret (failure ("Error: Failed to get chain ID. " ++ message error))).

Definition shardeum_getNodeList (args : value) : M tool_result :=
  try_catch
    (console_error ["Getting Shardeum node list"] ;;;
     page <- prop args "page" ;;
     limit <- prop args "limit" ;;
     nodeList <- makeRpcCall net "shardeum_getNodeList"
                   [VObj [("page", page); ("limit", limit)]] rpcUrl ;;
     ret (success (JSON.stringify nodeList)))
    (fun error => ret (failure ("Error: Failed to get node list. " ++ message error))).

Definition shardeum_getNetworkAccount (_ : value) : M tool_result :=
  try_catch
    (console_error ["Getting Shardeum network account information"] ;;;
     networkAccount <- makeRpcCall net "shardeum_getNetworkAccount" [] rpcUrl ;;
     ret (success (JSON.stringify networkAccount)))
    (fun error =>
       ret (failure ("Error: Failed to get network account. " ++ message error))).

Definition shardeum_getCycleInfo (args : value) : M tool_result :=
  try_catch
    (console_error ["Getting Shardeum cycle information"] ;;;
     cycleNumber <- prop args "cycleNumber" ;;
     cycleInfo <- makeRpcCall net "shardeum_getCycleInfo"
                    match cycleNumber with
                    | VUndef => []
                    | _ => [cycleNumber]
                    end rpcUrl ;;
     ret (success (JSON.stringify cycleInfo)))
    (fun error =>
       ret (failure ("Error: Failed to get cycle information. " ++ message error))).
End Handlers.

(** [registerTools(server, rpcUrl)]: the registrations, in order. *)
Definition registerTools (net : network) (rpcUrl : string) : list ToolDescriptor :=
  [ {| tool_name := "eth_getBalance";
       description := "Retrieves the native token balance of an Ethereum address";
       paramsSchema := [("address", address_re);
                        ("blockParameter", ZDefault (ZOptional ZString) (VStr "latest"))];
       callback := eth_getBalance net rpcUrl |};
    {| tool_name := "eth_blockNumber";
       description := "Retrieves the current block number of the blockchain";
       paramsSchema := [];
       callback := eth_blockNumber net rpcUrl |};
    {| tool_name := "eth_getTransactionCount";
       description := "Retrieves the number of transactions sent from an address";
       paramsSchema := [("address", address_re);
                        ("blockParameter", ZDefault ZString (VStr "latest"))];
       callback := eth_getTransactionCount net rpcUrl |};
    {| tool_name := "eth_getBlockTransactionCountByHash";
       description := "Get the number of transactions in a block by block hash";
       paramsSchema := [("blockHash", hash_re)];
       callback := eth_getBlockTransactionCountByHash net rpcUrl |};
    {| tool_name := "eth_getBlockTransactionCountByNumber";
       description := "Get the number of transactions in a block by block number";
       paramsSchema := [("blockNumber", quantity_re)];
       callback := eth_getBlockTransactionCountByNumber net rpcUrl |};
    {| tool_name := "eth_estimateGas";
       description := "Estimate the gas required for a transaction";
       paramsSchema := [("from", ZOptional address_re); ("to", ZOptional address_re);
                        ("value", ZOptional ZString); ("data", ZOptional ZString)];
       callback := eth_estimateGas net rpcUrl |};
    {| tool_name := "eth_getBlockByHash";
       description := "Get block details by block hash";
       paramsSchema := [("blockHash", hash_re);
                        ("fullTransactions", ZDefault ZBoolean (VBool false))];
       callback := eth_getBlockByHash net rpcUrl |};
    {| tool_name := "eth_getBlockByNumber";
       description := "Get block details by block number";
       paramsSchema := [("blockNumber", quantity_re);
                        ("fullTransactions", ZDefault ZBoolean (VBool false))];
       callback := eth_getBlockByNumber net rpcUrl |};
    {| tool_name := "eth_getBlockReceipts";
       description := "Get receipts for all transactions in a block";
       paramsSchema := [("blockNumberOrHash", ZString)];
       callback := eth_getBlockReceipts net rpcUrl |};
    {| tool_name := "eth_getTransactionByHash";
       description := "Get transaction details by transaction hash";
       paramsSchema := [("txHash", hash_re)];
       callback := eth_getTransactionByHash net rpcUrl |};
    {| tool_name := "eth_getTransactionByBlockHashAndIndex";
       description := "Get transaction details by block hash and transaction index";
       paramsSchema := [("blockHash", hash_re); ("transactionIndex", quantity_re)];
       callback := eth_getTransactionByBlockHashAndIndex net rpcUrl |};
    {| tool_name := "eth_getTransactionByBlockNumberAndIndex";
       description := "Get transaction details by block number and transaction index";
       paramsSchema := [("blockNumber", quantity_re); ("transactionIndex", quantity_re)];
       callback := eth_getTransactionByBlockNumberAndIndex net rpcUrl |};
    {| tool_name := "eth_getTransactionReceipt";
       description := "Get transaction receipt by transaction hash";
       paramsSchema := [("txHash", hash_re)];
       callback := eth_getTransactionReceipt net rpcUrl |};
    {| tool_name := "eth_chainId";
       description := "Get the chain ID of the current network";
       paramsSchema := [];
       callback := eth_chainId net rpcUrl |};
    {| tool_name := "shardeum_getNodeList";
       description := "Get a list of Shardeum network nodes";
       paramsSchema := [("page", ZDefault (ZOptional ZNumber) (num 1));
                        ("limit", ZDefault (ZOptional ZNumber) (num 100))];
       callback := shardeum_getNodeList net rpcUrl |};
    {| tool_name := "shardeum_getNetworkAccount";
       description := "Get detailed information about the Shardeum network account";
       paramsSchema := [];
       callback := shardeum_getNetworkAccount net rpcUrl |};
    {| tool_name := "shardeum_getCycleInfo";
       description := "Get information about the current or a specific Shardeum network cycle";
       paramsSchema := [("cycleNumber", ZOptional ZNumber)];
       callback := shardeum_getCycleInfo net rpcUrl |} ].

(** Modelled from the spec: the tool invocation layer, [server.tool] of the
    MCP SDK, is not in the sources. As the spec has it, a call validates the
    argument mapping against the declared schema, then runs the handler on
    the validated arguments; a validation failure is returned as a failure
    report that carries the message and is flagged as an error, and nothing
    is raised to the caller. *)
Definition invoke (d : ToolDescriptor) (arguments : list (string * value))
  : M tool_result :=
  match parse_object (paramsSchema d) arguments with
  | inr field =>
      ret (failure ("Invalid arguments for tool " ++ tool_name d ++ ": " ++ field))
  | inl args => callback d (VObj args)
  end.

(** The registration of the tool called [name]. *)
Definition get_tool (net : network) (rpcUrl : string) (name : string) : ToolDescriptor :=
  match find (fun d => String.eqb (tool_name d) name) (registerTools net rpcUrl) with
  | Some d => d
  | None => {| tool_name := name; description := ""; paramsSchema := [];
               callback := fun _ => throw (Error "Error" "Tool not found") |}
  end.

(** An address and an endpoint URL to run the tools on. *)
Definition sample_address : string := "0x0123456789abcdefABCDEF0123456789abcdef01".

Definition sample_url : string := "http://localhost:8080/".

Definition sample_hash : string :=
  "0x00000000000000000000000000000000000000000000000000000000000000ff".

(** A block, and a JSON text of it. *)
Definition sample_block : value :=
  VObj [("number", VStr "0x10"); ("size", num 1024); ("transactions", VArr [])].

Definition sample_block_text : string :=
  "{" ++ JSON.quote "number" ++ ":" ++ JSON.quote "0x10" ++ ","
      ++ JSON.quote "size" ++ ":1024," ++ JSON.quote "transactions" ++ ":[]}".

(** The tools whose result is a hex quantity, by name. *)
Definition quantity_tools : list string :=
  ["eth_blockNumber"; "eth_chainId"; "eth_getTransactionCount";
   "eth_getBlockTransactionCountByHash"; "eth_getBlockTransactionCountByNumber";
   "eth_estimateGas"].

(** The tools whose result is written as JSON text, by name. *)
Definition structured_tools : list string :=
  ["eth_getBlockByHash"; "eth_getBlockByNumber"; "eth_getBlockReceipts";
   "eth_getTransactionByHash"; "eth_getTransactionByBlockHashAndIndex";
   "eth_getTransactionByBlockNumberAndIndex"; "eth_getTransactionReceipt";
   "shardeum_getNodeList"; "shardeum_getNetworkAccount"; "shardeum_getCycleInfo"].

(** The tools that pass the values of the fields of their schema, in the
    order of the schema. *)
Definition positional_tools : list string :=
  ["eth_getBalance"; "eth_blockNumber"; "eth_getTransactionCount";
   "eth_getBlockTransactionCountByHash"; "eth_getBlockTransactionCountByNumber";
   "eth_getBlockByHash"; "eth_getBlockByNumber"; "eth_getBlockReceipts";
   "eth_getTransactionByHash"; "eth_getTransactionByBlockHashAndIndex";
   "eth_getTransactionByBlockNumberAndIndex"; "eth_getTransactionReceipt";
   "eth_chainId"; "shardeum_getNetworkAccount"].

End Tools.

(** ** The prompts ([prompts.js]) *)

Module Prompts.
Import JS Zod Tools.

(** One message of a prompt, [{ role, content: { type, text } }]. *)
Record prompt_message : Type := { role : string; content : content_item }.

(** What the callback of a prompt returns, [{ messages }]. *)
Record prompt_result : Type := { messages : list prompt_message }.

(** [{ messages: [{ role: "user", content: { type: "text", text } }] }] *)
Definition user_text (t : string) : prompt_result :=
  {| messages := [ {| role := "user"; content := {| type := "text"; text := Some t |} |} ] |}.

(** The lines of a piece of text. *)
Definition lines (l : list string) : string := String.concat nl l.

(** A piece of a template literal that is text. *)
Definition lit (s : string) : string + error := inl s.

(** The string of a template literal from its pieces, the text and the
    substitutions converted to strings, in order: the first conversion
    that throws ends the evaluation. *)
Fixpoint template (pieces : list (string + error)) : string + error :=
  match pieces with
  | [] => inl ""
  | inr e :: _ => inr e
  | inl s :: rest =>
      match template rest with
      | inr e => inr e
      | inl r => inl (s ++ r)
      end
  end.

(** The result of a callback: one user message with the text of the
    template literal, or what the evaluation of the literal throws. *)
Definition user_prompt (pieces : list (string + error)) : prompt_result + error :=
  match template pieces with
  | inl t => inl (user_text t)
  | inr e => inr e
  end.

(** What [server.prompt(name, argsSchema, callback)] registers; the
    callback is run on the object of the arguments. *)
Record PromptDescriptor : Type := {
  prompt_name : string;
  argsSchema : shape;
  prompt_callback : list (string * value) -> prompt_result + error
}.

Definition address_balance (args : list (string * value))
  : prompt_result + error :=
  let address := lookup "address" args in
  let blockParameter := lookup "blockParameter" args in
  user_prompt
    [lit ("Use eth_getBalance to conduct a comprehensive financial analysis for "
          ++ "address ");
     to_string address;
     lit " at block ";
     to_string blockParameter;
     lit (lines
           [":";
            "";
            "1. Retrieve native token balance";
            "2. Perform in-depth financial investigation:";
            "   - Current balance in native tokens";
            "   - Historical balance trends";
            "   - Wallet activity indicators";
            "   - Potential account type classification";
            "";
            "Provide contextual insights into the account's financial status and "
              ++ "blockchain interaction patterns."])].

Definition block_number (args : list (string * value))
  : prompt_result + error :=
  user_prompt
    [lit (lines
           ["Use eth_blockNumber to analyze the current state of the Shardeum "
              ++ "blockchain:";
            "";
            "1. Retrieve the latest block number";
            "2. Provide context about:";
            "   - Network progression";
            "   - Recent blockchain activity";
            "   - Synchronization status";
            "";
            "Highlight the significance of the current block number in the network's "
              ++ "timeline."])].

Definition transaction_count (args : list (string * value))
  : prompt_result + error :=
  let address := lookup "address" args in
  let blockParameter := lookup "blockParameter" args in
  user_prompt
    [lit ("Use eth_getTransactionCount to perform a comprehensive analysis of "
          ++ "transaction history for address ");
     to_string address;
     lit " at block ";
     to_string blockParameter;
     lit (lines
           [":";
            "";
            "1. Retrieve total number of transactions sent";
            "2. Analyze account activity:";
            "   - Transaction frequency";
            "   - Account age and maturity";
            "   - Potential account type (user, contract, exchange)";
            "   - Historical transaction patterns";
            "";
            "Provide insights into the account's blockchain interaction and "
              ++ "significance."])].

Definition block_transactions_by_hash (args : list (string * value))
  : prompt_result + error :=
  let blockHash := lookup "blockHash" args in
  user_prompt
    [lit ("Use eth_getBlockTransactionCountByHash to conduct a detailed analysis of "
          ++ "block transactions for hash ");
     to_string blockHash;
     lit (lines
           [":";
            "";
            "1. Retrieve total number of transactions in the block";
            "2. Investigate block characteristics:";
            "   - Transaction density";
            "   - Block utilization";
            "   - Potential network activity indicators";
            "   - Comparison with recent blocks";
            "";
            "Provide context about the block's significance and network performance."])].

Definition block_transactions_by_number (args : list (string * value))
  : prompt_result + error :=
  let blockNumber := lookup "blockNumber" args in
  user_prompt
    [lit ("Use eth_getBlockTransactionCountByNumber to perform an in-depth analysis "
          ++ "of block ");
     to_string blockNumber;
     lit (lines
           [":";
            "";
            "1. Retrieve the number of transactions in the block";
            "2. Analyze block characteristics:";
            "   - Transaction volume";
            "   - Network activity levels";
            "   - Potential network events or congestion";
            "   - Comparative analysis with network averages";
            "";
            "Provide insights into the block's role in the blockchain ecosystem."])].

Definition estimate_gas (args : list (string * value))
  : prompt_result + error :=
  user_prompt
    [lit (lines
           ["Use eth_estimateGas to conduct a comprehensive gas cost analysis for a "
              ++ "transaction:";
            "";
            "1. Estimate gas requirements";
            "2. Analyze transaction cost factors:";
            "   - Computational complexity";
            "   - Network congestion impact";
            "   - Gas price estimation";
            "   - Potential optimization strategies";
            "";
            "Provide detailed insights into transaction economics and efficiency.";
            "";
            "Transaction Details:";
            ""]);
     (if to_boolean (lookup "from" args)
      then template [lit "- From: "; to_string (lookup "from" args)]
      else lit "No sender specified");
     lit nl;
     (if to_boolean (lookup "to" args)
      then template [lit "- To: "; to_string (lookup "to" args)]
      else lit "No recipient specified");
     lit nl;
     (if to_boolean (lookup "value" args)
      then template [lit "- Value: "; to_string (lookup "value" args)]
      else lit "No value specified");
     lit nl;
     (if to_boolean (lookup "data" args) then lit "- Custom data present"
      else lit "No custom data")].

Definition block_by_hash (args : list (string * value))
  : prompt_result + error :=
  let blockHash := lookup "blockHash" args in
  let fullTransactions := lookup "fullTransactions" args in
  user_prompt
    [lit ("Use eth_getBlockByHash to perform a comprehensive analysis of block with "
          ++ "hash ");
     to_string blockHash;
     lit (lines
           [":";
            "";
            "1. Retrieve block details "]);
     (if to_boolean fullTransactions then lit "with full transaction information"
      else lit "with transaction summaries");
     lit (lines
           ["";
            "2. Analyze block characteristics:";
            "   - Block structure and metadata";
            "   - Validator/Miner information";
            "   - Transaction composition";
            "   - Network performance indicators";
            "";
            "Provide deep insights into the block's role in the blockchain ecosystem."])].

Definition block_by_number (args : list (string * value))
  : prompt_result + error :=
  let blockNumber := lookup "blockNumber" args in
  let fullTransactions := lookup "fullTransactions" args in
  user_prompt
    [lit "Use eth_getBlockByNumber to conduct an in-depth analysis of block number ";
     to_string blockNumber;
     lit (lines
           [":";
            "";
            "1. Retrieve block details "]);
     (if to_boolean fullTransactions then lit "with full transaction information"
      else lit "with transaction summaries");
     lit (lines
           ["";
            "2. Investigate block characteristics:";
            "   - Detailed block metadata";
            "   - Transaction composition";
            "   - Network state at block generation";
            "   - Performance and security indicators";
            "";
            "Provide comprehensive insights into the block's significance."])].

Definition block_receipts (args : list (string * value))
  : prompt_result + error :=
  let blockNumberOrHash := lookup "blockNumberOrHash" args in
  user_prompt
    [lit "Use eth_getBlockReceipts to analyze the transaction outcomes for block ";
     to_string blockNumberOrHash;
     lit (lines
           [":";
            "";
            "1. Retrieve transaction receipts";
            "2. Perform comprehensive receipt analysis:";
            "   - Transaction success rates";
            "   - Gas consumption details";
            "   - Logs and event information";
            "   - Blockchain state changes";
            "";
            "Provide forensic insights into the block's transaction execution."])].

Definition transaction_by_hash (args : list (string * value))
  : prompt_result + error :=
  let txHash := lookup "txHash" args in
  user_prompt
    [lit ("Use eth_getTransactionByHash to perform a comprehensive forensic analysis "
          ++ "of transaction ");
     to_string txHash;
     lit (lines
           [":";
            "";
            "1. Retrieve complete transaction details";
            "2. Conduct in-depth transaction investigation:";
            "   - Sender and recipient information";
            "   - Transaction value and type";
            "   - Gas price and consumption";
            "   - Potential smart contract interactions";
            "   - Blockchain context";
            "";
            "Provide detailed insights into the transaction's significance and "
              ++ "characteristics."])].

Definition transaction_by_block_hash_index (args : list (string * value))
  : prompt_result + error :=
  let blockHash := lookup "blockHash" args in
  let transactionIndex := lookup "transactionIndex" args in
  user_prompt
    [lit ("Use eth_getTransactionByBlockHashAndIndex to analyze the specific "
          ++ "transaction at index ");
     to_string transactionIndex;
     lit " in block with hash ";
     to_string blockHash;
     lit (lines
           [":";
            "";
            "1. Retrieve transaction details";
            "2. Investigate transaction context:";
            "   - Position within block";
            "   - Relationship to other transactions";
            "   - Detailed transaction characteristics";
            "   - Block-level insights";
            "";
            "Provide comprehensive analysis of the transaction's role and significance."])].

Definition transaction_by_block_number_index (args : list (string * value))
  : prompt_result + error :=
  let blockNumber := lookup "blockNumber" args in
  let transactionIndex := lookup "transactionIndex" args in
  user_prompt
    [lit ("Use eth_getTransactionByBlockNumberAndIndex to perform a detailed "
          ++ "analysis of the transaction at index ");
     to_string transactionIndex;
     lit " in block number ";
     to_string blockNumber;
     lit (lines
           [":";
            "";
            "1. Retrieve transaction details";
            "2. Conduct comprehensive investigation:";
            "   - Transaction positioning";
            "   - Block-level context";
            "   - Detailed transaction characteristics";
            "   - Network state analysis";
            "";
            "Provide insights into the transaction's significance within its block."])].

Definition transaction_receipt (args : list (string * value))
  : prompt_result + error :=
  let txHash := lookup "txHash" args in
  user_prompt
    [lit ("Use eth_getTransactionReceipt to perform a forensic analysis of the "
          ++ "transaction receipt for ");
     to_string txHash;
     lit (lines
           [":";
            "";
            "1. Retrieve complete transaction receipt";
            "2. Conduct in-depth receipt investigation:";
            "   - Transaction execution status";
            "   - Gas used and actual cost";
            "   - Logs and event details";
            "   - State changes and contract interactions";
            "   - Success or failure indicators";
            "";
            "Provide comprehensive insights into the transaction's final outcome."])].

Definition chain_id (args : list (string * value))
  : prompt_result + error :=
  user_prompt
    [lit (lines
           ["Use eth_chainId to analyze the network identification and characteristics:";
            "";
            "1. Retrieve the chain ID";
            "2. Investigate network details:";
            "   - Unique network identifier";
            "   - Network type (mainnet/testnet)";
            "   - Ecosystem compatibility";
            "   - Potential cross-chain implications";
            "";
            "Provide comprehensive insights into the network's identification and "
              ++ "context."])].

Definition shardeum_node_list (args : list (string * value))
  : prompt_result + error :=
  user_prompt
    [lit (lines
           ["Use shardeum_getNodeList to perform a comprehensive analysis of Shardeum "
              ++ "network nodes:";
            "";
            "1. Retrieve node list for page "]);
     to_string (lookup "page" args);
     lit " with ";
     to_string (lookup "limit" args);
     lit (lines
           [" nodes per page";
            "2. Investigate network node composition:";
            "   - Node distribution";
            "   - Network health indicators";
            "   - Staking and validator information";
            "   - Network decentralization metrics";
            "";
            "Provide detailed insights into the Shardeum network's node ecosystem."])].

Definition shardeum_network_account (args : list (string * value))
  : prompt_result + error :=
  user_prompt
    [lit (lines
           ["Use shardeum_getNetworkAccount to conduct a comprehensive analysis of the "
              ++ "Shardeum network account:";
            "";
            "1. Retrieve network account details";
            "2. Investigate network parameters:";
            "   - Network governance information";
            "   - Staking and reward mechanisms";
            "   - Network economic model";
            "   - Cycle and maintenance details";
            "";
            "Provide deep insights into the Shardeum network's economic and "
              ++ "operational structure."])].

Definition shardeum_cycle_info (args : list (string * value))
  : prompt_result + error :=
  user_prompt
    [lit "Use shardeum_getCycleInfo to analyze ";
     (if to_boolean (lookup "cycleNumber" args)
      then template [lit "cycle number "; to_string (lookup "cycleNumber" args)]
      else lit "the current network cycle");
     lit (lines
           [":";
            "";
            "1. Retrieve detailed cycle information";
            "2. Investigate cycle characteristics:";
            "   - Node activity and composition";
            "   - Network synchronization state";
            "   - Performance metrics";
            "   - Validator and staking dynamics";
            "";
            "Provide comprehensive insights into the Shardeum network's current "
              ++ "operational cycle."])].

(** [registerPrompts(server)]: the registrations, in order. *)
Definition registerPrompts : list PromptDescriptor :=
  [ {| prompt_name := "address_balance";
       argsSchema := [("address", address_re);
                     ("blockParameter", ZDefault (ZOptional ZString) (VStr "latest"))];
       prompt_callback := address_balance |};
    {| prompt_name := "block_number";
       argsSchema := [];
       prompt_callback := block_number |};
    {| prompt_name := "transaction_count";
       argsSchema := [("address", address_re);
                     ("blockParameter", ZDefault (ZOptional ZString) (VStr "latest"))];
       prompt_callback := transaction_count |};
    {| prompt_name := "block_transactions_by_hash";
       argsSchema := [("blockHash", hash_re)];
       prompt_callback := block_transactions_by_hash |};
    {| prompt_name := "block_transactions_by_number";
       argsSchema := [("blockNumber", quantity_re)];
       prompt_callback := block_transactions_by_number |};
    {| prompt_name := "estimate_gas";
       argsSchema := [("from", ZOptional address_re); ("to", ZOptional address_re);
                     ("value", ZOptional ZString); ("data", ZOptional ZString)];
       prompt_callback := estimate_gas |};
    {| prompt_name := "block_by_hash";
       argsSchema := [("blockHash", hash_re);
                     ("fullTransactions", ZDefault (ZOptional ZBoolean) (VBool false))];
       prompt_callback := block_by_hash |};
    {| prompt_name := "block_by_number";
       argsSchema := [("blockNumber", quantity_re);
                     ("fullTransactions", ZDefault (ZOptional ZBoolean) (VBool false))];
       prompt_callback := block_by_number |};
    {| prompt_name := "block_receipts";
       argsSchema := [("blockNumberOrHash", ZString)];
       prompt_callback := block_receipts |};
    {| prompt_name := "transaction_by_hash";
       argsSchema := [("txHash", hash_re)];
       prompt_callback := transaction_by_hash |};
    {| prompt_name := "transaction_by_block_hash_index";
       argsSchema := [("blockHash", hash_re); ("transactionIndex", quantity_re)];
       prompt_callback := transaction_by_block_hash_index |};
    {| prompt_name := "transaction_by_block_number_index";
       argsSchema := [("blockNumber", quantity_re); ("transactionIndex", quantity_re)];
       prompt_callback := transaction_by_block_number_index |};
    {| prompt_name := "transaction_receipt";
       argsSchema := [("txHash", hash_re)];
       prompt_callback := transaction_receipt |};
    {| prompt_name := "chain_id";
       argsSchema := [];
       prompt_callback := chain_id |};
    {| prompt_name := "shardeum_node_list";
       argsSchema := [("page", ZDefault (ZOptional ZNumber) (num 1));
                     ("limit", ZDefault (ZOptional ZNumber) (num 100))];
       prompt_callback := shardeum_node_list |};
    {| prompt_name := "shardeum_network_account";
       argsSchema := [];
       prompt_callback := shardeum_network_account |};
    {| prompt_name := "shardeum_cycle_info";
       argsSchema := [("cycleNumber", ZOptional ZNumber)];
       prompt_callback := shardeum_cycle_info |} ].

End Prompts.

(** ** The configuration ([index.js], and [start.js] of the Dockerfile) *)

Module Server.

Record configuration : Type := { name : string; version : string; rpcUrl : string }.

(** [config] of [index.js]. *)
Definition index_config : configuration :=
  {| name := "shm-mcp"; version := "1.0.0";
     rpcUrl := "https://<add-network-name>.shardeum.org/" |}.

(** [config] of the [start.js] that the Dockerfile writes; [RPC_URL] is
    [process.env.RPC_URL], [None] when the variable is not set, and
    [a || b] is [b] when [a] is [undefined] or the empty string. *)
Definition start_config (RPC_URL : option string) : configuration :=
  {| name := "shm-mcp"; version := "1.0.0";
     rpcUrl := match RPC_URL with
               | Some u => if String.eqb u "" then "https://api-testnet.shardeum.org/" else u
               | None => "https://api-testnet.shardeum.org/"
               end |}.

(** The tools that [startServer] registers: [registerTools(server,
    config.rpcUrl)]. *)
Definition tools (net : Eff.network) (config : configuration) : list Tools.ToolDescriptor :=
  Tools.registerTools net (rpcUrl config).

End Server.

(** * Properties *)

(** ** Strings and decimal numerals *)

Module StringFacts.
Import Chars.

Lemma append_assoc (a b c : string) : (a ++ b) ++ c = a ++ (b ++ c).
Proof. induction a; cbn; [reflexivity | now rewrite IHa]. Qed.

Lemma append_nil_r (a : string) : a ++ "" = a.
Proof. induction a; cbn; [reflexivity | now rewrite IHa]. Qed.

Lemma length_append (a b : string) :
  String.length (a ++ b) = (String.length a + String.length b)%nat.
Proof. induction a; cbn; [reflexivity | now rewrite IHa]. Qed.

Lemma len_append a b : len (a ++ b) = len a + len b.
Proof. unfold len. rewrite length_append. lia. Qed.

Ltac digit_cases d :=
  let H := fresh in
  assert (H : d = 0 \/ d = 1 \/ d = 2 \/ d = 3 \/ d = 4 \/ d = 5 \/ d = 6 \/ d = 7
              \/ d = 8 \/ d = 9) by lia;
  repeat (destruct H as [H | H]; [rewrite H | ]); [ .. | rewrite H].

Lemma digit_val_char d : 0 <= d < 10 -> digit_val (digit_char d) = d.
Proof. intros Hd. digit_cases d; reflexivity. Qed.

Lemma is_digit_char d : 0 <= d < 10 -> is_digit (digit_char d) = true.
Proof. intros Hd. digit_cases d; reflexivity. Qed.

Lemma decimal_aux_fuel f1 : forall f2 n,
  0 <= n < 10 * 2 ^ Z.of_nat f1 -> n < 10 * 2 ^ Z.of_nat f2 ->
  decimal_aux f1 n = decimal_aux f2 n.
Proof.
  induction f1 as [|f1 IH]; intros f2 n H1 H2.
  - cbn in H1. destruct f2; cbn [decimal_aux].
    + reflexivity.
    + destruct (Z.ltb_spec n 10); [|lia]. now rewrite Z.mod_small by lia.
  - destruct f2; cbn [decimal_aux].
    + cbn in H2. destruct (Z.ltb_spec n 10); [|lia]. now rewrite Z.mod_small by lia.
    + destruct (Z.ltb_spec n 10); [reflexivity|].
      rewrite (IH f2); [reflexivity | | ].
      * rewrite Nat2Z.inj_succ, Z.pow_succ_r in H1 by lia.
        split; [apply Z.div_pos; lia|].
        apply Z.div_lt_upper_bound; [lia|].
        assert (0 < 2 ^ Z.of_nat f1) by (apply Z.pow_pos_nonneg; lia). lia.
      * rewrite Nat2Z.inj_succ, Z.pow_succ_r in H2 by lia.
        apply Z.div_lt_upper_bound; [lia|].
        assert (0 < 2 ^ Z.of_nat f2) by (apply Z.pow_pos_nonneg; lia). lia.
Qed.

Lemma decimal_fuel_ok n : 0 <= n -> 0 <= n < 10 * 2 ^ Z.of_nat (Z.to_nat (Z.log2 n)).
Proof.
  intros Hn. split; [exact Hn|]. rewrite Z2Nat.id by apply Z.log2_nonneg.
  destruct (Z.eq_dec n 0) as [->|]; [cbn; lia|].
  pose proof (Z.log2_spec n ltac:(lia)) as [_ H].
  rewrite Z.pow_succ_r in H by apply Z.log2_nonneg. lia.
Qed.

Lemma decimal_small n : 0 <= n < 10 -> decimal n = String (digit_char n) "".
Proof.
  intros Hn. unfold decimal.
  rewrite (decimal_aux_fuel _ 1%nat) by (try (apply decimal_fuel_ok; lia); cbn; lia).
  cbn. destruct (Z.ltb_spec n 10); [reflexivity | lia].
Qed.

Lemma decimal_step n :
  10 <= n -> decimal n = decimal (n / 10) ++ String (digit_char (n mod 10)) "".
Proof.
  intros Hn. unfold decimal at 1.
  assert (Hl : 3 <= Z.log2 n) by (change 3 with (Z.log2 8); apply Z.log2_le_mono; lia).
  destruct (Z.to_nat (Z.log2 n)) as [|f] eqn:Hf; [lia|].
  cbn [decimal_aux]. destruct (Z.ltb_spec n 10); [lia|].
  f_equal. unfold decimal. apply decimal_aux_fuel.
  - split; [apply Z.div_pos; lia|].
    pose proof (decimal_fuel_ok n ltac:(lia)) as [_ H1]. rewrite Hf in H1.
    rewrite Nat2Z.inj_succ, Z.pow_succ_r in H1 by lia.
    apply Z.div_lt_upper_bound; [lia|].
    assert (0 < 2 ^ Z.of_nat f) by (apply Z.pow_pos_nonneg; lia). lia.
  - apply decimal_fuel_ok. apply Z.div_pos; lia.
Qed.

(** Induction on the digits of a natural number. *)
Lemma decimal_ind (P : Z -> Prop) :
  (forall n, 0 <= n < 10 -> P n) ->
  (forall n, 10 <= n -> P (n / 10) -> P n) ->
  forall n, 0 <= n -> P n.
Proof.
  intros Hsmall Hstep n Hn. pattern n. apply Zlt_0_ind; [|exact Hn].
  intros x IH Hx. destruct (Z_lt_ge_dec x 10).
  - apply Hsmall. lia.
  - apply Hstep; [lia|]. apply IH. split; [apply Z.div_pos; lia|].
    apply Z.div_lt; lia.
Qed.

Lemma digits_val_app a : forall acc b,
  digits_val acc (a ++ b) = digits_val (digits_val acc a) b.
Proof. induction a; intros; cbn; [reflexivity | apply IHa]. Qed.

Lemma digits_val_decimal n : 0 <= n -> digits_val 0 (decimal n) = n.
Proof.
  intros Hn. pattern n. apply decimal_ind; [| |exact Hn]; clear n Hn.
  - intros n Hn. rewrite decimal_small by lia. cbn [digits_val].
    rewrite digit_val_char; lia.
  - intros n Hn IH. rewrite decimal_step, digits_val_app, IH by lia. cbn [digits_val].
    rewrite digit_val_char by (apply Z.mod_pos_bound; lia).
    pose proof (Z.div_mod n 10). lia.
Qed.

Lemma all_chars_app p a b : all_chars p (a ++ b) = all_chars p a && all_chars p b.
Proof. induction a; cbn; [reflexivity | now rewrite IHa, andb_assoc]. Qed.

Lemma decimal_digits n : 0 <= n -> all_chars is_digit (decimal n) = true.
Proof.
  intros Hn. pattern n. apply decimal_ind; [| |exact Hn]; clear n Hn.
  - intros n Hn. rewrite decimal_small by lia. cbn [all_chars].
    now rewrite is_digit_char by lia.
  - intros n Hn IH. rewrite decimal_step, all_chars_app, IH by lia. cbn [all_chars andb].
    now rewrite is_digit_char by (apply Z.mod_pos_bound; lia).
Qed.

Lemma decimal_mul10 s : 0 < s -> decimal (10 * s) = decimal s ++ "0".
Proof.
  intros Hs. rewrite decimal_step by lia.
  replace (10 * s / 10) with s by (symmetry; rewrite Z.mul_comm; apply Z.div_mul; lia).
  replace (10 * s mod 10) with 0 by (symmetry; rewrite Z.mul_comm; apply Z.mod_mul; lia).
  reflexivity.
Qed.

Lemma zeros_snoc n : zeros (S n) = zeros n ++ "0".
Proof. induction n; cbn in *; [reflexivity | now rewrite <- IHn]. Qed.

Lemma decimal_mul_pow10 s j :
  0 < s -> decimal (s * 10 ^ Z.of_nat j) = decimal s ++ zeros j.
Proof.
  intros Hs. induction j as [|j IH].
  - cbn. now rewrite Z.mul_1_r, append_nil_r.
  - rewrite Nat2Z.inj_succ, Z.pow_succ_r by lia.
    replace (s * (10 * 10 ^ Z.of_nat j)) with (10 * (s * 10 ^ Z.of_nat j)) by lia.
    rewrite decimal_mul10, IH, zeros_snoc, append_assoc; [reflexivity|].
    assert (0 < 10 ^ Z.of_nat j) by (apply Z.pow_pos_nonneg; lia). lia.
Qed.

Lemma len_decimal_bounds n :
  0 < n -> 10 ^ (len (decimal n) - 1) <= n < 10 ^ len (decimal n).
Proof.
  intros Hn. assert (H0 : 0 <= n) by lia. revert Hn. pattern n.
  apply decimal_ind; [| |exact H0]; clear n H0.
  - intros n Hn Hp. rewrite decimal_small by lia. cbn. lia.
  - intros n Hn IH _. rewrite decimal_step, len_append by lia.
    change (len (String _ "")) with 1.
    assert (Hq : 0 < n / 10) by (apply Z.div_str_pos; lia).
    specialize (IH Hq).
    assert (Hl : 0 < len (decimal (n / 10))).
    { destruct (decimal (n / 10)) eqn:E; [|unfold len; cbn; lia].
      cbn in IH. lia. }
    replace (len (decimal (n / 10)) + 1 - 1) with (Z.succ (len (decimal (n / 10)) - 1)) by lia.
    rewrite Z.pow_succ_r by lia.
    replace (len (decimal (n / 10)) + 1) with (Z.succ (len (decimal (n / 10)))) by lia.
    rewrite Z.pow_succ_r by lia.
    pose proof (Z.div_mod n 10 ltac:(lia)). pose proof (Z.mod_pos_bound n 10 ltac:(lia)). lia.
Qed.

Lemma decimal_head n :
  0 < n -> exists c t, decimal n = String c t /\ is_digit c = true /\ c <> "0"%char.
Proof.
  intros Hn. assert (H0 : 0 <= n) by lia. revert Hn. pattern n.
  apply decimal_ind; [| |exact H0]; clear n H0.
  - intros n Hn Hp. rewrite decimal_small by lia. eexists; eexists. split; [reflexivity|].
    split; [apply is_digit_char; lia|].
    assert (H : n = 1 \/ n = 2 \/ n = 3 \/ n = 4 \/ n = 5 \/ n = 6 \/ n = 7
              \/ n = 8 \/ n = 9) by lia.
    repeat (destruct H as [H | H]; [rewrite H; discriminate | ]). rewrite H; discriminate.
  - intros n Hn IH _. rewrite decimal_step by lia.
    destruct IH as (c & t & E & Hc & Hz); [apply Z.div_str_pos; lia|].
    rewrite E. cbn. eexists; eexists. split; [reflexivity|]. tauto.
Qed.

End StringFacts.

(** ** Rounding to binary64 *)

Module NumFacts.
Import Chars Num StringFacts.

Lemma pow2_pos x : 0 <= x -> 0 < 2 ^ x.
Proof. intros. apply Z.pow_pos_nonneg; lia. Qed.

Lemma pow2_split a b : 0 <= a -> 0 <= b -> 2 ^ (a + b) = 2 ^ a * 2 ^ b.
Proof. intros. apply Z.pow_add_r; lia. Qed.

(** [shift_pair p q e = (a, b)] has [a / b = (p / q) / 2^e]: put on the
    common scale [2^K]. *)
Lemma shift_pair_scaled p q e K a b :
  0 <= K -> 0 <= e + K ->
  shift_pair p q e = (a, b) ->
  a * (q * 2 ^ (e + K)) = b * (p * 2 ^ K).
Proof.
  intros HK HeK. unfold shift_pair. destruct (Z.leb_spec 0 e); intros [= <- <-].
  - rewrite pow2_split by lia. ring.
  - assert (H2 : 2 ^ K = 2 ^ (- e) * 2 ^ (e + K))
      by (rewrite <- pow2_split by lia; f_equal; lia).
    rewrite H2. ring.
Qed.

Lemma shift_pair_pos p q e a b :
  0 < p -> 0 < q -> shift_pair p q e = (a, b) -> 0 < a /\ 0 < b.
Proof.
  intros Hp Hq. unfold shift_pair. destruct (Z.leb_spec 0 e); intros [= <- <-].
  - pose proof (pow2_pos e). nia.
  - pose proof (pow2_pos (- e)). nia.
Qed.

Lemma le_pow2_scaled E p q K :
  0 < p -> 0 < q -> 0 <= K -> 0 <= E + K ->
  le_pow2 E p q <-> q * 2 ^ (E + K) <= p * 2 ^ K.
Proof.
  intros Hp Hq HK HEK. unfold le_pow2.
  destruct (shift_pair p q E) as [a b] eqn:Hs.
  pose proof (shift_pair_scaled _ _ _ K _ _ HK HEK Hs) as Heq.
  apply shift_pair_pos in Hs as [Ha Hb]; [|assumption..].
  pose proof (pow2_pos (E + K) HEK). pose proof (pow2_pos K HK).
  split; intros H1; nia.
Qed.

Lemma ilog2_ratio_unique p q E :
  0 < p -> 0 < q -> le_pow2 E p q -> ~ le_pow2 (E + 1) p q ->
  ilog2_ratio p q = E.
Proof.
  intros Hp Hq Hle Hgt.
  pose proof (Z.log2_spec p Hp) as [Hp1 Hp2].
  pose proof (Z.log2_spec q Hq) as [Hq1 Hq2].
  pose proof (Z.log2_nonneg p) as Hlp. pose proof (Z.log2_nonneg q) as Hlq.
  remember (Z.log2 p) as lp eqn:Elp. remember (Z.log2 q) as lq eqn:Elq.
  remember (Z.abs E + lp + lq + 2) as K eqn:EK.
  assert (HK : 0 <= K) by lia.
  rewrite (le_pow2_scaled E p q K) in Hle by lia.
  rewrite (le_pow2_scaled (E + 1) p q K) in Hgt by lia.
  pose proof (pow2_pos K HK) as HpK.
  assert (H1 : E <= lp - lq).
  { destruct (Z_le_gt_dec E (lp - lq)) as [|Hc]; [assumption|exfalso].
    assert (Ha : 2 ^ lq * 2 ^ (lp - lq + 1 + K) <= q * 2 ^ (E + K)).
    { assert (2 ^ (lp - lq + 1 + K) <= 2 ^ (E + K)) by (apply Z.pow_le_mono_r; lia).
      pose proof (pow2_pos (lp - lq + 1 + K) ltac:(lia)). nia. }
    rewrite <- pow2_split in Ha by lia.
    replace (lq + (lp - lq + 1 + K)) with (Z.succ lp + K) in Ha by lia.
    rewrite pow2_split in Ha by lia.
    apply (Z.lt_irrefl (p * 2 ^ K)).
    eapply Z.lt_le_trans; [apply Z.mul_lt_mono_pos_r; eassumption|].
    eapply Z.le_trans; eassumption. }
  assert (H2 : lp - lq <= E + 1).
  { destruct (Z_le_gt_dec (lp - lq) (E + 1)) as [|Hc]; [assumption|exfalso].
    apply Hgt.
    assert (Ha : q * 2 ^ (E + 1 + K) < 2 ^ Z.succ lq * 2 ^ (E + 1 + K)).
    { apply Z.mul_lt_mono_pos_r; [apply pow2_pos; lia | assumption]. }
    assert (Hb : 2 ^ (Z.succ lq + (E + 1 + K)) <= 2 ^ (lp + K))
      by (apply Z.pow_le_mono_r; lia).
    rewrite (pow2_split (Z.succ lq)), (pow2_split lp K) in Hb by lia.
    apply Z.lt_le_incl. eapply Z.lt_le_trans; [exact Ha|].
    eapply Z.le_trans; [exact Hb|]. apply Z.mul_le_mono_nonneg_r; lia. }
  unfold ilog2_ratio. rewrite <- Elp, <- Elq.
  destruct (shift_pair p q (lp - lq)) as [a b] eqn:Hs.
  assert (Ht : le_pow2 (lp - lq) p q <-> b <= a) by (unfold le_pow2; now rewrite Hs).
  rewrite (le_pow2_scaled (lp - lq) p q K) in Ht by lia.
  destruct (Z.leb_spec b a) as [Hba|Hba].
  - destruct (Z.eq_dec (lp - lq) E) as [|Hne]; [assumption|exfalso].
    replace (lp - lq) with (E + 1) in Ht by lia. tauto.
  - destruct (Z.eq_dec (lp - lq) E) as [He|Hne]; [exfalso|lia].
    rewrite He in Ht. lia.
Qed.

Lemma digits2_size m : digits2_pos m = Pos.size m.
Proof. induction m; cbn; now rewrite ?IHm. Qed.

Lemma digits2_bounds m :
  2 ^ (Zpos (digits2_pos m) - 1) <= Zpos m < 2 ^ Zpos (digits2_pos m).
Proof.
  rewrite digits2_size.
  pose proof (Z.log2_spec (Zpos m) ltac:(lia)) as H.
  assert (Hl : Z.log2 (Zpos m) = Zpos (Pos.size m) - 1).
  { destruct m; cbn [Z.log2 Pos.size]; rewrite ?Pos2Z.inj_succ; lia. }
  rewrite Hl in H. replace (Z.succ (Zpos (Pos.size m) - 1)) with (Zpos (Pos.size m)) in H by lia.
  exact H.
Qed.

Lemma bounded_inv m e :
  bounded 53 1024 m e = true ->
  Z.max (Zpos (digits2_pos m) + e - 53) (-1074) = e /\ e <= 971.
Proof.
  unfold bounded, canonical_mantissa, fexp, emin. intros H.
  apply andb_true_iff in H as [H1 H2].
  apply Z.eqb_eq in H1. apply Z.leb_le in H2. cbn in *. lia.
Qed.

(** Rounding is the identity on the values of binary64. *)
Lemma round_ratio_exact s p q m e a b :
  0 < p -> 0 < q ->
  bounded 53 1024 m e = true ->
  shift_pair p q e = (a, b) -> a = Zpos m * b ->
  round_ratio s p q = S754_finite s m e.
Proof.
  intros Hp Hq Hb Hs Hab.
  apply bounded_inv in Hb as [Hcan Hmax].
  pose proof (digits2_bounds m) as [Hm1 Hm2].
  remember (Zpos (digits2_pos m)) as d eqn:Ed.
  assert (Hd : 1 <= d <= 53) by lia.
  pose proof (shift_pair_pos _ _ _ _ _ Hp Hq Hs) as [Ha Hb].
  assert (HE : ilog2_ratio p q = d - 1 + e).
  { remember (Z.abs e + d + 2) as K eqn:EK.
    assert (HK : 0 <= K) by lia. assert (HeK : 0 <= e + K) by lia.
    pose proof (shift_pair_scaled p q e K a b HK HeK Hs) as Hsc.
    rewrite Hab in Hsc.
    assert (Hpk : p * 2 ^ K = Zpos m * (q * 2 ^ (e + K))) by nia.
    apply ilog2_ratio_unique; try assumption.
    - rewrite (le_pow2_scaled _ p q K) by lia. rewrite Hpk.
      replace (d - 1 + e + K) with ((d - 1) + (e + K)) by lia.
      rewrite pow2_split by lia. pose proof (pow2_pos (e + K)). nia.
    - rewrite (le_pow2_scaled _ p q K) by lia. rewrite Hpk.
      replace (d - 1 + e + 1 + K) with (d + (e + K)) by lia.
      rewrite pow2_split by lia. pose proof (pow2_pos (e + K)). nia. }
  unfold round_ratio. rewrite HE.
  replace (d - 1 + e - 52) with (d + e - 53) by lia. rewrite Hcan, Hs.
  rewrite Hab, Z.div_mul, Z.mod_mul by lia.
  change (2 * 0) with 0. destruct (Z.compare_spec 0 b); try lia.
  assert (Zpos m < 2 ^ 53).
  { apply Z.lt_le_trans with (2 ^ d); [assumption|]. apply Z.pow_le_mono_r; lia. }
  destruct (Z.eqb_spec (Zpos m) (2 ^ 53)); [lia|].
  destruct (Z.leb_spec e 971); [reflexivity | lia].
Qed.

(** ** Integers below 2^53 *)

Lemma number_eqb_eq x y : number_eqb x y = true <-> x = y.
Proof.
  split.
  - destruct x, y; cbn; try discriminate; intros H.
    + apply Bool.eqb_prop in H. now subst.
    + apply Bool.eqb_prop in H. now subst.
    + reflexivity.
    + apply andb_true_iff in H as [H He]. apply andb_true_iff in H as [Hs Hm].
      apply Bool.eqb_prop in Hs. apply Pos.eqb_eq in Hm. apply Z.eqb_eq in He. now subst.
  - intros <-. destruct x; cbn; rewrite ?Bool.eqb_reflx, ?Pos.eqb_refl, ?Z.eqb_refl; reflexivity.
Qed.

Lemma pow10_pos x : 0 <= x -> 0 < 10 ^ x.
Proof. intros. apply Z.pow_pos_nonneg; lia. Qed.

Lemma round_ratio_small s n :
  0 < n < 2 ^ 53 ->
  round_ratio s n 1 = S754_finite s (small_mantissa n) (Z.log2 n - 52).
Proof.
  intros Hn.
  pose proof (Z.log2_spec n ltac:(lia)) as [Hl1 Hl2].
  pose proof (Z.log2_nonneg n) as Hl0.
  assert (Hl : Z.log2 n < 53).
  { apply Z.log2_lt_pow2; lia. }
  remember (Z.log2 n) as l eqn:El.
  assert (Hc : 0 < 2 ^ (52 - l)) by (apply pow2_pos; lia).
  assert (Hm : Zpos (small_mantissa n) = n * 2 ^ (52 - l)).
  { unfold small_mantissa. rewrite <- El. apply Z2Pos.id. nia. }
  assert (Hlog : Z.log2 (Zpos (small_mantissa n)) = 52).
  { rewrite Hm, Z.log2_mul_pow2 by lia. lia. }
  assert (Hdig : Zpos (digits2_pos (small_mantissa n)) = 53).
  { rewrite digits2_size. destruct (small_mantissa n); cbn [Z.log2 Pos.size] in *;
      rewrite ?Pos2Z.inj_succ; lia. }
  destruct (shift_pair n 1 (l - 52)) as [a b] eqn:Hs.
  apply (round_ratio_exact s n 1 _ _ a b); try lia; try assumption.
  - unfold bounded, canonical_mantissa, fexp, emin. rewrite Hdig.
    apply andb_true_iff. split; [apply Z.eqb_eq | apply Z.leb_le]; lia.
  - revert Hs. unfold shift_pair. destruct (Z.leb_spec 0 (l - 52)); intros [= <- <-].
    + replace l with 52 in * by lia. rewrite Hm. cbn. lia.
    + rewrite Hm. replace (- (l - 52)) with (52 - l) by lia. lia.
Qed.

Lemma round_ratio_small_inj s a b :
  0 < a < 2 ^ 53 -> 0 < b < 2 ^ 53 ->
  round_ratio s a 1 = round_ratio s b 1 -> a = b.
Proof.
  intros Ha Hb. rewrite !round_ratio_small by assumption. intros [= Hm He].
  assert (Hl : Z.log2 a = Z.log2 b) by lia.
  unfold small_mantissa in Hm. rewrite Hl in Hm.
  assert (Hc : 0 < 2 ^ (52 - Z.log2 b)).
  { apply pow2_pos. assert (Z.log2 b < 53) by (apply Z.log2_lt_pow2; lia). lia. }
  apply Z2Pos.inj in Hm; nia.
Qed.

(** An integer from 2^53 on rounds to a number whose last bit has a positive
    exponent, or to an infinity. *)
Lemma round_ratio_large s V m e :
  2 ^ 53 <= V -> round_ratio s V 1 = S754_finite s m e -> 1 <= e.
Proof.
  intros HV.
  assert (HVp : 0 < V) by (pose proof (pow2_pos 53); lia).
  pose proof (Z.log2_spec V HVp) as [Hl1 Hl2].
  assert (Hl : 53 <= Z.log2 V) by (apply Z.log2_le_pow2; lia).
  assert (HE : ilog2_ratio V 1 = Z.log2 V).
  { apply ilog2_ratio_unique; try lia.
    - unfold le_pow2, shift_pair. destruct (Z.leb_spec 0 (Z.log2 V)); lia.
    - unfold le_pow2, shift_pair. destruct (Z.leb_spec 0 (Z.log2 V + 1)); [|lia].
      replace (Z.log2 V + 1) with (Z.succ (Z.log2 V)) by lia. lia. }
  unfold round_ratio. rewrite HE.
  rewrite Z.max_l by lia.
  destruct (shift_pair V 1 (Z.log2 V - 52)) as [a b].
  match goal with |- context [if ?c then _ else _] => destruct c end.
  - change (2 ^ 52) with 4503599627370496.
    destruct (Z.leb_spec (Z.log2 V - 52 + 1) 971); intros [= _ <-]; lia.
  - match goal with |- context [match ?t with Z0 => _ | _ => _ end] => destruct t end;
      try discriminate.
    destruct (Z.leb_spec (Z.log2 V - 52) 971); intros [= _ <-]; lia.
Qed.

Lemma norm10_value s j hi jh :
  0 < s -> 0 <= j -> norm10 s j = (hi, jh) ->
  0 < hi /\ 0 <= jh /\ hi * 10 ^ jh = s * 10 ^ j.
Proof.
  intros Hs Hj. unfold norm10. destruct (Z.eqb_spec (s mod 10) 0) as [Hz|Hz]; intros [= <- <-].
  - pose proof (Z.div_mod s 10 ltac:(lia)) as Hd. rewrite Hz in Hd.
    split; [lia|]. split; [lia|].
    replace (j + 1) with (Z.succ j) by lia. rewrite Z.pow_succ_r by lia. nia.
  - lia.
Qed.

Lemma round10_nat s m j :
  0 < m -> 0 <= j -> round10 s m j = round_ratio s (m * 10 ^ j) 1.
Proof.
  intros Hm Hj. unfold round10.
  destruct (Z.eqb_spec m 0); [lia|]. destruct (Z.leb_spec 0 j); [reflexivity | lia].
Qed.

Section SmallIntegers.
Variable n : Z.
Hypothesis Hn : 0 < n < 2 ^ 53.

Let x : number := round_ratio false n 1.

(** A candidate [s * 10^j] with [j >= 0] that rounds to [x] is [n]. *)
Lemma candidate_is_n s j :
  0 <= s -> 0 <= j -> number_eqb (round10 false s j) x = true -> 0 < s /\ s * 10 ^ j = n.
Proof.
  intros Hs Hj Heq. apply number_eqb_eq in Heq.
  assert (Hx : x = S754_finite false (small_mantissa n) (Z.log2 n - 52))
    by (apply round_ratio_small; exact Hn).
  assert (Hs0 : 0 < s).
  { destruct (Z.eq_dec s 0) as [->|]; [|lia]. rewrite Hx in Heq. discriminate Heq. }
  split; [assumption|].
  rewrite round10_nat in Heq by assumption.
  pose proof (pow10_pos j Hj) as Hp.
  destruct (Z_lt_ge_dec (s * 10 ^ j) (2 ^ 53)) as [Hlt|Hge].
  - apply (round_ratio_small_inj false); [nia | exact Hn | exact Heq].
  - exfalso. rewrite Hx in Heq. apply round_ratio_large in Heq; [|lia].
    assert (Z.log2 n < 53) by (apply Z.log2_lt_pow2; lia). lia.
Qed.

Lemma shortest_small c fuel : forall k,
  0 <= c -> 1 <= k <= len (decimal n) -> len (decimal n) - k < Z.of_nat fuel ->
  forall s j,
    shortest fuel k (n * 10 ^ c) (len (decimal n) + c) c x = (s, j) ->
    0 < s /\ 0 <= j /\ s * 10 ^ j = n.
Proof.
  induction fuel as [|fuel IH]; intros k Hc Hk Hfuel s j; [lia|].
  cbn [shortest].
  remember (len (decimal n)) as dn eqn:Edn.
  replace (dn + c - k - c) with (dn - k) by lia.
  assert (Hu : 10 ^ (dn + c - k) = 10 ^ (dn - k) * 10 ^ c).
  { rewrite <- Z.pow_add_r by lia. f_equal. lia. }
  pose proof (pow10_pos c Hc) as Hpc.
  pose proof (pow10_pos (dn - k) ltac:(lia)) as Hpk.
  assert (Hlo : n * 10 ^ c / 10 ^ (dn + c - k) = n / 10 ^ (dn - k)).
  { rewrite Hu. apply Z.div_mul_cancel_r; lia. }
  rewrite Hlo.
  remember (n / 10 ^ (dn - k)) as lo eqn:Elo.
  assert (Hlo0 : 0 <= lo) by (subst lo; apply Z.div_pos; lia).
  destruct (norm10 (lo + 1) (dn - k)) as [hi jh] eqn:Hnorm.
  apply norm10_value in Hnorm as (Hhi & Hjh & Hval); [|lia..].
  destruct (number_eqb (round10 false lo (dn - k)) x) eqn:Hoklo;
    destruct (number_eqb (round10 false hi jh) x) eqn:Hokhi; cbn [andb].
  - apply candidate_is_n in Hoklo as [? ?]; [|lia..].
    apply candidate_is_n in Hokhi as [? ?]; [|lia..].
    repeat match goal with |- context [if ?b then _ else _] => destruct b end;
      intros [= <- <-]; lia.
  - apply candidate_is_n in Hoklo as [? ?]; [|lia..]. intros [= <- <-]. lia.
  - apply candidate_is_n in Hokhi as [? ?]; [|lia..]. intros [= <- <-]. lia.
  - destruct (Z.eq_dec k dn) as [->|Hne].
    + exfalso. rewrite Z.sub_diag in *. cbn in Elo. rewrite Z.div_1_r in Elo. subst lo.
      assert (E : round10 false n 0 = x).
      { rewrite round10_nat by lia. cbn. now rewrite Z.mul_1_r. }
      apply number_eqb_eq in E. congruence.
    + apply IH; lia.
Qed.

Lemma len_decimal_small : len (decimal n) <= 16.
Proof.
  pose proof (len_decimal_bounds n ltac:(lia)) as [H1 _].
  destruct (Z_le_gt_dec (len (decimal n)) 16) as [|Hgt]; [assumption|exfalso].
  assert (10 ^ 16 <= 10 ^ (len (decimal n) - 1)) by (apply Z.pow_le_mono_r; lia).
  change (2 ^ 53) with 9007199254740992 in Hn.
  change (10 ^ 16) with 10000000000000000 in *. lia.
Qed.

Lemma render_integer s j :
  0 < s -> 0 <= j -> s * 10 ^ j = n -> render s j = decimal n.
Proof.
  intros Hs Hj Hv. unfold render.
  assert (Hd : decimal n = decimal s ++ zeros (Z.to_nat j)).
  { rewrite <- Hv. rewrite <- (Z2Nat.id j) at 1 by lia. now apply decimal_mul_pow10. }
  assert (Hlen : len (decimal n) = len (decimal s) + j).
  { rewrite Hd, len_append. f_equal. unfold len.
    assert (Hz : forall m, String.length (zeros m) = m) by (induction m; cbn; congruence).
    rewrite Hz. lia. }
  pose proof len_decimal_small.
  destruct (Z.leb_spec (len (decimal s)) (len (decimal s) + j)); [|lia].
  destruct (Z.leb_spec (len (decimal s) + j) 21); [|lia].
  cbn [andb]. rewrite Hd. do 2 f_equal. lia.
Qed.

(** The string of a positive integer below 2^53 is its decimal numeral. *)
Lemma to_string_small : to_string (of_Z false n) = decimal n.
Proof.
  assert (Hx : of_Z false n = S754_finite false (small_mantissa n) (Z.log2 n - 52)).
  { unfold of_Z. destruct n eqn:E; try lia. rewrite <- E in *.
    apply round_ratio_small. lia. }
  rewrite Hx. unfold to_string.
  assert (Hl : Z.log2 n < 53) by (apply Z.log2_lt_pow2; lia).
  pose proof (Z.log2_nonneg n) as Hl0.
  assert (Hc : 0 < 2 ^ (52 - Z.log2 n)) by (apply pow2_pos; lia).
  assert (Hm : Zpos (small_mantissa n) = n * 2 ^ (52 - Z.log2 n)).
  { unfold small_mantissa. apply Z2Pos.id. nia. }
  assert (Hex : exact_decimal (small_mantissa n) (Z.log2 n - 52) =
                (n * 10 ^ (52 - Z.log2 n), 52 - Z.log2 n)).
  { unfold exact_decimal. rewrite Hm.
    destruct (Z.leb_spec 0 (Z.log2 n - 52)) as [H0|H0].
    - replace (Z.log2 n) with 52 by lia. rewrite !Z.sub_diag, !Z.pow_0_r.
      f_equal. lia.
    - replace (- (Z.log2 n - 52)) with (52 - Z.log2 n) by lia.
      rewrite <- Z.mul_assoc, <- Z.pow_mul_l. reflexivity. }
  rewrite Hex.
  remember (52 - Z.log2 n) as c eqn:Ec.
  assert (HL : len (decimal (n * 10 ^ c)) = len (decimal n) + c).
  { rewrite <- (Z2Nat.id c) at 1 by lia. rewrite decimal_mul_pow10, len_append by lia.
    f_equal. unfold len.
    assert (Hz : forall m, String.length (zeros m) = m) by (induction m; cbn; congruence).
    rewrite Hz. lia. }
  rewrite HL.
  destruct (shortest _ 1 _ _ _ _) as [s j] eqn:Hsh.
  rewrite <- Hx in Hsh.
  assert (Hofz : of_Z false n = x).
  { unfold of_Z, x. destruct n; try lia; reflexivity. }
  rewrite Hofz in Hsh.
  pose proof (len_decimal_bounds n ltac:(lia)) as [Hb1 Hb2].
  assert (Hdn : 1 <= len (decimal n)).
  { destruct (Z_le_gt_dec 1 (len (decimal n))); [assumption|exfalso].
    assert (len (decimal n) = 0) by (unfold len in *; lia).
    rewrite H in Hb2. cbn in Hb2. lia. }
  apply shortest_small in Hsh as (Hs & Hj & Hv); [|lia..].
  cbn [append]. now apply render_integer.
Qed.
End SmallIntegers.

Lemma round_ratio_sign s p q : round_ratio s p q = with_sign s (round_ratio false p q).
Proof.
  unfold round_ratio.
  destruct (shift_pair p q _) as [a b].
  destruct (if _ =? _ then _ else _) as [m2 e2].
  destruct m2; try reflexivity. destruct (e2 <=? 971); reflexivity.
Qed.

Lemma round10_sign s m j : round10 s m j = with_sign s (round10 false m j).
Proof.
  unfold round10. destruct (m =? 0); [reflexivity|].
  destruct (0 <=? j); apply round_ratio_sign.
Qed.

Lemma round10_frac s m j :
  0 < m -> j < 0 -> round10 s m j = round_ratio s m (10 ^ (- j)).
Proof.
  intros Hm Hj. unfold round10.
  destruct (Z.eqb_spec m 0); [lia|]. destruct (Z.leb_spec 0 j); [lia | reflexivity].
Qed.

(** The decimal expansion of a binary64 value rounds to it. *)
Lemma round10_exact m e D f :
  bounded 53 1024 m e = true ->
  exact_decimal m e = (D, f) ->
  0 < D /\ 0 <= f /\ round10 false D (- f) = S754_finite false m e.
Proof.
  intros Hb. unfold exact_decimal.
  destruct (Z.leb_spec 0 e) as [He|He]; intros [= <- <-].
  - pose proof (pow2_pos e He) as Hp.
    assert (HD : 0 < Zpos m * 2 ^ e) by (apply Z.mul_pos_pos; lia).
    split; [assumption|]. split; [lia|].
    change (- 0) with 0. rewrite round10_nat; [|assumption|lia].
    rewrite Z.pow_0_r, Z.mul_1_r.
    apply (round_ratio_exact _ _ _ m e (Zpos m * 2 ^ e) (2 ^ e)); try lia; try assumption.
    unfold shift_pair. destruct (Z.leb_spec 0 e); [|lia]. f_equal. lia.
  - assert (Hp5 : 0 < 5 ^ (- e)) by (apply Z.pow_pos_nonneg; lia).
    assert (HD : 0 < Zpos m * 5 ^ (- e)) by (apply Z.mul_pos_pos; lia).
    split; [assumption|]. split; [lia|].
    rewrite round10_frac; [|assumption|lia]. rewrite Z.opp_involutive.
    pose proof (pow10_pos (- e) ltac:(lia)) as Hp10.
    apply (round_ratio_exact _ _ _ m e (Zpos m * 5 ^ (- e) * 2 ^ (- e)) (10 ^ (- e)));
      try lia; try assumption.
    + unfold shift_pair. destruct (Z.leb_spec 0 e); [lia|]. reflexivity.
    + change 10 with (5 * 2). rewrite Z.pow_mul_l. ring.
Qed.

Lemma shortest_sound x D L f fuel : forall k d j,
  0 <= D ->
  (exists m e, x = S754_finite false m e) ->
  (0 < D /\ round10 false D (- f) = x) ->
  shortest fuel k D L f x = (d, j) ->
  0 < d /\ round10 false d j = x.
Proof.
  intros k d j HD [m [e Hx]] Hfall.
  assert (Hcand : forall s i, 0 <= s -> number_eqb (round10 false s i) x = true ->
                              0 < s /\ round10 false s i = x).
  { intros s i Hs Heq. apply number_eqb_eq in Heq. split; [|assumption].
    destruct (Z.eq_dec s 0) as [->|]; [|lia]. rewrite Hx in Heq. discriminate Heq. }
  revert k. induction fuel as [|fuel IH]; intros k; cbn [shortest].
  - intros [= <- <-]. exact Hfall.
  - assert (Hlo : 0 <= D / 10 ^ (L - k)).
    { destruct (Z_le_gt_dec 0 (L - k)).
      - apply Z.div_pos; [lia | apply pow10_pos; lia].
      - rewrite Z.pow_neg_r by lia. now rewrite Z.div_0_r. }
    remember (D / 10 ^ (L - k)) as lo eqn:Elo.
    destruct (norm10 (lo + 1) (L - k - f)) as [hi jh] eqn:Hnorm.
    assert (Hhi : 0 <= hi).
    { revert Hnorm. unfold norm10. destruct (_ =? _); intros [= <- <-]; [|lia].
      apply Z.div_pos; lia. }
    destruct (number_eqb (round10 false lo (L - k - f)) x) eqn:Hoklo;
      destruct (number_eqb (round10 false hi jh) x) eqn:Hokhi; cbn [andb].
    + repeat match goal with |- context [if ?b then _ else _] => destruct b end;
        intros [= <- <-]; auto.
    + intros [= <- <-]; auto.
    + intros [= <- <-]; auto.
    + apply IH.
Qed.

(** The digits that [to_string] lays out round back to the number. *)
Lemma to_string_digits s m e :
  bounded 53 1024 m e = true ->
  exists d j, 0 < d /\ round10 s d j = S754_finite s m e /\
              to_string (S754_finite s m e) = (if s then "-" else "") ++ render d j.
Proof.
  intros Hb. unfold to_string.
  destruct (exact_decimal m e) as [D f] eqn:Hex.
  pose proof (round10_exact m e D f Hb Hex) as (HD & Hf & Hr).
  destruct (shortest _ 1 D _ f _) as [d j] eqn:Hsh.
  apply shortest_sound in Hsh as [Hd Hrd]; [|lia|eauto|auto].
  exists d, j. split; [assumption|]. split; [|reflexivity].
  rewrite round10_sign, Hrd. reflexivity.
Qed.

(** *** Rounding gives values of binary64 *)

(** [ilog2_ratio p q] is the integer [E] with [2^E <= p / q < 2^(E+1)]. *)
Lemma ilog2_ratio_spec p q :
  0 < p -> 0 < q ->
  le_pow2 (ilog2_ratio p q) p q /\ ~ le_pow2 (ilog2_ratio p q + 1) p q.
Proof.
  intros Hp Hq.
  pose proof (Z.log2_spec p Hp) as [Hp1 Hp2].
  pose proof (Z.log2_spec q Hq) as [Hq1 Hq2].
  pose proof (Z.log2_nonneg p) as Hlp. pose proof (Z.log2_nonneg q) as Hlq.
  unfold ilog2_ratio.
  remember (Z.log2 p) as lp eqn:Elp. remember (Z.log2 q) as lq eqn:Elq.
  remember (lp + lq + 2) as K eqn:EK.
  assert (HK : 0 <= K) by lia.
  pose proof (pow2_pos K HK) as HpK.
  assert (Hlow : le_pow2 (lp - lq - 1) p q).
  { rewrite (le_pow2_scaled _ p q K) by lia.
    apply Z.le_trans with (2 ^ Z.succ lq * 2 ^ (lp - lq - 1 + K)).
    - apply Z.mul_le_mono_nonneg_r; [apply Z.lt_le_incl, pow2_pos|]; lia.
    - rewrite <- pow2_split by lia.
      replace (Z.succ lq + (lp - lq - 1 + K)) with (lp + K) by lia.
      rewrite pow2_split by lia. apply Z.mul_le_mono_nonneg_r; lia. }
  assert (Hhigh : ~ le_pow2 (lp - lq + 1) p q).
  { rewrite (le_pow2_scaled _ p q K) by lia. apply Z.lt_nge.
    apply Z.lt_le_trans with (2 ^ Z.succ lp * 2 ^ K).
    - apply Z.mul_lt_mono_pos_r; assumption.
    - rewrite <- pow2_split by lia.
      replace (Z.succ lp + K) with (lq + (lp - lq + 1 + K)) by lia.
      rewrite pow2_split by lia.
      apply Z.mul_le_mono_nonneg_r; [apply Z.lt_le_incl, pow2_pos|]; lia. }
  destruct (shift_pair p q (lp - lq)) as [a b] eqn:Hs.
  assert (Ht : le_pow2 (lp - lq) p q <-> b <= a) by (unfold le_pow2; now rewrite Hs).
  destruct (Z.leb_spec b a) as [Hba|Hba].
  - split; [tauto | assumption].
  - replace (lp - lq - 1 + 1) with (lp - lq) by lia. split; [assumption|].
    rewrite Ht. lia.
Qed.

Lemma digits2_le m n : 0 <= n -> Zpos m < 2 ^ n -> Zpos (digits2_pos m) <= n.
Proof.
  intros Hn Hm. pose proof (digits2_bounds m) as [H1 _].
  destruct (Z_le_gt_dec (Zpos (digits2_pos m)) n) as [|Hgt]; [assumption|exfalso].
  assert (2 ^ n <= 2 ^ (Zpos (digits2_pos m) - 1)) by (apply Z.pow_le_mono_r; lia). lia.
Qed.

Lemma digits2_gt m n : 0 <= n -> 2 ^ n <= Zpos m -> n < Zpos (digits2_pos m).
Proof.
  intros Hn Hm. pose proof (digits2_bounds m) as [_ H2].
  destruct (Z_lt_ge_dec n (Zpos (digits2_pos m))) as [|Hge]; [assumption|exfalso].
  assert (2 ^ Zpos (digits2_pos m) <= 2 ^ n) by (apply Z.pow_le_mono_r; lia). lia.
Qed.

Lemma bounded_intro m e :
  Z.max (Zpos (digits2_pos m) + e - 53) (-1074) = e -> e <= 971 ->
  bounded 53 1024 m e = true.
Proof.
  intros Hc He. unfold bounded, canonical_mantissa, fexp, emin.
  apply andb_true_iff. split; [apply Z.eqb_eq | apply Z.leb_le]; cbn in *; lia.
Qed.

(** The quotient of [shift_pair] at the exponent that rounding chooses:
    below 2^53, from 2^52 on for a normal number, and below 2^52 for a
    subnormal one. *)
Lemma mantissa_bounds p q a b :
  0 < p -> 0 < q ->
  shift_pair p q (Z.max (ilog2_ratio p q - 52) (-1074)) = (a, b) ->
  0 < b /\ 0 <= a / b < 2 ^ 53 /\
  (-1074 <= ilog2_ratio p q - 52 -> 2 ^ 52 <= a / b) /\
  (ilog2_ratio p q - 52 < -1074 -> a / b < 2 ^ 52).
Proof.
  intros Hp Hq Hs.
  destruct (ilog2_ratio_spec p q Hp Hq) as [Hle Hgt].
  remember (ilog2_ratio p q) as E eqn:HE. clear HE.
  remember (Z.max (E - 52) (-1074)) as e eqn:He.
  remember (Z.abs E + Z.abs e + 60) as K eqn:EK.
  assert (HK : 0 <= K) by lia. assert (HeK : 0 <= e + K) by lia.
  pose proof (shift_pair_scaled p q e K a b HK HeK Hs) as Hsc.
  pose proof (shift_pair_pos p q e a b Hp Hq Hs) as [Ha Hb].
  rewrite (le_pow2_scaled E p q K) in Hle by lia.
  rewrite (le_pow2_scaled (E + 1) p q K) in Hgt by lia.
  apply Z.nle_gt in Hgt.
  pose proof (pow2_pos (e + K) HeK) as HX.
  remember (2 ^ (e + K)) as X eqn:EX.
  remember (p * 2 ^ K) as P eqn:EP.
  (* [a * X >= b * 2^(E+K)] and [a * X < b * 2^(E+1+K)] *)
  assert (Hlo : b * 2 ^ (E + K) <= a * X).
  { apply Z.mul_le_mono_pos_l with q; [assumption|].
    replace (q * (a * X)) with (a * (q * X)) by ring. rewrite Hsc.
    replace (q * (b * 2 ^ (E + K))) with (b * (q * 2 ^ (E + K))) by ring.
    apply Z.mul_le_mono_nonneg_l; lia. }
  assert (Hhi : a * X < b * 2 ^ (E + 1 + K)).
  { apply Z.mul_lt_mono_pos_l with q; [assumption|].
    replace (q * (a * X)) with (a * (q * X)) by ring. rewrite Hsc.
    replace (q * (b * 2 ^ (E + 1 + K))) with (b * (q * 2 ^ (E + 1 + K))) by ring.
    apply Z.mul_lt_mono_pos_l; lia. }
  assert (Hup : a < b * 2 ^ 53).
  { apply Z.mul_lt_mono_pos_r with X; [assumption|].
    eapply Z.lt_le_trans; [exact Hhi|].
    rewrite <- Z.mul_assoc. apply Z.mul_le_mono_nonneg_l; [lia|].
    rewrite EX, <- pow2_split by lia. apply Z.pow_le_mono_r; lia. }
  split; [assumption|]. split.
  - split; [apply Z.div_pos; lia|]. apply Z.div_lt_upper_bound; lia.
  - split.
    + intros Hn. apply Z.div_le_lower_bound; [assumption|].
      apply Z.mul_le_mono_pos_r with X; [assumption|].
      eapply Z.le_trans; [|exact Hlo].
      rewrite <- Z.mul_assoc. apply Z.mul_le_mono_nonneg_l; [lia|].
      rewrite EX, <- pow2_split by lia. apply Z.pow_le_mono_r; lia.
    + intros Hsub. apply Z.div_lt_upper_bound; [assumption|].
      apply Z.mul_lt_mono_pos_r with X; [assumption|].
      eapply Z.lt_le_trans; [exact Hhi|].
      rewrite <- Z.mul_assoc. apply Z.mul_le_mono_nonneg_l; [lia|].
      rewrite EX, <- pow2_split by lia. apply Z.pow_le_mono_r; lia.
Qed.

(** Rounding gives a value of binary64. *)
Lemma round_ratio_valid s p q :
  0 < p -> 0 < q -> valid_binary 53 1024 (round_ratio s p q) = true.
Proof.
  intros Hp Hq. unfold round_ratio.
  destruct (shift_pair p q _) as [a b] eqn:Hs.
  destruct (mantissa_bounds p q a b Hp Hq Hs) as (Hb & [Hm0 Hm53] & Hnorm & Hsub).
  remember (ilog2_ratio p q) as E eqn:HE. clear HE.
  remember (a / b) as m eqn:Em.
  set (m1 := match 2 * (a mod b) ?= b with
             | Eq => if Z.even m then m else m + 1
             | Lt => m
             | Gt => m + 1
             end).
  assert (Hm1 : m <= m1 <= m + 1).
  { unfold m1. destruct (2 * (a mod b) ?= b); [destruct (Z.even m)| |]; lia. }
  clearbody m1.
  change (2 ^ 53) with 9007199254740992 in *. change (2 ^ 52) with 4503599627370496 in *.
  destruct (Z.eqb_spec m1 9007199254740992) as [H53|H53].
  - (* the mantissa rounds up to 2^53 *)
    assert (Hn : -1074 <= E - 52).
    { destruct (Z_le_gt_dec (-1074) (E - 52)); [assumption|]. specialize (Hsub ltac:(lia)). lia. }
    rewrite Z.max_l by lia.
    destruct (Z.leb_spec (E - 52 + 1) 971); [|reflexivity].
    cbn [valid_binary]. apply bounded_intro; [|assumption].
    change (Zpos (digits2_pos 4503599627370496)) with 53. lia.
  - destruct m1 as [|mp|mp]; try reflexivity.
    destruct (Z.leb_spec (Z.max (E - 52) (-1074)) 971) as [He|He]; [|reflexivity].
    cbn [valid_binary]. apply bounded_intro; [|assumption].
    assert (Hd : Zpos (digits2_pos mp) <= 53).
    { apply digits2_le; [lia|]. change (2 ^ 53) with 9007199254740992. lia. }
    destruct (Z_le_gt_dec (-1074) (E - 52)) as [Hn|Hn].
    + specialize (Hnorm Hn).
      assert (52 < Zpos (digits2_pos mp)).
      { apply digits2_gt; [lia|]. change (2 ^ 52) with 4503599627370496. lia. }
      lia.
    + lia.
Qed.

Lemma round10_valid s m j : 0 <= m -> valid_binary 53 1024 (round10 s m j) = true.
Proof.
  intros Hm. unfold round10. destruct (Z.eqb_spec m 0); [reflexivity|].
  destruct (Z.leb_spec 0 j).
  - apply round_ratio_valid; [|lia]. pose proof (pow10_pos j). nia.
  - apply round_ratio_valid; [lia|]. apply pow10_pos. lia.
Qed.

Lemma round10_not_nan s m j : round10 s m j <> S754_nan.
Proof.
  unfold round10. destruct (m =? 0); [discriminate|].
  assert (H : forall p q, round_ratio s p q <> S754_nan).
  { intros p q. unfold round_ratio. destruct (shift_pair p q _) as [a b].
    destruct (if _ =? _ then _ else _) as [m2 e2].
    destruct m2; try discriminate. destruct (e2 <=? 971); discriminate. }
  destruct (0 <=? j); apply H.
Qed.


End NumFacts.

(** ** JSON text *)

Module JsonFacts.
Import Chars Num StringFacts NumFacts JS JSON.

Lemma span_digits_app a : forall b,
  all_chars is_digit a = true ->
  match b with String c _ => is_digit c = false | EmptyString => True end ->
  span_digits (a ++ b) = (a, b).
Proof.
  induction a as [|c a IH]; intros b Ha Hb.
  - cbn. destruct b as [|c b]; [reflexivity|]. cbn. now rewrite Hb.
  - cbn in Ha. apply andb_true_iff in Ha as [Hc Ha].
    cbn. rewrite Hc, IH by assumption. reflexivity.
Qed.

Lemma ends_number_no_digit rest :
  ends_number rest = true ->
  match rest with String c _ => is_digit c = false | EmptyString => True end.
Proof.
  destruct rest as [|c r]; [trivial|]. cbn. intros H.
  repeat (apply andb_true_iff in H as [H ?]). now apply negb_true_iff.
Qed.

Lemma parse_fraction_none rest :
  ends_number rest = true -> parse_fraction rest = Some ("", rest).
Proof.
  destruct rest as [|c r]; [reflexivity|]. cbn. intros H.
  repeat (apply andb_true_iff in H as [H ?]).
  destruct (code c =? 46); [discriminate | reflexivity].
Qed.

Lemma parse_exponent_none rest :
  ends_number rest = true -> parse_exponent rest = Some (0, rest).
Proof.
  destruct rest as [|c r]; [reflexivity|]. cbn. intros H.
  repeat (apply andb_true_iff in H as [H ?]).
  destruct (code c =? 101); [discriminate|]. destruct (code c =? 69); [discriminate|].
  reflexivity.
Qed.

Lemma digits_val_zeros z : forall acc, digits_val acc (zeros z) = acc * 10 ^ Z.of_nat z.
Proof.
  induction z as [|z IH]; intros acc.
  - cbn. lia.
  - cbn [zeros digits_val]. rewrite IH. rewrite Nat2Z.inj_succ, Z.pow_succ_r by lia.
    change (digit_val "0") with 0. ring.
Qed.

Lemma all_digits_zeros z : all_chars is_digit (zeros z) = true.
Proof. induction z; cbn; [reflexivity | assumption]. Qed.

Lemma length_zeros z : String.length (zeros z) = z.
Proof. induction z; cbn; congruence. Qed.

Lemma eqb_empty_app a b : a <> "" -> String.eqb (a ++ b) "" = false.
Proof. destruct a; [congruence | reflexivity]. Qed.

Lemma substring_whole s : substring 0 (String.length s) s = s.
Proof. induction s; cbn; [reflexivity | now rewrite IHs]. Qed.

(** Splitting a string at [n]. *)
Lemma substring_split s : forall n,
  (n <= String.length s)%nat ->
  s = substring 0 n s ++ substring n (String.length s - n) s /\
  String.length (substring 0 n s) = n.
Proof.
  induction s as [|c s IH]; intros n Hn.
  - cbn in Hn. replace n with 0%nat by lia. cbn. auto.
  - destruct n as [|n].
    + rewrite Nat.sub_0_r, substring_whole. cbn. auto.
    + cbn [substring append String.length Nat.sub]. cbn in Hn.
      destruct (IH n ltac:(lia)) as [H1 H2]. rewrite <- H1, H2. auto.
Qed.

Lemma code_inj c c' : code c = code c' -> c = c'.
Proof.
  unfold code. intros H. apply N2Z.inj in H.
  rewrite <- (ascii_N_embedding c), <- (ascii_N_embedding c'). now rewrite H.
Qed.

Lemma decimal_nonempty n : 0 <= n -> decimal n <> "".
Proof.
  intros Hn. destruct (Z_lt_ge_dec n 10).
  - rewrite decimal_small by lia. discriminate.
  - rewrite decimal_step by lia. destruct (decimal (n / 10)); discriminate.
Qed.

Lemma leading_zero_head c t :
  c <> "0"%char -> leading_zero (String c t) = false.
Proof.
  intros Hc. unfold leading_zero. destruct t; [reflexivity|].
  apply Z.eqb_neq. intros H. apply Hc. now apply code_inj.
Qed.

Lemma round10_pow s d j : 0 < d -> 0 <= j -> round10 s (d * 10 ^ j) 0 = round10 s d j.
Proof.
  intros Hd Hj. pose proof (pow10_pos j Hj).
  rewrite !round10_nat by nia. now rewrite Z.pow_0_r, Z.mul_1_r.
Qed.

Section Render.
Variable d : Z.
Hypothesis Hd : 0 < d.
Variable rest : string.
Hypothesis Hrest : ends_number rest = true.
Variable neg : bool.

Lemma ds_facts ds :
  ds = decimal d ->
  all_chars is_digit ds = true /\ digits_val 0 ds = d /\ 1 <= len ds /\
  exists c t, ds = String c t /\ is_digit c = true /\ c <> "0"%char.
Proof.
  intros ->.
  split; [apply decimal_digits; lia|]. split; [apply digits_val_decimal; lia|].
  destruct (decimal_head d Hd) as (c & t & E & Hc & Hz).
  split; [|eauto]. unfold len. rewrite E. cbn [String.length]. lia.
Qed.

(** An integer part [a] without leading zero, then [s2]. *)
Lemma parse_unsigned_parts a s2 fp s3 x :
  all_chars is_digit a = true ->
  (exists c t, a = String c t /\ (c <> "0"%char \/ t = "")) ->
  match s2 with String c _ => is_digit c = false | EmptyString => True end ->
  parse_fraction s2 = Some (fp, s3) ->
  parse_exponent s3 = Some (x, rest) ->
  parse_unsigned neg (a ++ s2) =
  Some (round10 neg (digits_val 0 (a ++ fp)) (x - len fp), rest).
Proof.
  intros Ha (c & t & -> & Hc) Hs2 Hf He. unfold parse_unsigned.
  rewrite span_digits_app by assumption.
  assert (Hlz : leading_zero (String c t) = false).
  { destruct Hc as [Hc | ->]; [now apply leading_zero_head | reflexivity]. }
  rewrite Hlz. cbn [String.eqb orb]. rewrite Hf, He. reflexivity.
Qed.

Lemma parse_fraction_digits b s3 :
  b <> "" -> all_chars is_digit b = true ->
  match s3 with String c _ => is_digit c = false | EmptyString => True end ->
  parse_fraction (String "." (b ++ s3)) = Some (b, s3).
Proof.
  intros Hb Hd' Hs3. unfold parse_fraction. change (code "." =? 46) with true. cbn iota.
  rewrite span_digits_app by assumption.
  destruct b; [congruence | reflexivity].
Qed.

Lemma parse_exponent_signed ex :
  parse_exponent (String "e" ((if ex <? 0 then "-" else "+") ++ decimal (Z.abs ex) ++ rest))
  = Some (ex, rest).
Proof.
  unfold parse_exponent. change ((code "e" =? 101) || (code "e" =? 69)) with true. cbn iota.
  assert (Hsp : span_digits (decimal (Z.abs ex) ++ rest) = (decimal (Z.abs ex), rest)).
  { apply span_digits_app; [apply decimal_digits; lia | now apply ends_number_no_digit]. }
  assert (Hne : String.eqb (decimal (Z.abs ex)) "" = false).
  { apply String.eqb_neq. apply decimal_nonempty. lia. }
  destruct (Z.ltb_spec ex 0); cbn [append]; [change (code "-" =? 45) with true
    | change (code "+" =? 45) with false; change (code "+" =? 43) with true];
    cbn iota; rewrite Hsp, Hne, digits_val_decimal by lia; do 2 f_equal; lia.
Qed.

(** [ds] cut at [n]: two strings of digits, the first with the head of
    [ds]. *)
Lemma ds_split ds n :
  ds = decimal d ->
  (1 <= n < String.length ds)%nat ->
  exists a b,
    substring 0 n ds = a /\ substring n (String.length ds - n) ds = b /\
    ds = a ++ b /\ len a = Z.of_nat n /\ len b = len ds - Z.of_nat n /\
    all_chars is_digit a = true /\ all_chars is_digit b = true /\ b <> "" /\
    exists c t, a = String c t /\ (c <> "0"%char \/ t = "").
Proof.
  intros Hds Hn.
  destruct (ds_facts ds Hds) as (Hdig & Hval & Hlen & c & t & Eds & Hc & Hz).
  clear Hds.
  destruct (substring_split ds n ltac:(lia)) as [Hsplit Hla].
  remember (substring 0 n ds) as a eqn:Ea.
  remember (substring n (String.length ds - n) ds) as b eqn:Eb.
  exists a, b. split; [reflexivity|]. split; [reflexivity|]. split; [assumption|].
  assert (Hlb : String.length b = (String.length ds - n)%nat).
  { pose proof (f_equal String.length Hsplit) as Hl. rewrite length_append in Hl. lia. }
  split; [unfold len; lia|]. split; [unfold len; lia|].
  rewrite Hsplit, all_chars_app in Hdig. apply andb_true_iff in Hdig as [Hda Hdb].
  split; [assumption|]. split; [assumption|].
  split; [destruct b; [cbn in Hlb; lia | discriminate]|].
  destruct a as [|c' t']; [cbn in Hla; lia|].
  rewrite Eds in Hsplit. cbn in Hsplit. injection Hsplit as <- _.
  exists c, t'. auto.
Qed.

(** Reading back the layout of the digits [d] and the exponent [j]. *)
Lemma parse_unsigned_render j :
  parse_unsigned neg (render d j ++ rest) = Some (round10 neg d j, rest).
Proof.
  unfold render. remember (decimal d) as ds eqn:Hds.
  destruct (ds_facts ds Hds) as (Hdig & Hval & Hlen & c & t & Eds & Hc & Hz).
  pose proof (ends_number_no_digit rest Hrest) as Hnd.
  assert (Hk : len ds = Z.of_nat (String.length ds)) by reflexivity.
  remember (len ds) as k eqn:Ek.
  destruct ((k <=? k + j) && (k + j <=? 21)) eqn:C1.
  - (* the digits, then zeros *)
    apply andb_true_iff in C1 as [C1 _]. apply Z.leb_le in C1.
    etransitivity;
      [apply (parse_unsigned_parts (ds ++ zeros (Z.to_nat (k + j - k))) rest "" rest 0)|].
    + rewrite all_chars_app, Hdig. apply all_digits_zeros.
    + rewrite Eds. cbn [append]. eauto.
    + assumption.
    + now apply parse_fraction_none.
    + now apply parse_exponent_none.
    + rewrite append_nil_r, digits_val_app, Hval, digits_val_zeros.
      rewrite Z2Nat.id by lia. replace (k + j - k) with j by lia.
      change (0 - len "") with 0. f_equal. f_equal. apply round10_pow; lia.
  - destruct ((0 <? k + j) && (k + j <=? 21)) eqn:C2.
    + (* a point inside the digits *)
      apply andb_true_iff in C2 as [C2 C2']. apply Z.ltb_lt in C2. apply Z.leb_le in C2'.
      apply andb_false_iff in C1 as [C1 | C1];
        [apply Z.leb_gt in C1 | apply Z.leb_gt in C1; lia].
      assert (Hn : (1 <= Z.to_nat (k + j) < String.length ds)%nat) by lia.
      destruct (ds_split ds (Z.to_nat (k + j)) Hds Hn)
        as (a & b & Ea & Eb & Hsplit & Hla & Hlb & Hda & Hdb & Hbne & Hhead).
      replace (Z.to_nat (k - (k + j))) with (String.length ds - Z.to_nat (k + j))%nat by lia.
      rewrite Ea, Eb. rewrite !append_assoc.
      etransitivity;
        [apply (parse_unsigned_parts a (String "." (b ++ rest)) b rest 0)|].
      * assumption.
      * assumption.
      * reflexivity.
      * now apply parse_fraction_digits.
      * now apply parse_exponent_none.
      * rewrite <- Hsplit, Hval. do 3 f_equal. lia.
    + destruct ((-6 <? k + j) && (k + j <=? 0)) eqn:C3.
      * (* zeros after the point, then the digits *)
        apply andb_true_iff in C3 as [_ C3]. apply Z.leb_le in C3.
        rewrite !append_assoc.
        etransitivity;
          [apply (parse_unsigned_parts "0"
                    (String "." (zeros (Z.to_nat (- (k + j))) ++ ds ++ rest))
                    (zeros (Z.to_nat (- (k + j))) ++ ds) rest 0)|].
        -- reflexivity.
        -- exists "0"%char, "". auto.
        -- reflexivity.
        -- rewrite <- append_assoc. apply parse_fraction_digits.
           ++ rewrite Eds. destruct (zeros _); discriminate.
           ++ rewrite all_chars_app, all_digits_zeros. assumption.
           ++ assumption.
        -- now apply parse_exponent_none.
        -- cbn [append digits_val]. change (10 * 0 + digit_val "0") with 0.
           rewrite digits_val_app, digits_val_zeros, Z.mul_0_l, Hval.
           rewrite len_append. unfold len at 1. rewrite length_zeros.
           do 3 f_equal. lia.
      * (* exponent notation *)
        destruct (Z.eqb_spec k 1) as [Hk1|Hk1].
        -- rewrite !append_assoc.
           etransitivity;
             [apply (parse_unsigned_parts ds
                       (String "e" ((if k + j - 1 <? 0 then "-" else "+")
                                    ++ decimal (Z.abs (k + j - 1)) ++ rest))
                       ""
                       (String "e" ((if k + j - 1 <? 0 then "-" else "+")
                                    ++ decimal (Z.abs (k + j - 1)) ++ rest))
                       (k + j - 1))|].
           ++ assumption.
           ++ rewrite Eds. eauto.
           ++ reflexivity.
           ++ reflexivity.
           ++ apply parse_exponent_signed.
           ++ rewrite append_nil_r, Hval. do 3 f_equal. change (len "") with 0. lia.
        -- assert (Hn : (1 <= 1 < String.length ds)%nat) by lia.
           destruct (ds_split ds 1%nat Hds Hn)
             as (a & b & Ea & Eb & Hsplit & Hla & Hlb & Hda & Hdb & Hbne & Hhead).
           replace (Z.to_nat (k - 1)) with (String.length ds - 1)%nat by lia.
           rewrite Ea, Eb. rewrite !append_assoc.
           etransitivity;
             [apply (parse_unsigned_parts a
                       (String "." (b ++ String "e"
                                      ((if k + j - 1 <? 0 then "-" else "+")
                                       ++ decimal (Z.abs (k + j - 1)) ++ rest)))
                       b
                       (String "e" ((if k + j - 1 <? 0 then "-" else "+")
                                    ++ decimal (Z.abs (k + j - 1)) ++ rest))
                       (k + j - 1))|].
           ++ assumption.
           ++ assumption.
           ++ reflexivity.
           ++ now apply parse_fraction_digits.
           ++ apply parse_exponent_signed.
           ++ rewrite <- Hsplit, Hval. do 3 f_equal. lia.
Qed.

End Render.

Lemma parse_unsigned_head neg s r :
  parse_unsigned neg s = Some r -> exists c t, s = String c t /\ is_digit c = true.
Proof.
  unfold parse_unsigned. destruct s as [|c t]; [discriminate|].
  cbn [span_digits]. destruct (is_digit c) eqn:E.
  - intros _. exists c, t. auto.
  - cbn. discriminate.
Qed.

Lemma parse_number_unsigned s r :
  parse_unsigned false s = Some r -> parse_number s = Some r.
Proof.
  intros H. destruct (parse_unsigned_head _ _ _ H) as (c & t & -> & Hc).
  unfold parse_number. destruct (Z.eqb_spec (code c) 45) as [E|]; [|assumption].
  unfold is_digit in Hc. rewrite E in Hc. discriminate Hc.
Qed.

(** Reading back the string of a finite number other than zero. *)
Lemma parse_number_to_string s m e rest :
  bounded 53 1024 m e = true ->
  ends_number rest = true ->
  parse_number (Num.to_string (S754_finite s m e) ++ rest) = Some (S754_finite s m e, rest).
Proof.
  intros Hb Hrest.
  destruct (to_string_digits s m e Hb) as (d & j & Hd & Hr & ->).
  rewrite append_assoc. destruct s.
  - cbn [append]. unfold parse_number. change (code "-" =? 45) with true. cbn iota.
    rewrite parse_unsigned_render by assumption. now rewrite Hr.
  - cbn [append]. apply parse_number_unsigned.
    rewrite parse_unsigned_render by assumption. now rewrite Hr.
Qed.

Lemma parse_number_zero rest :
  ends_number rest = true ->
  parse_number ("0" ++ rest) = Some (S754_zero false, rest).
Proof.
  intros Hrest. apply parse_number_unsigned.
  etransitivity; [apply (parse_unsigned_parts rest false "0" rest "" rest 0)|].
  - reflexivity.
  - exists "0"%char, "". auto.
  - now apply ends_number_no_digit.
  - now apply parse_fraction_none.
  - now apply parse_exponent_none.
  - reflexivity.
Qed.

(** Reading back a quoted string. *)
Lemma parse_quote_char c tail :
  parse_chars (quote_char c ++ tail) = cons_char c (parse_chars tail).
Proof. destruct c as [[] [] [] [] [] [] [] []]; reflexivity. Qed.

Lemma parse_quote_chars s rest :
  parse_chars (quote_chars s ++ dquote ++ rest) = Some (s, rest).
Proof.
  induction s as [|c s IH].
  - reflexivity.
  - cbn [quote_chars]. rewrite append_assoc, parse_quote_char, IH. reflexivity.
Qed.

(** A new key [k] that every key of [l] may precede goes to the end. *)
Lemma define_property_last l : forall k v later,
  keys_ordered (app (map fst l) (k :: later)) = true ->
  define_property l (k, v) = app l [(k, v)].
Proof.
  intros k v later Hord.
  assert (Hkey : has_key k l = false /\
                 forall i, array_index k = Some i -> insert_index i k v l = app l [(k, v)]).
  { induction l as [|[k0 v0] l IH]; [split; reflexivity|].
    cbn [map fst app keys_ordered] in Hord.
    apply andb_true_iff in Hord as [Hord Hrec].
    apply andb_true_iff in Hord as [Hnew Hfor].
    destruct (IH Hrec) as [IHk IHi].
    rewrite existsb_app in Hnew. cbn [existsb] in Hnew.
    apply negb_true_iff in Hnew. apply orb_false_iff in Hnew as [_ Hnew].
    apply orb_false_iff in Hnew as [Hne _].
    rewrite forallb_app in Hfor. apply andb_true_iff in Hfor as [_ Hfor].
    cbn [forallb] in Hfor. apply andb_true_iff in Hfor as [Hfor _].
    split.
    - cbn [has_key]. rewrite String.eqb_sym, Hne. exact IHk.
    - intros i Hi. cbn [insert_index app]. rewrite Hi in Hfor.
      destruct (array_index k0) as [i0|]; [|discriminate].
      apply Z.ltb_lt in Hfor. destruct (Z.ltb_spec i i0); [lia|].
      now rewrite IHi. }
  destruct Hkey as [Hk Hi]. unfold define_property. rewrite Hk.
  destruct (array_index k) as [i|]; [now apply Hi | reflexivity].
Qed.

(** Creating the properties of an object in property order gives the
    object back. *)
Lemma define_properties l : forall acc,
  keys_ordered (map fst (app acc l)) = true ->
  fold_left define_property l acc = app acc l.
Proof.
  induction l as [|[k v] l IH]; intros acc Hord.
  - cbn. now rewrite app_nil_r.
  - cbn [fold_left]. rewrite map_app in Hord. cbn [map fst] in Hord.
    rewrite (define_property_last acc k v (map fst l)) by assumption.
    rewrite IH.
    + now rewrite <- app_assoc.
    + rewrite <- app_assoc. cbn [app]. rewrite map_app. exact Hord.
Qed.

(** Induction on a value, with the property for the elements of an array
    and for the values of the members of an object. *)
Lemma value_induction (P : value -> Prop) :
  P VUndef -> P VNull -> (forall b, P (VBool b)) -> (forall n, P (VNum n)) ->
  (forall s, P (VStr s)) ->
  (forall l, Forall P l -> P (VArr l)) ->
  (forall l, Forall (fun kv => P (snd kv)) l -> P (VObj l)) ->
  forall v, P v.
Proof.
  intros Hu Hn Hb Hnum Hs Harr Hobj. fix IH 1.
  intros [ | | b | n | s | l | l];
    [exact Hu | exact Hn | apply Hb | apply Hnum | apply Hs | | ].
  - apply Harr. induction l as [|x l IHl]; constructor; [apply IH | exact IHl].
  - apply Hobj. induction l as [|[k x] l IHl]; constructor; [apply IH | exact IHl].
Qed.

Lemma serialize_arr indent l :
  serialize indent (VArr l) = Some (bracket "[" "]" indent (elements (indent ++ gap) l)).
Proof.
  reflexivity.
Qed.

Lemma serialize_obj indent l :
  serialize indent (VObj l) = Some (bracket "{" "}" indent (members (indent ++ gap) l)).
Proof.
  cbn [serialize]. do 2 f_equal.
  induction l as [|[k x] l IH]; cbn [members]; [reflexivity | now rewrite IH].
Qed.

Lemma skip_ws_spaces indent s :
  spaces indent = true -> no_space_head s = true -> skip_ws (indent ++ s) = s.
Proof.
  intros Hi Hs. induction indent as [|c i IH].
  - destruct s as [|c s]; [reflexivity|]. cbn in *. apply negb_true_iff in Hs.
    now rewrite Hs.
  - cbn in Hi. apply andb_true_iff in Hi as [Hc Hi]. cbn [append skip_ws].
    unfold is_ws. rewrite Hc. cbn [orb]. now apply IH.
Qed.

Lemma skip_ws_line indent s :
  spaces indent = true -> no_space_head s = true -> skip_ws (nl ++ indent ++ s) = s.
Proof. intros Hi Hs. cbn. now apply skip_ws_spaces. Qed.

Lemma skip_ws_head s : no_space_head s = true -> skip_ws s = s.
Proof. intros Hs. apply (skip_ws_spaces "" s); [reflexivity | assumption]. Qed.

Lemma spaces_gap indent : spaces indent = true -> spaces (indent ++ gap) = true.
Proof. intros H. unfold spaces in *. rewrite all_chars_app, H. reflexivity. Qed.

Lemma stops_ends_number rest : stops rest = true -> ends_number rest = true.
Proof.
  destruct rest as [|c r]; [reflexivity|]. cbn. intros H.
  apply orb_true_iff in H as [H | H]; apply Z.eqb_eq in H.
  - assert (c = ","%char) as -> by (apply code_inj; exact H). reflexivity.
  - assert (c = ascii_of_nat 10) as -> by (apply code_inj; exact H). reflexivity.
Qed.

Lemma parse_value_number fuel c r :
  is_digit c = true \/ c = "-"%char ->
  parse_value (S fuel) (String c r) =
  match parse_number (String c r) with
  | Some (x, r') => Some (VNum x, r')
  | None => None
  end.
Proof.
  intros H.
  destruct c as [[] [] [] [] [] [] [] []];
    try reflexivity; exfalso; destruct H as [H | H]; discriminate H.
Qed.

Lemma parse_number_head s r :
  parse_number s = Some r ->
  exists c t, s = String c t /\ (is_digit c = true \/ c = "-"%char).
Proof.
  unfold parse_number. destruct s as [|c t]; [discriminate|].
  destruct (Z.eqb_spec (code c) 45) as [E|E].
  - intros _. exists c, t. split; [reflexivity|]. right. now apply code_inj.
  - intros H. apply parse_unsigned_head in H as (c' & t' & [= <- <-] & Hc). eauto.
Qed.

Lemma skip_ws_idem s : skip_ws (skip_ws s) = skip_ws s.
Proof.
  induction s as [|c s IH]; [reflexivity|]. cbn [skip_ws].
  destruct (is_ws c) eqn:E; [exact IH|]. cbn [skip_ws]. now rewrite E.
Qed.

Lemma parse_value_skip fuel s : parse_value fuel s = parse_value fuel (skip_ws s).
Proof. destruct fuel; [reflexivity|]. cbn [parse_value]. now rewrite skip_ws_idem. Qed.

Lemma parse_elements_step fuel s :
  parse_elements (S fuel) s =
  match parse_value fuel s with
  | Some (v, r) =>
      match skip_ws r with
      | String "," r' =>
          match parse_elements fuel r' with
          | Some (l, r'') => Some (v :: l, r'')
          | None => None
          end
      | String "]" r' => Some ([v], r')
      | _ => None
      end
  | None => None
  end.
Proof. reflexivity. Qed.

Lemma parse_elements_skip fuel s : parse_elements fuel s = parse_elements fuel (skip_ws s).
Proof.
  destruct fuel; [reflexivity|]. rewrite !parse_elements_step.
  now rewrite <- parse_value_skip.
Qed.

Lemma parse_members_step fuel s :
  parse_members (S fuel) s =
  match skip_ws s with
  | String q r =>
      if code q =? 34 then
        match parse_chars r with
        | Some (k, r1) =>
            match skip_ws r1 with
            | String ":" r2 =>
                match parse_value fuel r2 with
                | Some (v, r3) =>
                    match skip_ws r3 with
                    | String "," r4 =>
                        match parse_members fuel r4 with
                        | Some (l, r5) => Some ((k, v) :: l, r5)
                        | None => None
                        end
                    | String "}" r4 => Some ([(k, v)], r4)
                    | _ => None
                    end
                | None => None
                end
            | _ => None
            end
        | None => None
        end
      else None
  | EmptyString => None
  end.
Proof. reflexivity. Qed.

Lemma parse_members_skip fuel s : parse_members fuel s = parse_members fuel (skip_ws s).
Proof.
  destruct fuel; [reflexivity|]. rewrite !parse_members_step. now rewrite skip_ws_idem.
Qed.

Lemma parse_value_array fuel r :
  value_start (skip_ws r) = true ->
  parse_value (S fuel) (String "[" r) =
  match parse_elements fuel (skip_ws r) with
  | Some (l, r') => Some (VArr l, r')
  | None => None
  end.
Proof.
  intros H. cbn [parse_value]. change (skip_ws (String "[" r)) with (String "[" r).
  cbv iota beta. destruct (skip_ws r) as [|c t]; [discriminate H|].
  destruct c as [[] [] [] [] [] [] [] []]; try reflexivity; discriminate H.
Qed.

Lemma parse_value_object fuel r t :
  skip_ws r = String (ascii_of_nat 34) t ->
  parse_value (S fuel) (String "{" r) =
  match parse_members fuel (skip_ws r) with
  | Some (l, r') => Some (VObj (fold_left define_property l []), r')
  | None => None
  end.
Proof.
  intros H. cbn [parse_value]. change (skip_ws (String "{" r)) with (String "{" r).
  cbv iota beta. rewrite H. reflexivity.
Qed.

Lemma parse_value_string fuel r :
  parse_value (S fuel) (String (ascii_of_nat 34) r) =
  match parse_chars r with
  | Some (t, r') => Some (VStr t, r')
  | None => None
  end.
Proof. reflexivity. Qed.

Lemma value_start_number c t :
  is_digit c = true \/ c = "-"%char -> value_start (String c t) = true.
Proof.
  intros H. destruct c as [[] [] [] [] [] [] [] []];
    try reflexivity; exfalso; destruct H as [H | H]; discriminate H.
Qed.

Lemma value_start_no_space s : value_start s = true -> no_space_head s = true.
Proof.
  destruct s as [|c t]; [discriminate|]. cbn. intros H.
  apply andb_true_iff in H as [H _]. now apply andb_true_iff in H as [H _].
Qed.

Lemma value_start_app s r : value_start s = true -> value_start (s ++ r) = true.
Proof. destruct s; [discriminate | trivial]. Qed.

Lemma plain_serialize indent v : plain v = true -> exists t, serialize indent v = Some t.
Proof. destruct v; try discriminate; intros _; eexists; reflexivity. Qed.

Lemma stops_line s : stops (nl ++ s) = true.
Proof. reflexivity. Qed.

Lemma reads_back_elements l :
  Forall (fun x => plain x = true -> reads_back x) l ->
  forallb plain l = true -> l <> [] ->
  forall indent stepback rest fuel,
    spaces indent = true -> spaces stepback = true ->
    (String.length (String.concat (separator indent) (elements indent l)) < fuel)%nat ->
    parse_elements fuel
      (String.concat (separator indent) (elements indent l)
         ++ nl ++ stepback ++ "]" ++ rest) = Some (l, rest)
    /\ value_start (String.concat (separator indent) (elements indent l)) = true.
Proof.
  intros HP. induction HP as [|x l Hx HP IH]; intros Hplain Hne; [congruence|].
  intros indent stepback rest fuel Hi Hs Hfuel.
  cbn [forallb] in Hplain. apply andb_true_iff in Hplain as [Hpx Hpl].
  destruct (plain_serialize indent x Hpx) as [t Ht].
  specialize (Hx Hpx).
  destruct fuel as [|fuel]; [lia|].
  destruct l as [|y l].
  - (* the last element *)
    cbn [elements map String.concat] in *. rewrite Ht in *.
    destruct (Hx indent (nl ++ stepback ++ "]" ++ rest) fuel t Hi (stops_line _) Ht
                ltac:(lia)) as [Hparse Hstart].
    split; [|assumption].
    rewrite parse_elements_step, Hparse, skip_ws_line by (assumption || reflexivity).
    reflexivity.
  - (* an element and a separator *)
    assert (Hcat : String.concat (separator indent) (elements indent (x :: y :: l)) =
                   t ++ separator indent
                     ++ String.concat (separator indent) (elements indent (y :: l))).
    { cbn [elements map String.concat]. now rewrite Ht. }
    rewrite Hcat in *. rewrite !length_append in Hfuel.
    assert (Hsep : (2 <= String.length (separator indent))%nat)
      by (unfold separator; cbn [append nl String.length]; lia).
    destruct (IH Hpl ltac:(discriminate) indent stepback rest fuel Hi Hs ltac:(lia))
      as [IHparse IHstart].
    set (tail := String.concat (separator indent) (elements indent (y :: l))) in *.
    destruct (Hx indent (separator indent ++ tail ++ nl ++ stepback ++ "]" ++ rest)
                fuel t Hi eq_refl Ht ltac:(lia)) as [Hparse Hstart].
    split; [|now apply value_start_app].
    rewrite !append_assoc.
    rewrite parse_elements_step, Hparse. unfold separator at 1.
    cbn [append skip_ws]. change (is_ws ",") with false. cbv iota.
    rewrite parse_elements_skip, (append_assoc nl indent).
    change (String "]" rest) with ("]" ++ rest).
    rewrite skip_ws_line; [|assumption|].
    + now rewrite IHparse.
    + apply value_start_no_space. now apply value_start_app.
Qed.

Lemma member_text k t r :
  (quote k ++ ": " ++ t) ++ r =
  String (ascii_of_nat 34) (quote_chars k ++ dquote ++ String ":" (" " ++ t ++ r)).
Proof. unfold quote. rewrite !append_assoc. reflexivity. Qed.

(** Reading one member: the key, the colon, the value. *)
Lemma parse_member_head fuel k t x r :
  parse_value fuel (t ++ r) = Some (x, r) -> value_start t = true ->
  parse_members (S fuel) ((quote k ++ ": " ++ t) ++ r) =
  match skip_ws r with
  | String "," r4 =>
      match parse_members fuel r4 with
      | Some (l, r5) => Some ((k, x) :: l, r5)
      | None => None
      end
  | String "}" r4 => Some ([(k, x)], r4)
  | _ => None
  end.
Proof.
  intros Hparse Hstart.
  rewrite parse_members_step, member_text.
  change (skip_ws (String (ascii_of_nat 34) ?s)) with (String (ascii_of_nat 34) s).
  cbv iota beta. change (code (ascii_of_nat 34) =? 34) with true. cbv iota.
  rewrite parse_quote_chars.
  change (skip_ws (String ":" ?s)) with (String ":" s). cbv iota beta.
  rewrite parse_value_skip.
  rewrite (skip_ws_spaces " " (t ++ r)); [|reflexivity|].
  - now rewrite Hparse.
  - apply value_start_no_space. now apply value_start_app.
Qed.

Lemma reads_back_members l :
  Forall (fun kv => plain (snd kv) = true -> reads_back (snd kv)) l ->
  forallb (fun kv => match kv with (_, x) => plain x end) l = true -> l <> [] ->
  forall indent stepback rest fuel,
    spaces indent = true -> spaces stepback = true ->
    (String.length (String.concat (separator indent) (members indent l)) < fuel)%nat ->
    parse_members fuel
      (String.concat (separator indent) (members indent l)
         ++ nl ++ stepback ++ "}" ++ rest) = Some (l, rest)
    /\ exists t, String.concat (separator indent) (members indent l)
                 = String (ascii_of_nat 34) t.
Proof.
  intros HP. induction HP as [|[k x] l Hx HP IH]; intros Hplain Hne; [congruence|].
  intros indent stepback rest fuel Hi Hs Hfuel.
  cbn [forallb] in Hplain. apply andb_true_iff in Hplain as [Hpx Hpl].
  destruct (plain_serialize indent x Hpx) as [t Ht].
  cbn [snd] in Hx. specialize (Hx Hpx).
  destruct fuel as [|fuel]; [lia|].
  assert (Hq : forall r, exists t', (quote k ++ ": " ++ t) ++ r = String (ascii_of_nat 34) t').
  { intros r. rewrite member_text. eauto. }
  destruct l as [|[k' y] l].
  - (* the last member *)
    cbn [members String.concat] in *. rewrite Ht in *. cbn [String.concat] in *.
    rewrite !length_append in Hfuel.
    destruct (Hx indent (nl ++ stepback ++ "}" ++ rest) fuel t Hi (stops_line _) Ht
                ltac:(lia)) as [Hparse Hstart].
    split.
    + rewrite (parse_member_head fuel k t x _ Hparse Hstart).
      rewrite skip_ws_line by (assumption || reflexivity). reflexivity.
    + destruct (Hq "") as [t' Ht']. rewrite append_nil_r in Ht'. eauto.
  - (* a member and a separator *)
    assert (Hcat : String.concat (separator indent) (members indent ((k, x) :: (k', y) :: l)) =
                   (quote k ++ ": " ++ t) ++ separator indent
                     ++ String.concat (separator indent) (members indent ((k', y) :: l))).
    { destruct (plain_serialize indent y) as [ty Hy].
      { cbn [forallb] in Hpl. now apply andb_true_iff in Hpl as [Hpl _]. }
      cbn [members]. rewrite Ht, Hy. reflexivity. }
    rewrite Hcat in *. rewrite !length_append in Hfuel.
    assert (Hsep : (2 <= String.length (separator indent))%nat)
      by (unfold separator; cbn [append nl String.length]; lia).
    destruct (IH Hpl ltac:(discriminate) indent stepback rest fuel Hi Hs ltac:(lia))
      as [IHparse IHhead].
    set (tail := String.concat (separator indent) (members indent ((k', y) :: l))) in *.
    destruct (Hx indent (separator indent ++ tail ++ nl ++ stepback ++ "}" ++ rest)
                fuel t Hi eq_refl Ht ltac:(lia)) as [Hparse Hstart].
    split; [|apply Hq].
    rewrite (append_assoc (quote k ++ ": " ++ t)), (append_assoc (separator indent)).
    rewrite (parse_member_head fuel k t x _ Hparse Hstart).
    unfold separator at 1.
    cbn [append skip_ws]. change (is_ws ",") with false. cbv iota.
    rewrite parse_members_skip, (append_assoc nl indent).
    change (String "}" rest) with ("}" ++ rest).
    rewrite skip_ws_line; [|assumption|].
    + now rewrite IHparse.
    + destruct IHhead as [t' Ht']. rewrite Ht'. reflexivity.
Qed.

Lemma bracket_text opening closing stepback a items r :
  bracket opening closing stepback (a :: items) ++ r =
  opening ++ nl ++ (stepback ++ gap)
    ++ String.concat (separator (stepback ++ gap)) (a :: items)
    ++ nl ++ stepback ++ closing ++ r.
Proof. unfold bracket, separator. now rewrite !append_assoc. Qed.

Lemma length_bracket opening closing stepback a items :
  (String.length (String.concat (separator (stepback ++ gap)) (a :: items))
   + String.length opening + String.length closing + 2
   <= String.length (bracket opening closing stepback (a :: items)))%nat.
Proof.
  unfold bracket. fold (separator (stepback ++ gap)).
  rewrite !length_append. cbn [nl String.length]. lia.
Qed.

Lemma length_bracket_min opening closing stepback items :
  (String.length opening + String.length closing
   <= String.length (bracket opening closing stepback items))%nat.
Proof.
  unfold bracket. destruct items; rewrite !length_append; lia.
Qed.

(** Every plain value is read back from its text. *)
Lemma plain_reads_back v : plain v = true -> reads_back v.
Proof.
  induction v as [ | | b | n | s | l IH | l IH] using value_induction;
    intros Hplain indent rest fuel t Hi Hrest Ht Hfuel.
  - discriminate Hplain.
  - injection Ht as <-. destruct fuel as [|fuel]; [cbn in Hfuel; lia|]. split; reflexivity.
  - injection Ht as <-. destruct fuel as [|fuel]; [destruct b; cbn in Hfuel; lia|].
    destruct b; split; reflexivity.
  - (* a number *)
    pose proof (stops_ends_number rest Hrest) as Hend.
    assert (Hnum : parse_number (t ++ rest) = Some (n, rest)).
    { destruct n as [[]| | |sg m e]; try discriminate Hplain; injection Ht as <-.
      - now apply parse_number_zero.
      - now apply parse_number_to_string. }
    destruct (parse_number_head _ _ Hnum) as (c & t' & Hhead & Hc).
    destruct t as [|c0 t0].
    { exfalso. cbn in Hhead. rewrite Hhead in Hrest. cbn in Hrest.
      destruct c as [[] [] [] [] [] [] [] []]; try discriminate Hrest;
        destruct Hc as [Hc | Hc]; discriminate Hc. }
    cbn in Hhead. injection Hhead as -> <-.
    destruct fuel as [|fuel]; [cbn in Hfuel; lia|].
    split; [|now apply value_start_number].
    cbn [append]. rewrite parse_value_number by assumption.
    cbn [append] in Hnum. now rewrite Hnum.
  - (* a string *)
    injection Ht as <-. destruct fuel as [|fuel]; [cbn in Hfuel; lia|].
    split; [|reflexivity].
    unfold quote. rewrite !append_assoc.
    change (dquote ++ ?x) with (String (ascii_of_nat 34) x).
    rewrite parse_value_string, parse_quote_chars. reflexivity.
  - (* an array *)
    rewrite serialize_arr in Ht. injection Ht as <-.
    cbn [plain] in Hplain.
    destruct fuel as [|fuel].
    { pose proof (length_bracket_min "[" "]" indent (elements (indent ++ gap) l)) as Hm.
      cbn [String.length] in Hm. lia. }
    destruct l as [|x l]; [split; reflexivity|].
    split; [|reflexivity].
    assert (Hi' : spaces (indent ++ gap) = true) by now apply spaces_gap.
    cbn [elements map] in *.
    pose proof (length_bracket "[" "]" indent
                  match serialize (indent ++ gap) x with Some t => t | None => "null" end
                  (map (fun x => match serialize (indent ++ gap) x with
                                 | Some t => t | None => "null" end) l)) as Hlen.
    destruct (reads_back_elements (x :: l) IH Hplain ltac:(discriminate)
                (indent ++ gap) indent rest fuel Hi' Hi)
      as [Hparse Hstart]; [cbn [elements map]; cbn [String.length] in Hlen; lia|].
    cbn [elements map] in Hparse, Hstart.
    rewrite bracket_text. change ("[" ++ ?x) with (String "[" x).
    assert (Hskip : skip_ws (nl ++ (indent ++ gap)
                       ++ String.concat (separator (indent ++ gap))
                            (match serialize (indent ++ gap) x with
                             | Some t => t | None => "null" end
                             :: map (fun x => match serialize (indent ++ gap) x with
                                              | Some t => t | None => "null" end) l)
                       ++ nl ++ indent ++ "]" ++ rest)
                    = String.concat (separator (indent ++ gap))
                        (match serialize (indent ++ gap) x with
                         | Some t => t | None => "null" end
                         :: map (fun x => match serialize (indent ++ gap) x with
                                          | Some t => t | None => "null" end) l)
                      ++ nl ++ indent ++ "]" ++ rest).
    { apply skip_ws_line; [assumption|].
      apply value_start_no_space. now apply value_start_app. }
    rewrite parse_value_array; rewrite Hskip.
    + now rewrite Hparse.
    + now apply value_start_app.
  - (* an object *)
    rewrite serialize_obj in Ht. injection Ht as <-.
    cbn [plain] in Hplain. apply andb_true_iff in Hplain as [Hkeys Hplain].
    destruct fuel as [|fuel].
    { pose proof (length_bracket_min "{" "}" indent (members (indent ++ gap) l)) as Hm.
      cbn [String.length] in Hm. lia. }
    destruct l as [|[k x] l]; [split; reflexivity|].
    split; [|destruct (members _ _); reflexivity].
    assert (Hi' : spaces (indent ++ gap) = true) by now apply spaces_gap.
    destruct (plain_serialize (indent ++ gap) x) as [tx Hx].
    { cbn [forallb] in Hplain. now apply andb_true_iff in Hplain as [Hplain _]. }
    assert (Hmem : members (indent ++ gap) ((k, x) :: l) =
                   (quote k ++ ": " ++ tx) :: members (indent ++ gap) l).
    { cbn [members]. now rewrite Hx. }
    pose proof (length_bracket "{" "}" indent (quote k ++ ": " ++ tx)
                  (members (indent ++ gap) l)) as Hlen.
    destruct (reads_back_members ((k, x) :: l) IH Hplain ltac:(discriminate)
                (indent ++ gap) indent rest fuel Hi' Hi)
      as [Hparse [hd Hhead]];
      [rewrite Hmem in *; cbn [String.length] in Hlen; lia|].
    rewrite Hmem in *. rewrite bracket_text. change ("{" ++ ?x) with (String "{" x).
    assert (Hskip : skip_ws (nl ++ (indent ++ gap)
                       ++ String.concat (separator (indent ++ gap))
                            ((quote k ++ ": " ++ tx) :: members (indent ++ gap) l)
                       ++ nl ++ indent ++ "}" ++ rest)
                    = String.concat (separator (indent ++ gap))
                        ((quote k ++ ": " ++ tx) :: members (indent ++ gap) l)
                      ++ nl ++ indent ++ "}" ++ rest).
    { apply skip_ws_line; [assumption|]. rewrite Hhead. reflexivity. }
    rewrite (parse_value_object fuel _ (hd ++ nl ++ indent ++ "}" ++ rest));
      rewrite Hskip.
    + rewrite Hparse. now rewrite (define_properties ((k, x) :: l) []).
    + now rewrite Hhead.
Qed.

(** [JSON.parse(JSON.stringify(v, null, 2))] is [v] for a plain [v]. *)
Lemma parse_stringify v :
  plain v = true -> exists t, stringify v = Some t /\ parse t = Some v.
Proof.
  intros Hv. destruct (plain_serialize "" v Hv) as [t Ht]. exists t. split; [exact Ht|].
  destruct (plain_reads_back v Hv "" "" (S (String.length t)) t eq_refl eq_refl Ht
              ltac:(lia)) as [Hparse _].
  unfold parse. rewrite append_nil_r in Hparse. rewrite Hparse. reflexivity.
Qed.

(** *** What [JSON.parse] reads *)

Lemma span_digits_digits s : forall d r,
  span_digits s = (d, r) -> all_chars is_digit d = true.
Proof.
  induction s as [|c s IH]; intros d r; cbn [span_digits].
  - intros [= <- <-]. reflexivity.
  - destruct (is_digit c) eqn:Hc.
    + destruct (span_digits s) as [d' r']. intros [= <- <-].
      cbn [all_chars]. rewrite Hc. now apply (IH d' r').
    + intros [= <- <-]. reflexivity.
Qed.

Lemma digits_val_nonneg s : forall acc,
  all_chars is_digit s = true -> 0 <= acc -> 0 <= digits_val acc s.
Proof.
  induction s as [|c s IH]; intros acc Hs Hacc; [assumption|].
  cbn [all_chars] in Hs. apply andb_true_iff in Hs as [Hc Hs].
  cbn [digits_val]. apply IH; [assumption|].
  unfold is_digit in Hc. apply andb_true_iff in Hc as [Hc _]. apply Z.leb_le in Hc.
  unfold digit_val. lia.
Qed.

Lemma parse_fraction_is_digits s fp r :
  parse_fraction s = Some (fp, r) -> all_chars is_digit fp = true.
Proof.
  unfold parse_fraction. destruct s as [|c s]; [intros [= <- <-]; reflexivity|].
  destruct (code c =? 46).
  - destruct (span_digits s) as [d r'] eqn:Hsp. destruct (String.eqb d ""); [discriminate|].
    intros [= <- <-]. now apply (span_digits_digits s d r').
  - intros [= <- <-]. reflexivity.
Qed.

(** A number that is read is a value of binary64. *)
Lemma parse_unsigned_valid neg s x r :
  parse_unsigned neg s = Some (x, r) ->
  valid_binary 53 1024 x = true /\ x <> S754_nan.
Proof.
  unfold parse_unsigned. destruct (span_digits s) as [ip s2] eqn:Hip.
  destruct (String.eqb ip "" || leading_zero ip); [discriminate|].
  destruct (parse_fraction s2) as [[fp s3]|] eqn:Hfp; [|discriminate].
  destruct (parse_exponent s3) as [[ex s4]|]; [|discriminate].
  intros [= <- <-]. split; [|apply round10_not_nan].
  apply round10_valid. apply digits_val_nonneg; [|lia].
  rewrite all_chars_app, (span_digits_digits s ip s2 Hip).
  now rewrite (parse_fraction_is_digits s2 fp s3 Hfp).
Qed.

Lemma parse_number_valid s x r :
  parse_number s = Some (x, r) -> parsed (VNum x) = true.
Proof.
  unfold parse_number. destruct s as [|c t]; [discriminate|].
  intros H. assert (Hx : valid_binary 53 1024 x = true /\ x <> S754_nan).
  { destruct (code c =? 45); eapply parse_unsigned_valid; exact H. }
  destruct Hx as [Hv Hn]. cbn [parsed]. destruct x; try assumption. congruence.
Qed.

(** *** Property order *)

Lemma array_index_decimal k i : array_index k = Some i -> k = decimal i.
Proof.
  unfold array_index. destruct (all_chars is_digit k); [|discriminate].
  destruct (String.eqb_spec k (decimal (digits_val 0 k))) as [E|]; [|discriminate].
  cbn [andb]. destruct (_ <=? _); [|discriminate]. now intros [= <-].
Qed.

Lemma keys_replace k v l : map fst (replace k v l) = map fst l.
Proof.
  induction l as [|[k' v'] l IH]; [reflexivity|]. cbn [replace].
  destruct (String.eqb k k'); cbn [map fst]; [reflexivity | now rewrite IH].
Qed.

Lemma keys_insert_index f i k v l :
  forallb f (map fst (insert_index i k v l)) = f k && forallb f (map fst l).
Proof.
  induction l as [|[k' v'] l IH]; [reflexivity|]. cbn [insert_index].
  destruct (array_index k'); [destruct (i <? z)|]; cbn [map fst forallb]; try reflexivity.
  rewrite IH. destruct (f k), (f k'); reflexivity.
Qed.

Lemma has_key_existsb k l : has_key k l = existsb (String.eqb k) (map fst l).
Proof.
  induction l as [|[k' v'] l IH]; [reflexivity|]. cbn [has_key map fst existsb].
  now rewrite IH.
Qed.

Lemma not_existsb_forallb {A} (f : A -> bool) l :
  negb (existsb f l) = forallb (fun x => negb (f x)) l.
Proof.
  induction l as [|x l IH]; [reflexivity|]. cbn [existsb forallb].
  now rewrite negb_orb, IH.
Qed.

Lemma insert_index_ordered i k v l :
  array_index k = Some i -> has_key k l = false ->
  keys_ordered (map fst l) = true ->
  keys_ordered (map fst (insert_index i k v l)) = true.
Proof.
  intros Hi. induction l as [|[k' v'] l IH]; intros Hk Hord; [reflexivity|].
  cbn [has_key] in Hk. apply orb_false_iff in Hk as [Hne Hk].
  assert (Hfirst : negb (existsb (String.eqb k) (k' :: map fst l)) = true).
  { cbn [existsb]. rewrite Hne, <- has_key_existsb, Hk. reflexivity. }
  cbn [insert_index].
  destruct (array_index k') as [i'|] eqn:Hi'; [destruct (Z.ltb_spec i i') as [Hlt|Hge]|];
    pose proof Hord as Hall; cbn [map fst keys_ordered] in Hord;
    apply andb_true_iff in Hord as [Hord Hrec];
    apply andb_true_iff in Hord as [Hnew Hfor].
  - cbn [map fst keys_ordered] in Hall |- *. rewrite Hfirst, Hall.
    rewrite andb_true_r. cbn [andb forallb]. rewrite Hi, Hi'.
    apply andb_true_iff. split; [now apply Z.ltb_lt|].
    apply forallb_forall. intros k2 Hin.
    rewrite forallb_forall in Hfor. specialize (Hfor k2 Hin).
    cbv beta in Hfor. rewrite Hi' in Hfor.
    destruct (array_index k2) as [i2|]; [|reflexivity].
    apply Z.ltb_lt in Hfor. apply Z.ltb_lt. lia.
  - cbn [map fst keys_ordered]. apply andb_true_iff; split; [apply andb_true_iff; split|].
    + rewrite not_existsb_forallb, keys_insert_index, <- not_existsb_forallb, Hnew.
      rewrite String.eqb_sym, Hne. reflexivity.
    + rewrite keys_insert_index, Hfor, Hi', Hi, andb_true_r.
      apply Z.ltb_lt. assert (i <> i'); [|lia]. intros ->.
      apply array_index_decimal in Hi, Hi'. subst k k'. now rewrite String.eqb_refl in Hne.
    + now apply IH.
  - cbn [map fst keys_ordered] in Hall |- *. rewrite Hfirst, Hall.
    rewrite andb_true_r. cbn [andb forallb]. rewrite Hi, Hi'. cbn [andb].
    apply forallb_forall. intros k2 Hin.
    rewrite forallb_forall in Hfor. specialize (Hfor k2 Hin).
    cbv beta in Hfor. rewrite Hi' in Hfor.
    destruct (array_index k2) as [i2|]; [discriminate | reflexivity].
Qed.

Lemma append_ordered k ks :
  array_index k = None -> existsb (String.eqb k) ks = false ->
  keys_ordered ks = true -> keys_ordered (app ks [k]) = true.
Proof.
  intros Hi. induction ks as [|k' ks IH]; intros Hk Hord.
  - cbn. reflexivity.
  - cbn [existsb] in Hk. apply orb_false_iff in Hk as [Hne Hk].
    cbn [keys_ordered] in Hord.
    apply andb_true_iff in Hord as [Hord Hrec].
    apply andb_true_iff in Hord as [Hnew Hfor].
    cbn [app keys_ordered]. apply andb_true_iff; split; [apply andb_true_iff; split|].
    + rewrite existsb_app. cbn [existsb]. apply negb_true_iff in Hnew.
      rewrite Hnew, String.eqb_sym, Hne. reflexivity.
    + rewrite forallb_app, Hfor. cbn [forallb]. rewrite Hi.
      destruct (array_index k'); reflexivity.
    + now apply IH.
Qed.

(** CreateDataProperty keeps an object in property order. *)
Lemma define_property_ordered l k v :
  keys_ordered (map fst l) = true ->
  keys_ordered (map fst (define_property l (k, v))) = true.
Proof.
  intros Hord. unfold define_property. destruct (has_key k l) eqn:Hk.
  - now rewrite keys_replace.
  - destruct (array_index k) as [i|] eqn:Hi.
    + now apply insert_index_ordered.
    + rewrite map_app. apply append_ordered; [assumption| |assumption].
      now rewrite <- has_key_existsb.
Qed.

Section Values.
Variable P : value -> bool.

Lemma define_property_values l k v :
  P v = true ->
  forallb (fun kv => match kv with (_, x) => P x end) l = true ->
  forallb (fun kv => match kv with (_, x) => P x end) (define_property l (k, v)) = true.
Proof.
  intros Hv Hl. unfold define_property. destruct (has_key k l).
  - induction l as [|[k' v'] l IH]; [reflexivity|].
    cbn [forallb] in Hl. apply andb_true_iff in Hl as [Hv' Hl]. cbn [replace].
    destruct (String.eqb k k'); cbn [forallb]; [now rewrite Hv, Hl | now rewrite Hv', (IH Hl)].
  - destruct (array_index k) as [i|].
    + induction l as [|[k' v'] l IH]; [cbn; now rewrite Hv|].
      pose proof Hl as Hl'. cbn [forallb] in Hl. apply andb_true_iff in Hl as [Hv' Hl].
      cbn [insert_index].
      destruct (array_index k'); [destruct (i <? z)|];
        try (cbn [forallb] in Hl' |- *; now rewrite Hv, Hl').
      cbn [forallb]. now rewrite Hv', (IH Hl).
    + rewrite forallb_app, Hl. cbn. now rewrite Hv.
Qed.

Lemma lookup_values k l :
  forallb (fun kv => match kv with (_, x) => P x end) l = true ->
  lookup k l = VUndef \/ P (lookup k l) = true.
Proof.
  induction l as [|[k' v'] l IH]; [now left|]. intros Hl.
  cbn [forallb] in Hl. apply andb_true_iff in Hl as [Hv' Hl]. cbn [lookup].
  destruct (String.eqb k k'); [now right | now apply IH].
Qed.

End Values.

(** The properties created one after the other are in property order. *)
Lemma define_properties_parsed l : forall acc,
  parsed (VObj acc) = true ->
  forallb (fun kv => match kv with (_, x) => parsed x end) l = true ->
  parsed (VObj (fold_left define_property l acc)) = true.
Proof.
  induction l as [|[k v] l IH]; intros acc Hacc Hl; [exact Hacc|].
  cbn [forallb] in Hl. apply andb_true_iff in Hl as [Hv Hl].
  cbn [fold_left]. apply IH; [|assumption].
  cbn [parsed] in *. apply andb_true_iff in Hacc as [Hord Hvals].
  apply andb_true_iff. split.
  - now apply define_property_ordered.
  - now apply (define_property_values parsed).
Qed.

Lemma parsed_ordinary_plain v : parsed v = true -> ordinary v = true -> plain v = true.
Proof.
  induction v as [ | | b | n | s | l IH | l IH] using value_induction;
    try (intros; solve [reflexivity | discriminate]).
  - cbn. destruct n; auto.
  - cbn [parsed ordinary plain]. induction IH as [|x l Hx _ IHl]; [reflexivity|].
    cbn [forallb]. intros Hp Ho.
    apply andb_true_iff in Hp as [Hp1 Hp2]. apply andb_true_iff in Ho as [Ho1 Ho2].
    now rewrite Hx, IHl.
  - cbn [parsed ordinary plain]. intros Hp Ho.
    apply andb_true_iff in Hp as [Hord Hp]. rewrite Hord. cbn [andb]. clear Hord.
    induction IH as [|[k x] l Hx _ IHl]; [reflexivity|].
    cbn [forallb] in *. cbn [snd] in Hx.
    apply andb_true_iff in Hp as [Hp1 Hp2]. apply andb_true_iff in Ho as [Ho1 Ho2].
    rewrite Hx, IHl; auto.
Qed.

Ltac split_match :=
  repeat match goal with
         | |- match ?x with _ => _ end = Some _ -> _ =>
             first [is_var x; destruct x | destruct x eqn:?]
         end.

Ltac choose tac := first [solve [tac] | left; solve [tac] | right; choose tac].

Ltac found :=
  first [reflexivity
        | eexists; reflexivity
        | do 2 eexists; split; [eassumption | reflexivity]].

(** What [parse_value] reads. *)
Lemma parse_value_cases fuel s v r :
  parse_value (S fuel) s = Some (v, r) ->
  v = VNull \/ (exists b, v = VBool b) \/ (exists t, v = VStr t) \/
  (exists s0 x, parse_number s0 = Some (x, r) /\ v = VNum x) \/
  v = VArr [] \/ (exists r0 l, parse_elements fuel r0 = Some (l, r) /\ v = VArr l) \/
  v = VObj [] \/
  (exists r0 l, parse_members fuel r0 = Some (l, r) /\
                v = VObj (fold_left define_property l [])).
Proof.
  cbn [parse_value]. split_match; try discriminate; intros [= <- <-]; choose found.
Qed.

Lemma parse_elements_cases fuel s l r :
  parse_elements (S fuel) s = Some (l, r) ->
  exists v r1, parse_value fuel s = Some (v, r1) /\
    (l = [v] \/ exists r2 l', parse_elements fuel r2 = Some (l', r) /\ l = v :: l').
Proof.
  rewrite parse_elements_step.
  destruct (parse_value fuel s) as [[v r1]|]; [|discriminate].
  intros H. exists v, r1. split; [reflexivity|]. revert H.
  split_match; try discriminate; intros [= <- <-]; choose found.
Qed.

Lemma parse_members_cases fuel s l r :
  parse_members (S fuel) s = Some (l, r) ->
  exists k v r2 r3, parse_value fuel r2 = Some (v, r3) /\
    (l = [(k, v)] \/
     exists r4 l', parse_members fuel r4 = Some (l', r) /\ l = (k, v) :: l').
Proof.
  rewrite parse_members_step.
  destruct (skip_ws s) as [|q s1]; [discriminate|].
  destruct (code q =? 34); [|discriminate].
  destruct (parse_chars s1) as [[k r1]|]; [|discriminate].
  destruct (skip_ws r1) as [|c r2]; [discriminate|].
  destruct c as [[] [] [] [] [] [] [] []]; try discriminate.
  destruct (parse_value fuel r2) as [[v r3]|] eqn:Hv; [|discriminate].
  intros H. exists k, v, r2, r3. split; [exact Hv|]. revert H.
  split_match; try discriminate; intros [= <- <-]; choose found.
Qed.

(** What [JSON.parse] reads is a value in which every number is a value of
    binary64 other than NaN and every object is in property order. *)
Lemma parse_value_parsed fuel :
  (forall s v r, parse_value fuel s = Some (v, r) -> parsed v = true) /\
  (forall s l r, parse_elements fuel s = Some (l, r) -> forallb parsed l = true) /\
  (forall s l r, parse_members fuel s = Some (l, r) ->
                 forallb (fun kv => match kv with (_, x) => parsed x end) l = true).
Proof.
  induction fuel as [|fuel (IHv & IHe & IHm)]; [repeat split; discriminate|].
  repeat split.
  - intros s v r H.
    destruct (parse_value_cases fuel s v r H)
      as [-> | [[b ->] | [[t ->] | [(s0 & x & Hx & ->) | [-> | [(r0 & l & Hl & ->)
          | [-> | (r0 & l & Hl & ->)]]]]]]]; try reflexivity.
    + exact (parse_number_valid s0 x r Hx).
    + exact (IHe r0 l r Hl).
    + apply define_properties_parsed; [reflexivity | exact (IHm r0 l r Hl)].
  - intros s l r H.
    destruct (parse_elements_cases fuel s l r H) as (v & r1 & Hv & [-> | (r2 & l' & Hl & ->)]);
      cbn [forallb]; rewrite (IHv s v r1 Hv); [reflexivity|].
    exact (IHe r2 l' r Hl).
  - intros s l r H.
    destruct (parse_members_cases fuel s l r H)
      as (k & v & r2 & r3 & Hv & [-> | (r4 & l' & Hl & ->)]);
      cbn [forallb]; rewrite (IHv r2 v r3 Hv); [reflexivity|].
    exact (IHm r4 l' r Hl).
Qed.

End JsonFacts.

(** ** The RPC client and the handlers *)

Import Chars JS Eff Rpc Zod Tools StringFacts NumFacts JsonFacts.

Lemma makeRpcCall_run net method params url tr :
  makeRpcCall net method params url tr =
  match rpc_result (net url (envelope method params)) with
  | inl v => (Return v, app tr [Post url (envelope method params)])
  | inr e => (Throw e,
              app tr [Post url (envelope method params);
                      ConsoleError ["Error making RPC call to " ++ method ++ ":"; message e]])
  end.
Proof.
  unfold makeRpcCall, try_catch, bind, axios_post, rpc_result, prop, str, lift,
    console_error, emit, throw, ret.
  destruct (net url (envelope method params)) as [e|data].
  - rewrite <- app_assoc. reflexivity.
  - destruct (get data "error") as [err|e].
    + destruct (to_boolean err).
      * destruct (get err "message") as [msg|e]; [|rewrite <- app_assoc; reflexivity].
        destruct (to_string msg); rewrite <- app_assoc; reflexivity.
      * destruct (get data "result"); [reflexivity | rewrite <- app_assoc; reflexivity].
    + rewrite <- app_assoc. reflexivity.
Qed.

(** The conversion of a primitive value to a string does not throw. *)
Lemma primitive_to_string v : primitive v = true -> exists s, to_string v = inl s.
Proof. destruct v; try discriminate; intros _; eexists; reflexivity. Qed.

Lemma lookup_primitive k args :
  primitive_values args = true -> primitive (lookup k args) = true.
Proof.
  induction args as [|[k' v] args IH]; [reflexivity|]. cbn [primitive_values forallb].
  intros H. apply andb_true_iff in H as [Hv Hrest]. cbn [lookup].
  destruct (String.eqb k k'); [exact Hv | now apply IH].
Qed.

Lemma argument_string args k :
  primitive_values args = true -> exists s, to_string (lookup k args) = inl s.
Proof. intros H. apply primitive_to_string. now apply lookup_primitive. Qed.

(** What a schema lets through is primitive. *)
Lemma parse_primitive t : forall v w, parse t v = Some w -> primitive w = true.
Proof.
  induction t as [ | r | | | t IH | t IH d]; intros v w; cbn [parse].
  - destruct v; try discriminate. now intros [= <-].
  - destruct v; try discriminate. destruct (test r s); [|discriminate]. now intros [= <-].
  - destruct v; try discriminate. now intros [= <-].
  - destruct v as [| | |n| | |]; try discriminate. destruct n; try discriminate; now intros [= <-].
  - destruct v; try (now intros [= <-]); apply IH.
  - destruct v; apply IH.
Qed.

Lemma parse_object_primitive sh : forall input args,
  parse_object sh input = inl args -> primitive_values args = true.
Proof.
  induction sh as [|[k t] sh IH]; intros input args; cbn [parse_object].
  - now intros [= <-].
  - destruct (parse t (lookup k input)) as [v|] eqn:Hv; [|discriminate].
    destruct (parse_object sh input) as [rest|] eqn:Hrest; [|discriminate].
    intros [= <-]. pose proof (parse_primitive t _ _ Hv) as Hp.
    pose proof (IH input rest Hrest) as Hr.
    destruct v; try exact Hr; cbn [primitive_values forallb]; rewrite Hp; exact Hr.
Qed.

Ltac each_tool H :=
  unfold registerTools in H; cbn [In] in H;
  repeat (destruct H as [H | H]; [subst | ]); [ .. | contradiction H].

Ltac unfold_handler :=
  cbv beta iota delta
    [callback eth_getBalance eth_blockNumber eth_getTransactionCount
     eth_getBlockTransactionCountByHash eth_getBlockTransactionCountByNumber
     eth_estimateGas eth_getBlockByHash eth_getBlockByNumber eth_getBlockReceipts
     eth_getTransactionByHash eth_getTransactionByBlockHashAndIndex
     eth_getTransactionByBlockNumberAndIndex eth_getTransactionReceipt eth_chainId
     shardeum_getNodeList shardeum_getNetworkAccount shardeum_getCycleInfo
     copy_if_set try_catch bind prop str parse_int lift console_error emit ret throw get].

(** The strings of the arguments of a handler, when they are primitive. *)
Ltac argument_strings H :=
  repeat match goal with
         | |- context [to_string (lookup ?k ?args)] =>
             let s := fresh "s" in
             let Hs := fresh "Hs" in
             destruct (argument_string args k H) as [s Hs]; rewrite Hs; clear Hs
         end;
  unfold_handler.

(** Every outcome of the conversions and of the call that are left. *)
Ltac each_outcome :=
  repeat (first [ rewrite makeRpcCall_run
                | match goal with
                  | |- context [rpc_result ?x] => destruct (rpc_result x)
                  | |- context [to_string ?v] => destruct (to_string v)
                  | |- context [parseInt ?v ?r] => destruct (parseInt v r)
                  end ];
          unfold_handler).

Lemma never_throws net url d :
  In d (registerTools net url) ->
  forall args tr, exists r tr', callback d args tr = (Return r, tr').
Proof.
  intros Hd args tr. each_tool Hd; unfold_handler;
    destruct args; unfold_handler; each_outcome; eexists; eexists; reflexivity.
Qed.

Lemma posts_app a b : posts (app a b) = app (posts a) (posts b).
Proof. unfold posts. apply flat_map_app. Qed.

Ltac split_rpc :=
  rewrite makeRpcCall_run;
  match goal with |- context [rpc_result ?x] => destruct (rpc_result x) eqn:?Hrpc end.


(** C3. For every tool: when the endpoint answers with a body whose
    [error] is an object, the handler, run on arguments that are primitive
    (as validated arguments are), returns one text flagged as an error
    ([isError: true]), and when the message of the error is the string [m]
    the text ends with "RPC Error: " and [m]; and for every endpoint and
    every argument value the handler returns a result and throws nothing. *)
Theorem rpc_error_is_reported net url d data err :
  In d (registerTools net url) ->
  (forall u b, net u b = Resolved data) ->
  get data "error" = inl (VObj err) ->
  (forall args tr, exists r tr', callback d args tr = (Return r, tr')) /\
  (forall args tr,
      primitive_values args = true ->
      exists t tr',
        callback d (VObj args) tr =
        (Return {| content := [ {| type := "text"; text := Some t |} ];
                   isError := true |}, tr') /\
        forall m, lookup "message" err = VStr m ->
                  exists pre, t = pre ++ "RPC Error: " ++ m).
Proof.
  intros Hd Hnet Herr. split; [intros; eapply never_throws; eassumption|].
  intros args tr Hargs.
  remember (match to_string (lookup "message" err) with
            | inl m => Error "Error" ("RPC Error: " ++ m)
            | inr e => e
            end) as thrown eqn:Hthrown.
  assert (Hr : forall u b, rpc_result (net u b) = inr thrown).
  { intros u b. rewrite Hnet. unfold rpc_result. rewrite Herr. cbn [to_boolean get].
    rewrite Hthrown. destruct (to_string (lookup "message" err)); reflexivity. }
  assert (Hm : forall m, lookup "message" err = VStr m ->
                         message thrown = "RPC Error: " ++ m).
  { intros m Hm. rewrite Hthrown, Hm. reflexivity. }
  clear Hthrown.
  each_tool Hd; unfold_handler; argument_strings Hargs;
    rewrite makeRpcCall_run, Hr;
    eexists; eexists; (split; [reflexivity|]);
    intros m Hmsg; rewrite (Hm m Hmsg); eexists; reflexivity.
Qed.

(** C9. Every request of the RPC client is a POST of the envelope
    [{ jsonrpc: "2.0", id: 1, method, params }], whatever was sent before;
    and a handler run on an argument object with primitive values (as
    validated arguments are) sends exactly one request, for the method that
    has the name of the tool. *)
Theorem envelope_is_fixed net url d args tr :
  In d (registerTools net url) ->
  (forall method params,
      posts (snd (makeRpcCall net method params url tr)) =
      app (posts tr) [(url, VObj [("jsonrpc", VStr "2.0"); ("id", num 1);
                                  ("method", VStr method); ("params", VArr params)])]) /\
  (primitive_values args = true ->
   exists params,
      posts (snd (callback d (VObj args) tr)) =
      app (posts tr) [(url, VObj [("jsonrpc", VStr "2.0"); ("id", num 1);
                                  ("method", VStr (tool_name d)); ("params", VArr params)])]).
Proof.
  intros Hd. split.
  - intros method params. rewrite makeRpcCall_run.
    destruct (rpc_result _); cbn [snd]; rewrite posts_app; reflexivity.
  - intros Hargs.
    each_tool Hd; unfold_handler; argument_strings Hargs; split_rpc; unfold_handler;
      each_outcome; cbn [snd tool_name];
      eexists; rewrite !posts_app; cbn; rewrite ?app_nil_r; reflexivity.
Qed.

Lemma substring_all s : substring 0 (String.length s) s = s.
Proof. induction s; cbn; [reflexivity | now rewrite IHs]. Qed.

Lemma malformed_rejected s : malformed s -> test (HexExactly 40) s = false.
Proof.
  intros H. unfold test.
  destruct s as [|c0 [|c1 body]]; try reflexivity.
  - destruct c0 as [[] [] [] [] [] [] [] []]; reflexivity.
  - destruct (ascii_dec c0 "0") as [->|n0];
      [destruct (ascii_dec c1 "x") as [->|n1]|].
    + destruct H as [H | [H | H]].
      * cbn in H. destruct (Nat.eqb_spec (String.length body) 40).
        -- lia.
        -- apply andb_false_r.
      * destruct body; cbv in H; discriminate.
      * unfold string_drop in H. cbn in H. rewrite Nat.sub_0_r, substring_all in H.
        rewrite H. reflexivity.
    + destruct c1 as [[] [] [] [] [] [] [] []]; try reflexivity. now elim n1.
    + destruct c0 as [[] [] [] [] [] [] [] []]; try reflexivity. now elim n0.
Qed.

(** C4, as amended. For every method and parameter list: when the body of
    the response has an [error] object, [makeRpcCall] throws, after one POST
    and no other request, an [Error] whose message is "RPC Error: " followed
    by the string of the message of the remote error, or the TypeError of
    the conversion of that message to a string when it throws (the code of
    the remote error is not kept); the message of what is thrown is written
    to the console. *)
Theorem rpc_error_thrown net method params url tr data err :
  net url (envelope method params) = Resolved data ->
  get data "error" = inl (VObj err) ->
  let thrown := match to_string (lookup "message" err) with
                | inl m => Error "Error" ("RPC Error: " ++ m)
                | inr e => e
                end in
  makeRpcCall net method params url tr =
  (Throw thrown,
   app tr [Post url (envelope method params);
           ConsoleError ["Error making RPC call to " ++ method ++ ":"; message thrown]]).
Proof.
  intros Hnet Herr. cbv zeta. rewrite makeRpcCall_run, Hnet. unfold rpc_result.
  rewrite Herr. cbn [to_boolean get].
  destruct (to_string (lookup "message" err)); reflexivity.
Qed.

(** C4, as stated, fails: two responses that differ in the code of the error
    only make [makeRpcCall] throw the same error, so no function of the
    thrown error gives back the remote code. *)
Lemma rpc_error_code_dropped :
  ~ (exists code_of : error -> value,
        forall (net : network) method params url tr data err e tr',
          net url (envelope method params) = Resolved data ->
          get data "error" = inl (VObj err) ->
          makeRpcCall net method params url tr = (Throw e, tr') ->
          code_of e = lookup "code" err).
Proof.
  intros [code_of H].
  pose proof (H (mock (error_body (-32000) "boom")) "eth_chainId" [] "" [] _ _ _ _
                eq_refl eq_refl eq_refl) as H1.
  pose proof (H (mock (error_body (-32601) "boom")) "eth_chainId" [] "" [] _ _ _ _
                eq_refl eq_refl eq_refl) as H2.
  cbn in H1, H2. rewrite H1 in H2. discriminate H2.
Qed.

Ltac nan_cases :=
  cbv beta iota;
  first
    [ solve [cbn; intros; first [discriminate | reflexivity]]
    | match goal with
      | |- context [match ?t with EmptyString => _ | String _ _ => _ end] =>
          is_var t; destruct t as [|[[] [] [] [] [] [] [] []] ?]; nan_cases
      end ].

(** [parseInt] in radix 16 gives NaN on a string with no hexadecimal digit
    where it looks for one. *)
Lemma parse_int_string_NaN s : no_hex_digit s = true -> parse_int_string s 16 = Num.NaN.
Proof.
  unfold no_hex_digit, parse_int_string. change (16 =? 16) with true.
  generalize (trim_start s) as t. intros t. nan_cases.
Qed.

Lemma unparseable_NaN v :
  unparseable v = true -> exists r, to_string v = inl r /\ parseInt v 16 = inl Num.NaN.
Proof.
  unfold unparseable, parseInt. destruct (to_string v) as [r|]; [|discriminate].
  intros H. exists r. split; [reflexivity|]. now rewrite parse_int_string_NaN.
Qed.

(** C10, as amended. For every hex-quantity tool, run on arguments that
    are primitive (as validated arguments are), when the call succeeds: on a
    result that has a string and is not a hex string that can be parsed
    ([null] for one), the handler returns a result that is not flagged as an
    error and whose text has NaN where the decimal value would be, followed
    by the string of the result in parentheses; on a result whose conversion
    to a string throws, the handler returns one text flagged as an error
    that ends with the message of what was thrown. *)
Theorem unparseable_quantity_is_NaN net url d data err result :
  In d (registerTools net url) ->
  In (tool_name d) quantity_tools ->
  (forall u b, net u b = Resolved data) ->
  get data "error" = inl err -> to_boolean err = false ->
  get data "result" = inl result ->
  (unparseable result = true ->
   forall args tr,
     primitive_values args = true ->
     exists pre r tr',
       to_string result = inl r /\
       callback d (VObj args) tr =
       (Return {| content := [ {| type := "text";
                                  text := Some (pre ++ "NaN (" ++ r ++ ")") |} ];
                  isError := false |}, tr')) /\
  (forall e,
     to_string result = inr e ->
     forall args tr,
       primitive_values args = true ->
       exists label tr',
         callback d (VObj args) tr =
         (Return {| content := [ {| type := "text"; text := Some (label ++ message e) |} ];
                    isError := true |}, tr')).
Proof.
  intros Hd Hq Hnet Herr Hfalsy Hres.
  assert (Hr : forall u b, rpc_result (net u b) = inl result).
  { intros u b. rewrite Hnet. unfold rpc_result. rewrite Herr, Hfalsy. exact Hres. }
  split.
  - intros Hun args tr Hargs.
    destruct (unparseable_NaN result Hun) as (r & Hstr & Hnan).
    each_tool Hd; cbn [tool_name quantity_tools In] in Hq;
      try (exfalso; repeat destruct Hq as [Hq | Hq]; solve [discriminate Hq | exact Hq]);
      unfold_handler; argument_strings Hargs;
      rewrite makeRpcCall_run, Hr; unfold_handler; rewrite Hnan; unfold_handler;
      rewrite ?Hstr; unfold_handler; cbn [Num.to_string Num.NaN]; unfold success.
    + exists "Current Block Number: ", r. eexists. split; reflexivity.
    + exists ("Transaction Count for " ++ s ++ " at " ++ s0 ++ " block: "), r. eexists.
      split; [reflexivity|]. rewrite !append_assoc. reflexivity.
    + exists ("Transaction Count for Block Hash " ++ s ++ ": "), r.
      eexists. split; [reflexivity|]. rewrite !append_assoc. reflexivity.
    + exists ("Transaction Count for Block Number " ++ s ++ ": "), r.
      eexists. split; [reflexivity|]. rewrite !append_assoc. reflexivity.
    + exists "Estimated Gas Required: ", r. eexists. split; reflexivity.
    + exists "Chain ID: ", r. eexists. split; reflexivity.
  - intros e Hthrows args tr Hargs.
    assert (Hint : parseInt result 16 = inr e) by (unfold parseInt; now rewrite Hthrows).
    each_tool Hd; cbn [tool_name quantity_tools In] in Hq;
      try (exfalso; repeat destruct Hq as [Hq | Hq]; solve [discriminate Hq | exact Hq]);
      unfold_handler; argument_strings Hargs;
      rewrite makeRpcCall_run, Hr; unfold_handler; rewrite Hint; unfold_handler;
      eexists; eexists; reflexivity.
Qed.

(** C10, as stated, fails on a result that is an object with an own
    [toString], which is no hex string: the body is JSON text, [parseInt]
    throws on the result, and the block-number tool returns an error
    report. *)
Lemma object_result_is_an_error_report :
  JSON.parse (result_text ("{" ++ JSON.quote "toString" ++ ":null}")) =
  Some (result_body (VObj [("toString", VNull)])) /\
  fst (callback (get_tool (mock (result_body (VObj [("toString", VNull)]))) sample_url
                   "eth_blockNumber") (VObj []) []) =
  Return {| content :=
              [ {| type := "text";
                   text := Some ("Error: Failed to get block number. "
                                 ++ "Cannot convert object to primitive value") |} ];
            isError := true |}.
Proof. split; vm_compute; reflexivity. Qed.

(** C5. For every tool and every field of its schema that is an address
    (required or optional): a call whose argument for that field is a
    malformed address is answered with a failure report and leaves the trace
    as it was, so no request is sent. *)
Theorem malformed_address_is_rejected net url d field sch arguments s tr :
  In d (registerTools net url) ->
  In (field, sch) (paramsSchema d) ->
  sch = address_re \/ sch = ZOptional address_re ->
  lookup field arguments = VStr s ->
  malformed s ->
  exists t, invoke d arguments tr = (Return (failure t), tr).
Proof.
  intros Hd Hf Hs Hv Hbad. apply malformed_rejected in Hbad.
  unfold invoke.
  each_tool Hd; cbn [paramsSchema In] in Hf;
    repeat (destruct Hf as [Hf | Hf]; [injection Hf as <- <- | ]); try contradiction;
    try (destruct Hs as [Hs | Hs]; discriminate Hs);
    cbn [paramsSchema parse_object parse address_re tool_name];
    try rewrite Hv; cbn [parse]; try rewrite Hbad;
    try (eexists; reflexivity).
  (* eth_estimateGas, [to]: [from] is parsed first *)
  destruct (lookup "from" arguments) as [| | | |f| |]; try (eexists; reflexivity).
  destruct (test (HexExactly 40) f); eexists; reflexivity.
Qed.

(** C7. For every tool whose schema has a [blockParameter] field: when the
    caller gives a valid address and leaves [blockParameter] out, the
    arguments are accepted and the one request sent has the parameter list
    [[address, "latest"]]. *)
Theorem block_parameter_defaults_to_latest net url d arguments a tr :
  In d (registerTools net url) ->
  In "blockParameter" (map fst (paramsSchema d)) ->
  lookup "address" arguments = VStr a ->
  test (HexExactly 40) a = true ->
  lookup "blockParameter" arguments = VUndef ->
  exists args,
    parse_object (paramsSchema d) arguments = inl args /\
    posts (snd (callback d (VObj args) tr)) =
    app (posts tr) [(url, envelope (tool_name d) [VStr a; VStr "latest"])].
Proof.
  intros Hd Hb Ha Hok Hnone.
  each_tool Hd; cbn [paramsSchema map fst In] in Hb;
    try (exfalso; repeat destruct Hb as [Hb | Hb]; solve [discriminate Hb | exact Hb]);
    cbn [paramsSchema parse_object parse address_re]; rewrite Ha, Hnone; cbn [parse];
    rewrite Hok; eexists; (split; [reflexivity|]);
    unfold_handler; cbn [lookup String.eqb Ascii.eqb Bool.eqb to_string]; unfold_handler;
    split_rpc; unfold_handler; each_outcome;
    cbn [snd tool_name]; rewrite !posts_app; cbn; rewrite ?app_nil_r; reflexivity.
Qed.

(** C2. For every tool: a call whose arguments fail the schema returns one
    text flagged as an error ([isError: true]) and sends nothing; a call
    with arguments that the schema accepts and whose POST is rejected with
    an error returns one text flagged as an error that ends with the message
    of that error; and such a call answered with an [error] object with the
    message [m] returns one text flagged as an error that ends with
    "RPC Error: " and [m]. Nothing is thrown. *)
Theorem failures_become_error_reports net url d arguments tr :
  In d (registerTools net url) ->
  (forall field,
      parse_object (paramsSchema d) arguments = inr field ->
      exists t,
        invoke d arguments tr =
        (Return {| content := [ {| type := "text"; text := Some t |} ];
                   isError := true |}, tr)) /\
  (forall args e,
      parse_object (paramsSchema d) arguments = inl args ->
      (forall u b, net u b = Rejected e) ->
      exists label tr',
        invoke d arguments tr =
        (Return {| content := [ {| type := "text"; text := Some (label ++ message e) |} ];
                   isError := true |}, tr')) /\
  (forall args data err m,
      parse_object (paramsSchema d) arguments = inl args ->
      (forall u b, net u b = Resolved data) ->
      get data "error" = inl (VObj err) ->
      lookup "message" err = VStr m ->
      exists label tr',
        invoke d arguments tr =
        (Return {| content := [ {| type := "text";
                                   text := Some (label ++ "RPC Error: " ++ m) |} ];
                   isError := true |}, tr')).
Proof.
  intros Hd.
  assert (Hfail : forall args e,
             parse_object (paramsSchema d) arguments = inl args ->
             (forall u b, rpc_result (net u b) = inr e) ->
             exists label tr',
               invoke d arguments tr =
               (Return {| content := [ {| type := "text";
                                          text := Some (label ++ message e) |} ];
                          isError := true |}, tr')).
  { intros args e Hp Hr. unfold invoke. rewrite Hp.
    pose proof (parse_object_primitive _ _ _ Hp) as Hargs. clear Hp.
    each_tool Hd; unfold_handler; argument_strings Hargs;
      rewrite makeRpcCall_run, Hr; eexists; eexists; reflexivity. }
  repeat split.
  - intros field Hp. unfold invoke. rewrite Hp. eexists. reflexivity.
  - intros args e Hp Hnet. apply (Hfail args e Hp). intros u b. now rewrite Hnet.
  - intros args data err m Hp Hnet Herr Hm.
    destruct (Hfail args (Error "Error" ("RPC Error: " ++ m)) Hp) as (label & tr' & H).
    + intros u b. rewrite Hnet. unfold rpc_result. rewrite Herr. cbn. rewrite Hm. reflexivity.
    + exists label, tr'. exact H.
Qed.

(** ** Hex quantities *)

Lemma radix_val_16 c : radix_val 16 c = hex_val c.
Proof. destruct c as [[] [] [] [] [] [] [] []]; reflexivity. Qed.

Lemma hex_val_nonneg c d : hex_val c = Some d -> 0 <= d.
Proof. destruct c as [[] [] [] [] [] [] [] []]; cbv; intros [= <-]; discriminate. Qed.

Lemma radix_prefix_hex h : forall acc seen,
  all_chars is_hex h = true ->
  radix_prefix 16 acc seen h =
  (hex_digits_val acc h, match h with EmptyString => seen | _ => true end).
Proof.
  induction h as [|c h IH]; intros acc seen Hh; [reflexivity|].
  cbn [all_chars] in Hh. apply andb_true_iff in Hh as [Hc Hh].
  cbn [radix_prefix hex_digits_val]. rewrite radix_val_16.
  unfold is_hex in Hc. destruct (hex_val c) as [d|]; [|discriminate].
  rewrite IH by assumption. destruct h; reflexivity.
Qed.

Lemma hex_digits_val_nonneg h : forall acc, 0 <= acc -> 0 <= hex_digits_val acc h.
Proof.
  induction h as [|c h IH]; intros acc Hacc; cbn [hex_digits_val]; [assumption|].
  destruct (hex_val c) as [d|] eqn:E; [|assumption].
  apply IH. apply hex_val_nonneg in E. lia.
Qed.

(** [parseInt] of a hex quantity is the number nearest to its value. *)
Lemma parseInt_hex h :
  h <> "" -> all_chars is_hex h = true ->
  parseInt (VStr ("0x" ++ h)) 16 = inl (Num.of_Z false (hex_digits_val 0 h)).
Proof.
  intros Hne Hh. unfold parseInt. cbn [to_string]. f_equal.
  unfold parse_int_string. cbn [append trim_start].
  change (is_space "0") with false. cbn iota.
  change (16 =? 16) with true. cbn iota.
  rewrite radix_prefix_hex by assumption.
  destruct h; [congruence | reflexivity].
Qed.

Lemma to_string_of_Z n :
  0 <= n < 2 ^ 53 -> Num.to_string (Num.of_Z false n) = decimal n.
Proof.
  intros Hn. destruct (Z.eq_dec n 0) as [->|]; [reflexivity|].
  apply to_string_small. lia.
Qed.

(** The text of a hex-quantity tool on a result that is 0x and
    hexadecimal digits: a label, the string of the number that [parseInt]
    makes of the digits, and the result in parentheses. *)
Lemma quantity_text net url d data err h :
  In d (registerTools net url) ->
  In (tool_name d) quantity_tools ->
  (forall u b, net u b = Resolved data) ->
  get data "error" = inl err -> to_boolean err = false ->
  get data "result" = inl (VStr ("0x" ++ h)) ->
  h <> "" -> all_chars is_hex h = true ->
  forall args tr,
    primitive_values args = true ->
    exists pre tr',
      callback d (VObj args) tr =
      (Return (success (Some (pre ++ Num.to_string (Num.of_Z false (hex_digits_val 0 h))
                                ++ " (0x" ++ h ++ ")"))), tr').
Proof.
  intros Hd Hq Hnet Herr Hfalsy Hres Hne Hh args tr Hargs.
  assert (Hr : forall u b, rpc_result (net u b) = inl (VStr ("0x" ++ h))).
  { intros u b. rewrite Hnet. unfold rpc_result. rewrite Herr, Hfalsy. exact Hres. }
  each_tool Hd; cbn [tool_name quantity_tools In] in Hq;
    try (exfalso; repeat destruct Hq as [Hq | Hq]; solve [discriminate Hq | exact Hq]);
    unfold_handler; argument_strings Hargs;
    rewrite makeRpcCall_run, Hr; unfold_handler;
    rewrite parseInt_hex by assumption; unfold_handler; cbn [to_string]; unfold_handler.
  - exists "Current Block Number: ". eexists. reflexivity.
  - exists ("Transaction Count for " ++ s ++ " at " ++ s0 ++ " block: "). eexists.
    rewrite !append_assoc. reflexivity.
  - exists ("Transaction Count for Block Hash " ++ s ++ ": "). eexists.
    rewrite !append_assoc. reflexivity.
  - exists ("Transaction Count for Block Number " ++ s ++ ": "). eexists.
    rewrite !append_assoc. reflexivity.
  - exists "Estimated Gas Required: ". eexists. reflexivity.
  - exists "Chain ID: ". eexists. reflexivity.
Qed.

(** C6, as amended. For every hex-quantity tool, run on arguments that
    are primitive (as validated arguments are), and every result that is 0x
    and hexadecimal digits of a value below 2^53: the text is a label, the
    decimal numeral of the value and the original hex in parentheses; and
    for the result 0x10 the block-number tool reports 16 and 0x10. *)
Theorem quantity_is_reported_in_decimal net url d data err h :
  In d (registerTools net url) ->
  In (tool_name d) quantity_tools ->
  (forall u b, net u b = Resolved data) ->
  get data "error" = inl err -> to_boolean err = false ->
  get data "result" = inl (VStr ("0x" ++ h)) ->
  h <> "" -> all_chars is_hex h = true ->
  hex_digits_val 0 h < 2 ^ 53 ->
  (forall args tr,
      primitive_values args = true ->
      exists pre tr',
        callback d (VObj args) tr =
        (Return (success (Some (pre ++ decimal (hex_digits_val 0 h)
                                  ++ " (0x" ++ h ++ ")"))), tr')) /\
  (h = "10" -> forall args tr, exists tr',
      eth_blockNumber net url args tr =
      (Return (success (Some "Current Block Number: 16 (0x10)")), tr')).
Proof.
  intros Hd Hq Hnet Herr Hfalsy Hres Hne Hh Hlt. split.
  - intros args tr Hargs.
    destruct (quantity_text net url d data err h Hd Hq Hnet Herr Hfalsy Hres Hne Hh args tr
                Hargs) as (pre & tr' & Hrun).
    exists pre, tr'. rewrite Hrun, to_string_of_Z; [reflexivity|].
    split; [apply hex_digits_val_nonneg; lia | assumption].
  - intros -> args tr. unfold_handler.
    rewrite makeRpcCall_run, Hnet. unfold rpc_result. rewrite Herr, Hfalsy, Hres.
    eexists. reflexivity.
Qed.

(** C6, as stated, fails from 2^53 on: the gas estimate 0x20000000000001,
    which is 9007199254740993, is reported as 9007199254740992. *)
Lemma quantity_above_2_53_is_rounded :
  hex_digits_val 0 "20000000000001" = 9007199254740993 /\
  fst (callback (get_tool (mock (result_body (VStr "0x20000000000001"))) sample_url
                   "eth_estimateGas") (VObj []) []) =
  Return (success (Some "Estimated Gas Required: 9007199254740992 (0x20000000000001)")).
Proof. split; vm_compute; reflexivity. Qed.

(** ** Structured results *)

(** C8, as amended. For every structured-result tool, run on arguments
    that are primitive (as validated arguments are), and every response
    body that [JSON.parse] reads, with a result that is present
    (not [undefined]) and in which every number is finite and is not -0:
    the text of the tool is JSON text that [JSON.parse] reads back as the
    result. *)
Theorem structured_result_is_read_back net url d body data err v :
  In d (registerTools net url) ->
  In (tool_name d) structured_tools ->
  JSON.parse body = Some data ->
  (forall u b, net u b = Resolved data) ->
  get data "error" = inl err -> to_boolean err = false ->
  get data "result" = inl v ->
  JSON.ordinary v = true ->
  forall args tr,
    primitive_values args = true ->
    exists t tr',
      callback d (VObj args) tr = (Return (success (Some t)), tr') /\
      JSON.parse t = Some v.
Proof.
  intros Hd Hs Hbody Hnet Herr Hfalsy Hres Hord args tr Hargs.
  assert (Hr : forall u b, rpc_result (net u b) = inl v).
  { intros u b. rewrite Hnet. unfold rpc_result. rewrite Herr, Hfalsy. exact Hres. }
  assert (Hplain : JSON.plain v = true).
  { apply parsed_ordinary_plain; [|assumption].
    assert (Hdata : JSON.parsed data = true).
    { unfold JSON.parse in Hbody.
      destruct (JSON.parse_value _ body) as [[v0 r]|] eqn:Hv; [|discriminate].
      destruct (JSON.skip_ws r); [|discriminate]. injection Hbody as <-.
      exact (proj1 (parse_value_parsed _) body v0 r Hv). }
    destruct data as [ | | | | | |l]; cbn [get] in Hres; try discriminate Hres;
      injection Hres as <-; try discriminate Hord.
    cbn [JSON.parsed] in Hdata. apply andb_true_iff in Hdata as [_ Hvals].
    destruct (lookup_values JSON.parsed "result" l Hvals) as [Hu | Hp]; [|exact Hp].
    rewrite Hu in Hord. discriminate Hord. }
  destruct (parse_stringify v Hplain) as (t & Ht & Hparse).
  exists t.
  each_tool Hd; cbn [tool_name structured_tools In] in Hs;
    try (exfalso; repeat destruct Hs as [Hs | Hs]; solve [discriminate Hs | exact Hs]);
    unfold_handler; argument_strings Hargs;
    rewrite makeRpcCall_run, Hr, Ht; eexists; split;
    solve [reflexivity | exact Hparse].
Qed.

(** C8, as stated, fails on a number that is not finite: the result 1e999
    is JSON text that [JSON.parse] reads as Infinity, the tool writes it as
    null, and null is read back as [null]. *)
Lemma infinity_is_not_read_back :
  JSON.parse (result_text "1e999") = Some (result_body (VNum Num.Infinity)) /\
  fst (callback (get_tool (mock (result_body (VNum Num.Infinity))) sample_url
                   "eth_getBlockByHash")
         (VObj [("blockHash", VStr sample_hash); ("fullTransactions", VBool false)]) []) =
  Return (success (Some "null")) /\
  JSON.parse "null" = Some VNull /\
  VNull <> VNum Num.Infinity.
Proof. repeat split; try (vm_compute; reflexivity). discriminate. Qed.

(** ** The balance tool on a balance of 2^53 wei or more *)

(** C1. The balance tool on the balance 0x112210f47de98115, which is
    1234567890123456789 wei: the text reports 1234567890123456800 wei, the
    binary64 number nearest to the balance, and not the balance. *)
Theorem balance_wei_is_rounded :
  hex_digits_val 0 "112210f47de98115" = 1234567890123456789 /\
  fst (callback (get_tool (mock (result_body (VStr "0x112210f47de98115"))) sample_url
                   "eth_getBalance")
         (VObj [("address", VStr sample_address); ("blockParameter", VStr "latest")]) []) =
  Return (success (Some ("Balance for " ++ sample_address ++ " at block latest:" ++ nl
                         ++ "- Wei: 1234567890123456800" ++ nl
                         ++ "- ETH: 1.2346"))).
Proof. split; vm_compute; reflexivity. Qed.

(** ** The theorems at concrete inputs *)

Lemma failures_become_error_reports_witness :
  exists t,
    invoke (get_tool (mock (result_body (VStr "0x10"))) sample_url "eth_getBalance")
      [("address", VStr "0x12")] [] =
    (Return {| content := [ {| type := "text"; text := Some t |} ]; isError := true |}, []).
Proof.
  refine (proj1 (failures_become_error_reports (mock (result_body (VStr "0x10")))
                   sample_url
                   (get_tool (mock (result_body (VStr "0x10"))) sample_url "eth_getBalance")
                   [("address", VStr "0x12")] [] _) "address" _).
  - left. reflexivity.
  - reflexivity.
Defined.

Lemma rpc_error_is_reported_witness :
  exists t tr',
    callback (get_tool (mock (error_body (-32000) "boom")) sample_url "eth_chainId")
      (VObj []) [] =
    (Return {| content := [ {| type := "text"; text := Some t |} ];
               isError := true |}, tr') /\
    forall m, VStr "boom" = VStr m -> exists pre, t = pre ++ "RPC Error: " ++ m.
Proof.
  refine (proj2 (rpc_error_is_reported (mock (error_body (-32000) "boom")) sample_url
                   (get_tool (mock (error_body (-32000) "boom")) sample_url "eth_chainId")
                   (error_body (-32000) "boom")
                   [("code", num (-32000)); ("message", VStr "boom")] _ _ _)
            [] [] _).
  - do 13 right. left. reflexivity.
  - reflexivity.
  - reflexivity.
  - reflexivity.
Defined.

Lemma rpc_error_thrown_witness :
  makeRpcCall (mock (error_body (-32601) "Method not found")) "eth_chainId" [] sample_url [] =
  (Throw (Error "Error" "RPC Error: Method not found"),
   [Post sample_url (envelope "eth_chainId" []);
    ConsoleError ["Error making RPC call to eth_chainId:";
                  "RPC Error: Method not found"]]).
Proof.
  apply (rpc_error_thrown (mock (error_body (-32601) "Method not found")) "eth_chainId" []
           sample_url [] (error_body (-32601) "Method not found")
           [("code", num (-32601)); ("message", VStr "Method not found")]).
  - reflexivity.
  - reflexivity.
Defined.

Lemma malformed_address_is_rejected_witness :
  exists t,
    invoke (get_tool (mock (result_body (VStr "0x10"))) sample_url "eth_estimateGas")
      [("to", VStr "0123456789abcdefABCDEF0123456789abcdef0123")] [] =
    (Return (failure t), []).
Proof.
  apply (malformed_address_is_rejected (mock (result_body (VStr "0x10"))) sample_url _
           "to" (ZOptional address_re) _ "0123456789abcdefABCDEF0123456789abcdef0123").
  - do 5 right. left. reflexivity.
  - right. left. reflexivity.
  - right. reflexivity.
  - reflexivity.
  - right. left. reflexivity.
Defined.

Lemma quantity_is_reported_in_decimal_witness :
  exists tr',
    eth_blockNumber (mock (result_body (VStr "0x10"))) sample_url (VObj []) [] =
    (Return (success (Some "Current Block Number: 16 (0x10)")), tr').
Proof.
  refine (proj2 (quantity_is_reported_in_decimal (mock (result_body (VStr "0x10")))
                   sample_url
                   (get_tool (mock (result_body (VStr "0x10"))) sample_url
                      "eth_blockNumber")
                   (result_body (VStr "0x10")) VUndef "10" _ _ _ _ _ _ _ _ _)
            eq_refl (VObj []) []).
  - right. left. reflexivity.
  - left. reflexivity.
  - reflexivity.
  - reflexivity.
  - reflexivity.
  - reflexivity.
  - discriminate.
  - reflexivity.
  - reflexivity.
Defined.

Lemma block_parameter_defaults_to_latest_witness :
  exists args,
    parse_object
      (paramsSchema (get_tool (mock (result_body (VStr "0x10"))) sample_url
                       "eth_getTransactionCount"))
      [("address", VStr sample_address)] = inl args /\
    posts (snd (callback (get_tool (mock (result_body (VStr "0x10"))) sample_url
                            "eth_getTransactionCount") (VObj args) [])) =
    app (posts []) [(sample_url, envelope "eth_getTransactionCount"
                                   [VStr sample_address; VStr "latest"])].
Proof.
  apply (block_parameter_defaults_to_latest (mock (result_body (VStr "0x10"))) sample_url
           (get_tool (mock (result_body (VStr "0x10"))) sample_url "eth_getTransactionCount")
           [("address", VStr sample_address)] sample_address []).
  - do 2 right. left. reflexivity.
  - right. left. reflexivity.
  - reflexivity.
  - reflexivity.
  - reflexivity.
Defined.

Lemma envelope_is_fixed_witness :
  exists params,
    posts (snd (callback (get_tool (mock (result_body VNull)) sample_url
                            "eth_getBlockByHash")
                  (VObj [("blockHash", VStr sample_hash); ("fullTransactions", VBool false)])
                  [])) =
    app (posts []) [(sample_url, VObj [("jsonrpc", VStr "2.0"); ("id", num 1);
                                       ("method", VStr "eth_getBlockByHash");
                                       ("params", VArr params)])].
Proof.
  refine (proj2 (envelope_is_fixed (mock (result_body VNull)) sample_url
                   (get_tool (mock (result_body VNull)) sample_url "eth_getBlockByHash")
                   [("blockHash", VStr sample_hash); ("fullTransactions", VBool false)]
                   [] _) _).
  - do 6 right. left. reflexivity.
  - reflexivity.
Defined.

Lemma unparseable_quantity_is_NaN_witness :
  exists pre r tr',
    to_string VNull = inl r /\
    callback (get_tool (mock (result_body VNull)) sample_url "eth_estimateGas")
      (VObj []) [] =
    (Return {| content := [ {| type := "text";
                               text := Some (pre ++ "NaN (" ++ r ++ ")") |} ];
               isError := false |}, tr').
Proof.
  refine (proj1 (unparseable_quantity_is_NaN (mock (result_body VNull)) sample_url
                   (get_tool (mock (result_body VNull)) sample_url "eth_estimateGas")
                   (result_body VNull) VUndef VNull _ _ _ _ _ _) _ [] [] _).
  - do 5 right. left. reflexivity.
  - do 5 right. left. reflexivity.
  - reflexivity.
  - reflexivity.
  - reflexivity.
  - reflexivity.
  - reflexivity.
  - reflexivity.
Defined.

Lemma structured_result_is_read_back_witness :
  exists t tr',
    callback (get_tool (mock (result_body sample_block)) sample_url "eth_getBlockByHash")
      (VObj [("blockHash", VStr sample_hash); ("fullTransactions", VBool false)]) [] =
    (Return (success (Some t)), tr') /\
    JSON.parse t = Some sample_block.
Proof.
  apply (structured_result_is_read_back
           (mock (result_body sample_block)) sample_url
           (get_tool (mock (result_body sample_block)) sample_url "eth_getBlockByHash")
           (result_text sample_block_text) (result_body sample_block) VUndef).
  - do 6 right. left. reflexivity.
  - left. reflexivity.
  - vm_compute. reflexivity.
  - reflexivity.
  - reflexivity.
  - reflexivity.
  - reflexivity.
  - vm_compute. reflexivity.
  - reflexivity.
Defined.

(** * Further properties *)

(** ** More on the RPC client *)

(** X1. Whatever the endpoint does, [makeRpcCall] sends one POST and
    either returns without writing to the console, or writes one line with
    the method and the message of the error and throws that error; an error
    of the transport is thrown as it came. *)
Theorem rpc_failure_is_logged_and_rethrown net method params url tr :
  ((exists v, makeRpcCall net method params url tr =
              (Return v, app tr [Post url (envelope method params)])) \/
   (exists e, makeRpcCall net method params url tr =
              (Throw e, app tr [Post url (envelope method params);
                                ConsoleError ["Error making RPC call to " ++ method ++ ":";
                                              message e]]))) /\
  (forall e, net url (envelope method params) = Rejected e ->
             fst (makeRpcCall net method params url tr) = Throw e).
Proof.
  rewrite makeRpcCall_run. split.
  - destruct (rpc_result _) as [v|e]; [left; exists v | right; exists e]; reflexivity.
  - intros e ->. reflexivity.
Qed.

(** X2. When the body of the response has no [error], or one that is
    falsy ([null], [false], 0, the empty string), [makeRpcCall] returns the
    [result] of the body as it is ([undefined] when there is none), after
    one POST and with nothing written to the console. *)
Theorem rpc_result_is_returned net method params url tr data err :
  net url (envelope method params) = Resolved data ->
  get data "error" = inl err -> to_boolean err = false ->
  exists v, get data "result" = inl v /\
            makeRpcCall net method params url tr =
            (Return v, app tr [Post url (envelope method params)]).
Proof.
  intros Hnet Herr Hfalsy. rewrite makeRpcCall_run, Hnet. unfold rpc_result.
  rewrite Herr, Hfalsy.
  destruct data; try discriminate Herr; eexists; split; reflexivity.
Qed.

(** X3. A remote [error] that is truthy and is not an object (a string, a
    number, [true], an array) has no [message]: [makeRpcCall] throws
    "RPC Error: undefined", and the text of the remote error is lost. *)
Theorem error_that_is_no_object_loses_its_text net method params url tr data err :
  net url (envelope method params) = Resolved data ->
  get data "error" = inl err -> to_boolean err = true ->
  (forall l, err <> VObj l) ->
  fst (makeRpcCall net method params url tr) = Throw (Error "Error" "RPC Error: undefined").
Proof.
  intros Hnet Herr Htruthy Hno. rewrite makeRpcCall_run, Hnet. unfold rpc_result.
  rewrite Herr, Htruthy.
  destruct err; try discriminate Htruthy; try reflexivity. now elim (Hno l).
Qed.

(** ** More on the handlers *)

(** X4. For every tool run on arguments that are primitive, with an
    endpoint that answers [resp]: when the call fails, the result is one
    text flagged as an error, "Error: Failed to", what the tool was to do,
    and the message of the error; when the call returns a value that has a
    string, the result is not flagged as an error. *)
Theorem result_is_flagged_when_the_call_fails net url d resp :
  In d (registerTools net url) ->
  (forall u b, net u b = resp) ->
  forall args tr,
    primitive_values args = true ->
    exists r tr',
      callback d (VObj args) tr = (Return r, tr') /\
      match rpc_result resp with
      | inr e =>
          exists label,
            r = {| content := [ {| type := "text"; text := Some (label ++ message e) |} ];
                   isError := true |} /\
            prefix "Error: Failed to " label = true
      | inl v => (exists s, to_string v = inl s) -> isError r = false
      end.
Proof.
  intros Hd Hnet args tr Hargs.
  each_tool Hd; unfold_handler; argument_strings Hargs; rewrite makeRpcCall_run, Hnet;
    destruct (rpc_result resp) as [v|e]; unfold_handler;
    try (eexists; eexists; split; [reflexivity|]; eexists; split; reflexivity);
    try (eexists; eexists; split; [reflexivity|]; intros _; reflexivity);
    unfold parseInt;
    destruct (to_string v) as [sv|e];
    try (eexists; eexists; split; [reflexivity|]; intros [? [=]]);
    eexists; eexists; (split; [reflexivity|]); intros _; reflexivity.
Qed.

(** X5. Every tool of [positional_tools], run on an argument object with
    primitive values, sends one request whose parameter list is the values
    of the fields of its schema, in the order of the schema ([undefined] for
    a field that the object does not have). *)
Theorem arguments_are_passed_in_schema_order net url d args tr :
  In d (registerTools net url) ->
  In (tool_name d) positional_tools ->
  primitive_values args = true ->
  posts (snd (callback d (VObj args) tr)) =
  app (posts tr)
    [(url, envelope (tool_name d)
             (map (fun field => lookup field args) (map fst (paramsSchema d))))].
Proof.
  intros Hd Hp Hargs.
  each_tool Hd; cbn [tool_name positional_tools In] in Hp;
    try (exfalso; repeat destruct Hp as [Hp | Hp]; solve [discriminate Hp | exact Hp]);
    unfold_handler; argument_strings Hargs; split_rpc; unfold_handler; each_outcome;
    cbn [snd tool_name paramsSchema map fst];
    rewrite !posts_app; cbn; rewrite ?app_nil_r; reflexivity.
Qed.

(** X6. [eth_estimateGas] sends one request whose only parameter is an
    object with those of [from], [to], [value] and [data], in this order,
    that are truthy in the arguments: a field that is missing or is the
    empty string is left out. *)
Theorem estimateGas_sends_set_fields_only net url args tr :
  posts (snd (eth_estimateGas net url (VObj args) tr)) =
  app (posts tr)
    [(url, envelope "eth_estimateGas"
             [VObj (filter (fun kv => to_boolean (snd kv))
                      (map (fun field => (field, lookup field args))
                         ["from"; "to"; "value"; "data"]))])].
Proof.
  unfold_handler. cbn [map filter snd].
  destruct (to_boolean (lookup "from" args)), (to_boolean (lookup "to" args)),
    (to_boolean (lookup "value" args)), (to_boolean (lookup "data" args));
    split_rpc; unfold_handler; each_outcome;
    cbn [snd]; rewrite !posts_app; cbn; rewrite ?app_nil_r; reflexivity.
Qed.

(** X7. For the two block lookups: when the caller gives a block that the
    schema accepts and leaves [fullTransactions] out, the arguments are
    accepted and the request has the parameter list [[block, false]]. *)
Theorem full_transactions_default_to_false net url d field sch arguments b tr :
  In d (registerTools net url) ->
  paramsSchema d = [(field, sch); ("fullTransactions", ZDefault ZBoolean (VBool false))] ->
  lookup field arguments = VStr b ->
  parse sch (VStr b) = Some (VStr b) ->
  lookup "fullTransactions" arguments = VUndef ->
  exists args,
    parse_object (paramsSchema d) arguments = inl args /\
    posts (snd (callback d (VObj args) tr)) =
    app (posts tr) [(url, envelope (tool_name d) [VStr b; VBool false])].
Proof.
  intros Hd Hsch Hb Hok Hnone.
  each_tool Hd; cbn [paramsSchema] in Hsch; try discriminate Hsch;
    injection Hsch as <- <-;
    cbn [paramsSchema parse_object]; rewrite Hb, Hok, Hnone; cbn [parse];
    eexists; (split; [reflexivity|]);
    unfold_handler; cbn [lookup String.eqb Ascii.eqb Bool.eqb to_string]; unfold_handler;
    split_rpc; cbn [snd tool_name]; rewrite !posts_app; cbn; rewrite ?app_nil_r;
    reflexivity.
Qed.

(** X8. [shardeum_getNodeList] called without [page] and [limit]: the
    arguments are accepted and the request has one parameter, the object
    [{ page: 1, limit: 100 }]. *)
Theorem node_list_defaults net url arguments tr :
  lookup "page" arguments = VUndef ->
  lookup "limit" arguments = VUndef ->
  exists args,
    parse_object (paramsSchema (get_tool net url "shardeum_getNodeList")) arguments
    = inl args /\
    posts (snd (shardeum_getNodeList net url (VObj args) tr)) =
    app (posts tr)
      [(url, envelope "shardeum_getNodeList" [VObj [("page", num 1); ("limit", num 100)]])].
Proof.
  intros Hp Hl. cbn [get_tool registerTools find tool_name String.eqb Ascii.eqb Bool.eqb
                       paramsSchema parse_object].
  rewrite Hp, Hl. eexists; split; [reflexivity|].
  unfold_handler. cbn [lookup String.eqb Ascii.eqb Bool.eqb]. split_rpc;
    cbn [snd]; rewrite !posts_app; cbn; rewrite ?app_nil_r; reflexivity.
Qed.

(** X9. A structured-result tool, run on arguments that are primitive, on
    a response that has neither an error nor a [result]: the call succeeds
    with [undefined], [JSON.stringify] gives [undefined], and the tool
    returns a result that is not flagged as an error and whose text is
    [undefined]. *)
Theorem missing_result_gives_no_text net url d data err :
  In d (registerTools net url) ->
  In (tool_name d) structured_tools ->
  (forall u b, net u b = Resolved data) ->
  get data "error" = inl err -> to_boolean err = false ->
  get data "result" = inl VUndef ->
  forall args tr,
    primitive_values args = true ->
    exists tr',
      callback d (VObj args) tr =
      (Return {| content := [ {| type := "text"; text := None |} ]; isError := false |}, tr').
Proof.
  intros Hd Hs Hnet Herr Hfalsy Hres args tr Hargs.
  assert (Hr : forall u b, rpc_result (net u b) = inl VUndef).
  { intros u b. rewrite Hnet. unfold rpc_result. rewrite Herr, Hfalsy. exact Hres. }
  each_tool Hd; cbn [tool_name structured_tools In] in Hs;
    try (exfalso; repeat destruct Hs as [Hs | Hs]; solve [discriminate Hs | exact Hs]);
    unfold_handler; argument_strings Hargs; rewrite makeRpcCall_run, Hr; eexists;
    reflexivity.
Qed.

(** X10. The balance tool, run on arguments that are primitive, on a
    balance below 2^53 wei, given as 0x and hexadecimal digits: the text
    reports the exact decimal value in wei. *)
Theorem small_balance_is_exact net url data err h :
  (forall u b, net u b = Resolved data) ->
  get data "error" = inl err -> to_boolean err = false ->
  get data "result" = inl (VStr ("0x" ++ h)) ->
  h <> "" -> all_chars is_hex h = true ->
  hex_digits_val 0 h < 2 ^ 53 ->
  forall args tr,
    primitive_values args = true ->
    exists a b eth tr',
      to_string (lookup "address" args) = inl a /\
      to_string (lookup "blockParameter" args) = inl b /\
      eth_getBalance net url (VObj args) tr =
      (Return (success (Some ("Balance for " ++ a ++ " at block " ++ b ++ ":" ++ nl
                              ++ "- Wei: " ++ decimal (hex_digits_val 0 h) ++ nl
                              ++ "- ETH: " ++ eth))), tr').
Proof.
  intros Hnet Herr Hfalsy Hres Hne Hh Hlt args tr Hargs.
  assert (Hr : forall u b, rpc_result (net u b) = inl (VStr ("0x" ++ h))).
  { intros u b. rewrite Hnet. unfold rpc_result. rewrite Herr, Hfalsy. exact Hres. }
  destruct (argument_string args "address" Hargs) as [a Ha].
  destruct (argument_string args "blockParameter" Hargs) as [b Hb].
  exists a, b. unfold_handler. rewrite Ha, Hb. unfold_handler.
  rewrite makeRpcCall_run, Hr. unfold_handler.
  rewrite parseInt_hex by assumption. unfold_handler. cbv zeta.
  rewrite to_string_of_Z by (split; [apply hex_digits_val_nonneg; lia | assumption]).
  eexists; eexists; repeat split; reflexivity.
Qed.







(** X12. The balance tool, run on arguments that are primitive, on a
    result that is not a hex string that can be parsed ([null], or no
    result): a result that is not flagged as an error, with NaN for the wei
    and NaN for the ETH. *)
Theorem unparseable_balance_is_NaN net url data err result :
  (forall u b, net u b = Resolved data) ->
  get data "error" = inl err -> to_boolean err = false ->
  get data "result" = inl result ->
  unparseable result = true ->
  forall args tr,
    primitive_values args = true ->
    exists a b tr',
      to_string (lookup "address" args) = inl a /\
      to_string (lookup "blockParameter" args) = inl b /\
      eth_getBalance net url (VObj args) tr =
      (Return {| content := [ {| type := "text";
                                 text := Some ("Balance for " ++ a ++ " at block " ++ b
                                               ++ ":" ++ nl ++ "- Wei: NaN" ++ nl
                                               ++ "- ETH: NaN") |} ];
                 isError := false |}, tr').
Proof.
  intros Hnet Herr Hfalsy Hres Hun args tr Hargs.
  assert (Hr : forall u b, rpc_result (net u b) = inl result).
  { intros u b. rewrite Hnet. unfold rpc_result. rewrite Herr, Hfalsy. exact Hres. }
  destruct (unparseable_NaN result Hun) as (r & _ & Hnan).
  destruct (argument_string args "address" Hargs) as [a Ha].
  destruct (argument_string args "blockParameter" Hargs) as [b Hb].
  exists a, b. unfold_handler. rewrite Ha, Hb. unfold_handler.
  rewrite makeRpcCall_run, Hr. unfold_handler. rewrite Hnan. unfold_handler.
  eexists; repeat split; reflexivity.
Qed.

(** ** More on structured results *)

Lemma written_serialize v :
  JSON.parsed v = true -> forall indent, JSON.serialize indent (JSON.written v) = JSON.serialize indent v.
Proof.
  induction v as [ | | b | n | s | l IH | l IH] using value_induction;
    intros Hp indent; try reflexivity.
  - destruct n; try reflexivity.
  - cbn [JSON.written]. rewrite !serialize_arr. do 2 f_equal.
    cbn [JSON.parsed] in Hp. unfold JSON.elements.
    induction IH as [|x l Hx _ IHl]; [reflexivity|].
    cbn [forallb] in Hp. apply andb_true_iff in Hp as [Hp1 Hp2].
    cbn [map]. now rewrite Hx, IHl.
  - cbn [JSON.written]. rewrite !serialize_obj. do 2 f_equal.
    cbn [JSON.parsed] in Hp. apply andb_true_iff in Hp as [_ Hp].
    induction IH as [|[k x] l Hx _ IHl]; [reflexivity|].
    cbn [forallb] in Hp. apply andb_true_iff in Hp as [Hp1 Hp2]. cbn [snd] in Hx.
    cbn [map JSON.members]. now rewrite Hx, IHl.
Qed.

Lemma written_plain v : JSON.parsed v = true -> JSON.plain (JSON.written v) = true.
Proof.
  induction v as [ | | b | n | s | l IH | l IH] using value_induction;
    intros Hp; try (reflexivity || discriminate).
  - destruct n; try reflexivity. exact Hp.
  - cbn [JSON.written JSON.plain]. cbn [JSON.parsed] in Hp.
    induction IH as [|x l Hx _ IHl]; [reflexivity|].
    cbn [forallb] in Hp. apply andb_true_iff in Hp as [Hp1 Hp2].
    cbn [map forallb]. now rewrite Hx, IHl.
  - cbn [JSON.written JSON.plain]. cbn [JSON.parsed] in Hp. apply andb_true_iff in Hp as [Hord Hp].
    apply andb_true_iff. split.
    + rewrite map_map.
      rewrite (map_ext _ fst) by (intros [k x]; reflexivity). exact Hord.
    + clear Hord. induction IH as [|[k x] l Hx _ IHl]; [reflexivity|].
      cbn [forallb] in Hp. apply andb_true_iff in Hp as [Hp1 Hp2]. cbn [snd] in Hx.
      cbn [map forallb]. now rewrite Hx, IHl.
Qed.

(** X13. For every structured-result tool, run on arguments that are
    primitive, and every response body that [JSON.parse] reads and that has
    a result: the text of the tool is JSON text, and [JSON.parse] reads it
    back as the result in which every number that is not finite is [null]
    and -0 is 0. *)
Theorem structured_text_is_always_json net url d body data err v :
  In d (registerTools net url) ->
  In (tool_name d) structured_tools ->
  JSON.parse body = Some data ->
  (forall u b, net u b = Resolved data) ->
  get data "error" = inl err -> to_boolean err = false ->
  get data "result" = inl v ->
  v <> VUndef ->
  forall args tr,
    primitive_values args = true ->
    exists t tr',
      callback d (VObj args) tr = (Return (success (Some t)), tr') /\
      JSON.parse t = Some (JSON.written v).
Proof.
  intros Hd Hs Hbody Hnet Herr Hfalsy Hres Hdef args tr Hargs.
  assert (Hr : forall u b, rpc_result (net u b) = inl v).
  { intros u b. rewrite Hnet. unfold rpc_result. rewrite Herr, Hfalsy. exact Hres. }
  assert (Hv : JSON.parsed v = true).
  { assert (Hdata : JSON.parsed data = true).
    { unfold JSON.parse in Hbody.
      destruct (JSON.parse_value _ body) as [[v0 r]|] eqn:Hv; [|discriminate].
      destruct (JSON.skip_ws r); [|discriminate]. injection Hbody as <-.
      exact (proj1 (parse_value_parsed _) body v0 r Hv). }
    destruct data as [ | | | | | |l]; cbn [get] in Hres; try discriminate Hres;
      injection Hres as <-; try congruence.
    cbn [JSON.parsed] in Hdata. apply andb_true_iff in Hdata as [_ Hvals].
    destruct (lookup_values JSON.parsed "result" l Hvals) as [Hu | Hp]; [congruence | exact Hp]. }
  destruct (parse_stringify (JSON.written v) (written_plain v Hv)) as (t & Ht & Hparse).
  unfold JSON.stringify in Ht. rewrite written_serialize in Ht by assumption.
  exists t.
  each_tool Hd; cbn [tool_name structured_tools In] in Hs;
    try (exfalso; repeat destruct Hs as [Hs | Hs]; solve [discriminate Hs | exact Hs]);
    unfold_handler; argument_strings Hargs;
    rewrite makeRpcCall_run, Hr; unfold JSON.stringify; rewrite Ht;
    eexists; split; solve [reflexivity | exact Hparse].
Qed.

(** ** The endpoint of the requests *)

(** Whatever its argument, a handler sends no request or one, to the URL
    of its registration and for the method of its name. *)
Lemma handler_posts net url d :
  In d (registerTools net url) ->
  forall args tr,
    posts (snd (callback d args tr)) = posts tr \/
    exists params,
      posts (snd (callback d args tr)) =
      app (posts tr) [(url, envelope (tool_name d) params)].
Proof.
  intros Hd args tr.
  each_tool Hd; cbn [tool_name callback]; destruct args; unfold_handler;
    repeat match goal with
           | |- context [to_string ?v] => destruct (to_string v); unfold_handler
           end;
    lazymatch goal with
    | |- context [makeRpcCall] =>
        right; split_rpc; unfold_handler; each_outcome; cbn [snd tool_name]; eexists;
        rewrite !posts_app; cbn; rewrite ?app_nil_r; reflexivity
    | |- _ => left; cbn [snd]; rewrite ?posts_app; cbn; rewrite ?app_nil_r; reflexivity
    end.
Qed.

(** X14. With the [start.js] of the Dockerfile, every request of every
    tool goes to [RPC_URL] when the variable is set and is not empty, and to
    https://api-testnet.shardeum.org/ when it is not set or is empty; with
    [index.js], every request goes to the URL written in its configuration. *)
Theorem requests_go_to_the_configured_endpoint net :
  (forall RPC_URL endpoint d args tr u b,
      (RPC_URL = Some endpoint /\ endpoint <> "") \/
      ((RPC_URL = None \/ RPC_URL = Some "") /\
       endpoint = "https://api-testnet.shardeum.org/") ->
      In d (Server.tools net (Server.start_config RPC_URL)) ->
      In (u, b) (posts (snd (callback d args tr))) ->
      In (u, b) (posts tr) \/ u = endpoint) /\
  (forall d args tr u b,
      In d (Server.tools net Server.index_config) ->
      In (u, b) (posts (snd (callback d args tr))) ->
      In (u, b) (posts tr) \/ u = "https://<add-network-name>.shardeum.org/").
Proof.
  assert (H : forall url d args tr u b,
             In d (registerTools net url) ->
             In (u, b) (posts (snd (callback d args tr))) ->
             In (u, b) (posts tr) \/ u = url).
  { intros url d args tr u b Hd Hin.
    destruct (handler_posts net url d Hd args tr) as [E | [params E]];
      rewrite E in Hin; [now left|].
    apply in_app_or in Hin as [Hin | [[= <- _] | []]]; [now left | now right]. }
  split.
  - intros RPC_URL endpoint d args tr u b Henv Hd. apply H.
    unfold Server.tools, Server.start_config, Server.rpcUrl in Hd.
    destruct Henv as [[-> Hne] | [[-> | ->] ->]]; try exact Hd.
    destruct (String.eqb_spec endpoint ""); [contradiction | exact Hd].
  - intros d args tr u b Hd. apply H. exact Hd.
Qed.

(** ** Validated arguments *)

(** The validated arguments have, for every field of the shape, the value
    that the schema of the field makes of the input ([undefined] when it is
    left out). *)
Lemma parse_object_lookup sh : forall input args,
  NoDup (map fst sh) ->
  parse_object sh input = inl args ->
  (forall k t, In (k, t) sh -> parse t (lookup k input) = Some (lookup k args)) /\
  (forall k, ~ In k (map fst sh) -> lookup k args = VUndef).
Proof.
  induction sh as [|[k0 t0] sh IH]; intros input args Hnd Hp.
  - cbn in Hp. injection Hp as <-. split; [intros k t []|reflexivity].
  - cbn [parse_object] in Hp. cbn [map fst] in Hnd. inversion Hnd as [|? ? Hnot Hnd']; subst.
    destruct (parse t0 (lookup k0 input)) as [v0|] eqn:Hv0; [|discriminate].
    destruct (parse_object sh input) as [rest|] eqn:Hrest; [|discriminate].
    destruct (IH input rest Hnd' Hrest) as [IHin IHout].
    assert (Hk0 : lookup k0 args = v0).
    { injection Hp as <-. destruct v0; cbn [lookup]; rewrite ?String.eqb_refl;
        try reflexivity. now apply IHout. }
    assert (Hother : forall k, k <> k0 -> lookup k args = lookup k rest).
    { intros k Hne. injection Hp as <-.
      destruct v0; cbn [lookup]; try reflexivity;
        destruct (String.eqb_spec k k0); congruence. }
    split.
    + intros k t [[= <- <-] | Hin]; [now rewrite Hk0|].
      rewrite Hother; [now apply IHin|].
      intros ->. apply Hnot. now apply (in_map fst sh (k0, t)).
    + intros k Hk. cbn [map fst In] in Hk. rewrite Hother by (intros ->; tauto). apply IHout. tauto.
Qed.

Lemma schema_fields_differ net url d :
  In d (registerTools net url) -> NoDup (map fst (paramsSchema d)).
Proof.
  intros Hd. each_tool Hd; cbn [paramsSchema map fst];
    repeat (constructor; [cbn [In]; intuition discriminate|]); constructor.
Qed.

Lemma test_spec r s :
  test r s = true ->
  exists h, s = "0x" ++ h /\ all_chars is_hex h = true /\
            match r with
            | HexExactly n => String.length h = n
            | HexSome => h <> ""
            end.
Proof.
  unfold test. destruct s as [|c0 [|c1 h]]; try discriminate.
  - destruct c0 as [[] [] [] [] [] [] [] []]; discriminate.
  - destruct (ascii_dec c0 "0") as [->|n0]; [destruct (ascii_dec c1 "x") as [->|n1]|].
    + intros H. apply andb_true_iff in H as [Hh Hr]. exists h. repeat split; [assumption|].
      destruct r as [n|]; [now apply Nat.eqb_eq|].
      destruct h; [discriminate Hr | discriminate].
    + destruct c1 as [[] [] [] [] [] [] [] []]; try discriminate. now elim n1.
    + destruct c0 as [[] [] [] [] [] [] [] []]; try discriminate. now elim n0.
Qed.

(** X15. For every tool and every argument mapping that its schema
    accepts: in the validated arguments, a field with a pattern holds 0x and
    hexadecimal digits, as many as the pattern says (forty for an address,
    sixty-four for a hash, one or more for a quantity), and so does an
    optional field with a pattern that is not left out. *)
Theorem validated_arguments_match_their_patterns net url d arguments args field r :
  In d (registerTools net url) ->
  parse_object (paramsSchema d) arguments = inl args ->
  (In (field, ZRegex r) (paramsSchema d) \/
   In (field, ZOptional (ZRegex r)) (paramsSchema d) /\ lookup field args <> VUndef) ->
  exists h, lookup field args = VStr ("0x" ++ h) /\ all_chars is_hex h = true /\
            match r with
            | HexExactly n => String.length h = n
            | HexSome => h <> ""
            end.
Proof.
  intros Hd Hp Hf.
  destruct (parse_object_lookup _ arguments args (schema_fields_differ net url d Hd) Hp)
    as [Hin _].
  assert (Hs : exists s, lookup field args = VStr s /\ test r s = true).
  { destruct Hf as [Hf | [Hf Hdef]]; apply Hin in Hf; cbn [parse] in Hf.
    - destruct (lookup field arguments) as [| | | |s| |]; try discriminate Hf.
      destruct (test r s) eqn:Ht; [|discriminate Hf]. injection Hf as <-. eauto.
    - destruct (lookup field arguments) as [| | | |s| |]; try discriminate Hf.
      + injection Hf as Hf. congruence.
      + destruct (test r s) eqn:Ht; [|discriminate Hf]. injection Hf as <-. eauto. }
  destruct Hs as (s & Hs & Ht). destruct (test_spec r s Ht) as (h & -> & Hh & Hr).
  exists h. auto.
Qed.

(** ** The further theorems at concrete inputs *)

Lemma rpc_result_is_returned_witness :
  exists v, get (VObj [("error", VNull); ("result", VStr "0x10")]) "result" = inl v /\
            makeRpcCall (mock (VObj [("error", VNull); ("result", VStr "0x10")]))
              "eth_chainId" [] sample_url [] =
            (Return v, app [] [Post sample_url (envelope "eth_chainId" [])]).
Proof.
  apply (rpc_result_is_returned (mock (VObj [("error", VNull); ("result", VStr "0x10")]))
           "eth_chainId" [] sample_url []
           (VObj [("error", VNull); ("result", VStr "0x10")]) VNull).
  - reflexivity.
  - reflexivity.
  - reflexivity.
Defined.

Lemma error_that_is_no_object_loses_its_text_witness :
  fst (makeRpcCall (mock (VObj [("error", VStr "out of gas")])) "eth_estimateGas" []
         sample_url []) =
  Throw (Error "Error" "RPC Error: undefined").
Proof.
  apply (error_that_is_no_object_loses_its_text (mock (VObj [("error", VStr "out of gas")]))
           "eth_estimateGas" [] sample_url [] (VObj [("error", VStr "out of gas")])
           (VStr "out of gas")).
  - reflexivity.
  - reflexivity.
  - reflexivity.
  - intros l. discriminate.
Defined.

Lemma result_is_flagged_when_the_call_fails_witness :
  exists r tr',
    callback (get_tool (fun _ _ => Rejected (Error "Error" "connect ECONNREFUSED"))
                sample_url "eth_getTransactionReceipt")
      (VObj [("txHash", VStr sample_hash)]) [] = (Return r, tr') /\
    match rpc_result (Rejected (Error "Error" "connect ECONNREFUSED")) with
    | inr e =>
        exists label,
          r = {| content := [ {| type := "text"; text := Some (label ++ message e) |} ];
                 isError := true |} /\
          prefix "Error: Failed to " label = true
    | inl v => (exists s, to_string v = inl s) -> isError r = false
    end.
Proof.
  apply (result_is_flagged_when_the_call_fails
           (fun _ _ => Rejected (Error "Error" "connect ECONNREFUSED")) sample_url
           (get_tool (fun _ _ => Rejected (Error "Error" "connect ECONNREFUSED"))
              sample_url "eth_getTransactionReceipt")
           (Rejected (Error "Error" "connect ECONNREFUSED"))).
  - do 12 right. left. reflexivity.
  - reflexivity.
  - reflexivity.
Defined.

Lemma arguments_are_passed_in_schema_order_witness :
  posts (snd (callback (get_tool (mock (result_body VNull)) sample_url
                          "eth_getTransactionByBlockHashAndIndex")
                (VObj [("blockHash", VStr sample_hash); ("transactionIndex", VStr "0x1")])
                [])) =
  app (posts [])
    [(sample_url, envelope "eth_getTransactionByBlockHashAndIndex"
                    (map (fun field =>
                            lookup field [("blockHash", VStr sample_hash);
                                          ("transactionIndex", VStr "0x1")])
                       (map fst [("blockHash", hash_re);
                                 ("transactionIndex", quantity_re)])))].
Proof.
  apply (arguments_are_passed_in_schema_order (mock (result_body VNull)) sample_url
           (get_tool (mock (result_body VNull)) sample_url
              "eth_getTransactionByBlockHashAndIndex")
           [("blockHash", VStr sample_hash); ("transactionIndex", VStr "0x1")] []).
  - do 10 right. left. reflexivity.
  - do 9 right. left. reflexivity.
  - reflexivity.
Defined.

Lemma full_transactions_default_to_false_witness :
  exists args,
    parse_object
      (paramsSchema (get_tool (mock (result_body VNull)) sample_url "eth_getBlockByNumber"))
      [("blockNumber", VStr "0x10")] = inl args /\
    posts (snd (callback (get_tool (mock (result_body VNull)) sample_url
                            "eth_getBlockByNumber") (VObj args) [])) =
    app (posts []) [(sample_url, envelope "eth_getBlockByNumber"
                                   [VStr "0x10"; VBool false])].
Proof.
  apply (full_transactions_default_to_false (mock (result_body VNull)) sample_url
           (get_tool (mock (result_body VNull)) sample_url "eth_getBlockByNumber")
           "blockNumber" quantity_re [("blockNumber", VStr "0x10")] "0x10" []).
  - do 7 right. left. reflexivity.
  - reflexivity.
  - reflexivity.
  - reflexivity.
  - reflexivity.
Defined.

Lemma node_list_defaults_witness :
  exists args,
    parse_object (paramsSchema (get_tool (mock (result_body VNull)) sample_url
                                  "shardeum_getNodeList")) [] = inl args /\
    posts (snd (shardeum_getNodeList (mock (result_body VNull)) sample_url (VObj args) [])) =
    app (posts [])
      [(sample_url,
        envelope "shardeum_getNodeList" [VObj [("page", num 1); ("limit", num 100)]])].
Proof.
  apply (node_list_defaults (mock (result_body VNull)) sample_url [] []).
  - reflexivity.
  - reflexivity.
Defined.

Lemma missing_result_gives_no_text_witness :
  exists tr',
    callback (get_tool (mock (VObj [("jsonrpc", VStr "2.0"); ("id", num 1)])) sample_url
                "eth_getTransactionByHash")
      (VObj [("txHash", VStr sample_hash)]) [] =
    (Return {| content := [ {| type := "text"; text := None |} ]; isError := false |}, tr').
Proof.
  apply (missing_result_gives_no_text
           (mock (VObj [("jsonrpc", VStr "2.0"); ("id", num 1)])) sample_url
           (get_tool (mock (VObj [("jsonrpc", VStr "2.0"); ("id", num 1)])) sample_url
              "eth_getTransactionByHash")
           (VObj [("jsonrpc", VStr "2.0"); ("id", num 1)]) VUndef).
  - do 9 right. left. reflexivity.
  - do 3 right. left. reflexivity.
  - reflexivity.
  - reflexivity.
  - reflexivity.
  - reflexivity.
  - reflexivity.
Defined.

Lemma small_balance_is_exact_witness :
  exists a b eth tr',
    to_string (lookup "address" [("address", VStr sample_address);
                                 ("blockParameter", VStr "latest")]) = inl a /\
    to_string (lookup "blockParameter" [("address", VStr sample_address);
                                        ("blockParameter", VStr "latest")]) = inl b /\
    eth_getBalance (mock (result_body (VStr "0x1bc16d674ec80"))) sample_url
      (VObj [("address", VStr sample_address); ("blockParameter", VStr "latest")]) [] =
    (Return (success (Some ("Balance for " ++ a ++ " at block " ++ b ++ ":" ++ nl
                            ++ "- Wei: " ++ decimal (hex_digits_val 0 "1bc16d674ec80") ++ nl
                            ++ "- ETH: " ++ eth))), tr').
Proof.
  apply (small_balance_is_exact (mock (result_body (VStr "0x1bc16d674ec80"))) sample_url
           (result_body (VStr "0x1bc16d674ec80")) VUndef "1bc16d674ec80").
  - reflexivity.
  - reflexivity.
  - reflexivity.
  - reflexivity.
  - discriminate.
  - reflexivity.
  - reflexivity.
  - reflexivity.
Defined.


Lemma unparseable_balance_is_NaN_witness :
  exists a b tr',
    to_string (lookup "address" [("address", VStr sample_address);
                                 ("blockParameter", VStr "latest")]) = inl a /\
    to_string (lookup "blockParameter" [("address", VStr sample_address);
                                        ("blockParameter", VStr "latest")]) = inl b /\
    eth_getBalance (mock (result_body VNull)) sample_url
      (VObj [("address", VStr sample_address); ("blockParameter", VStr "latest")]) [] =
    (Return {| content := [ {| type := "text";
                               text := Some ("Balance for " ++ a ++ " at block " ++ b
                                             ++ ":" ++ nl ++ "- Wei: NaN" ++ nl
                                             ++ "- ETH: NaN") |} ];
               isError := false |}, tr').
Proof.
  apply (unparseable_balance_is_NaN (mock (result_body VNull)) sample_url
           (result_body VNull) VUndef VNull).
  - reflexivity.
  - reflexivity.
  - reflexivity.
  - reflexivity.
  - reflexivity.
  - reflexivity.
Defined.

Lemma structured_text_is_always_json_witness :
  exists t tr',
    callback (get_tool (mock (result_body (VArr [VNum Num.Infinity; num 2]))) sample_url
                "eth_getBlockReceipts")
      (VObj [("blockNumberOrHash", VStr "0x10")]) [] =
    (Return (success (Some t)), tr') /\
    JSON.parse t = Some (JSON.written (VArr [VNum Num.Infinity; num 2])).
Proof.
  apply (structured_text_is_always_json
           (mock (result_body (VArr [VNum Num.Infinity; num 2]))) sample_url
           (get_tool (mock (result_body (VArr [VNum Num.Infinity; num 2]))) sample_url
              "eth_getBlockReceipts")
           (result_text "[1e999, 2]") (result_body (VArr [VNum Num.Infinity; num 2])) VUndef).
  - do 8 right. left. reflexivity.
  - do 2 right. left. reflexivity.
  - vm_compute. reflexivity.
  - reflexivity.
  - reflexivity.
  - reflexivity.
  - reflexivity.
  - discriminate.
  - reflexivity.
Defined.

Lemma validated_arguments_match_their_patterns_witness :
  exists h,
    lookup "address" [("address", VStr sample_address); ("blockParameter", VStr "latest")] =
    VStr ("0x" ++ h) /\ all_chars is_hex h = true /\ String.length h = 40%nat.
Proof.
  apply (validated_arguments_match_their_patterns (mock (result_body VNull)) sample_url
           (get_tool (mock (result_body VNull)) sample_url "eth_getBalance")
           [("address", VStr sample_address)]
           [("address", VStr sample_address); ("blockParameter", VStr "latest")]
           "address" (HexExactly 40)).
  - left. reflexivity.
  - reflexivity.
  - left. left. reflexivity.
Defined.

(** ** The prompts *)

Import Prompts.

(** X16. The prompts and the tools are registered in the same order, and
    every prompt, on every argument object with primitive values, is one
    user message whose text starts with "Use", the name of its tool and
    "to". *)
Theorem prompts_name_their_tools net url :
  Forall2 (fun p d =>
             forall args,
               primitive_values args = true ->
               exists rest,
                 prompt_callback p args =
                 inl (user_text ("Use " ++ tool_name d ++ " to " ++ rest)))
    registerPrompts (registerTools net url).
Proof.
  unfold registerPrompts, registerTools.
  repeat (constructor;
          [intros args Hargs;
           cbv beta iota zeta delta
             [prompt_callback address_balance block_number transaction_count
              block_transactions_by_hash block_transactions_by_number estimate_gas
              block_by_hash block_by_number block_receipts transaction_by_hash
              transaction_by_block_hash_index transaction_by_block_number_index
              transaction_receipt chain_id shardeum_node_list shardeum_network_account
              shardeum_cycle_info];
           repeat match goal with
                  | |- context [to_string (lookup ?k args)] =>
                      let s := fresh "s" in
                      let Hs := fresh "Hs" in
                      destruct (argument_string args k Hargs) as [s Hs]; rewrite Hs;
                      clear Hs
                  end;
           repeat match goal with
                  | |- context [to_boolean ?v] => destruct (to_boolean v)
                  end;
           eexists; reflexivity|]).
  constructor.
Qed.

(** X17. Every prompt takes the arguments of its tool: the schema of the
    prompt and the schema of the tool accept the same argument mappings and
    give the same validated arguments (where they differ, by an [optional]
    under a [default], it makes no difference). *)
Theorem prompt_schemas_agree net url :
  Forall2 (fun p d =>
             forall input, parse_object (argsSchema p) input
                           = parse_object (paramsSchema d) input)
    registerPrompts (registerTools net url).
Proof.
  unfold registerPrompts, registerTools.
  repeat (constructor;
          [intros input; cbn [argsSchema paramsSchema parse_object];
           try reflexivity;
           repeat match goal with
                  | |- context [lookup ?k input] => destruct (lookup k input)
                  end; reflexivity|]).
  constructor.
Qed.

(** X18. The cycle number 0: [shardeum_getCycleInfo] asks for the cycle 0
    (its parameter list is [[0]]), while the prompt [shardeum_cycle_info],
    which tests the number for truth, gives the text for no cycle number,
    "the current network cycle". *)
Theorem cycle_zero_differs_in_prompt_and_tool net url args s tr :
  lookup "cycleNumber" args = VNum (S754_zero s) ->
  posts (snd (shardeum_getCycleInfo net url (VObj args) tr)) =
  app (posts tr) [(url, envelope "shardeum_getCycleInfo" [VNum (S754_zero s)])] /\
  posts (snd (shardeum_getCycleInfo net url (VObj []) tr)) =
  app (posts tr) [(url, envelope "shardeum_getCycleInfo" [])] /\
  shardeum_cycle_info args = shardeum_cycle_info [].
Proof.
  intros Hc. repeat split.
  - unfold_handler. rewrite Hc. split_rpc; cbn [snd]; rewrite !posts_app; cbn;
      rewrite ?app_nil_r; reflexivity.
  - unfold_handler. cbn [lookup]. split_rpc; cbn [snd]; rewrite !posts_app; cbn;
      rewrite ?app_nil_r; reflexivity.
  - unfold shardeum_cycle_info. rewrite Hc. reflexivity.
Qed.


Lemma cycle_zero_differs_in_prompt_and_tool_witness :
  posts (snd (shardeum_getCycleInfo (mock (result_body VNull)) sample_url
                (VObj [("cycleNumber", VNum (S754_zero false))]) [])) =
  app (posts []) [(sample_url, envelope "shardeum_getCycleInfo" [VNum (S754_zero false)])] /\
  posts (snd (shardeum_getCycleInfo (mock (result_body VNull)) sample_url (VObj []) [])) =
  app (posts []) [(sample_url, envelope "shardeum_getCycleInfo" [])] /\
  Prompts.shardeum_cycle_info [("cycleNumber", VNum (S754_zero false))] =
  Prompts.shardeum_cycle_info [].
Proof.
  apply (cycle_zero_differs_in_prompt_and_tool (mock (result_body VNull)) sample_url
           [("cycleNumber", VNum (S754_zero false))] false []).
  reflexivity.
Defined.

